(** * skill-pool: the external registry and the unified search, verified

    A shallow embedding of [external_registry.py] and of the [recommend]
    path of [unified_search.py], with the properties of the tokenizer, the
    categorizer, the scorer, the cache and the registry merge that the
    specification states.

    Conventions of the embedding.
    - A Python [str] is a [string] whose characters are the code points
      below 256; the character classes ([lower], [\w], whitespace) are
      those of the Unicode database on these code points.
    - A Python [float] is the rational it denotes ([Q]); an operation on
      floats is the operation on rationals followed by the rounding to the
      nearest double, [binary64].  The scorer is also given in exact
      arithmetic, which is the formula of the specification; the two
      scores differ by [2^-49] at most.
    - A Python [set] is the duplicate-free list of its elements.  Where the
      program observes the iteration order (the [' '.join] of the scorer)
      the list is in that order, and statements quantify over it.
    - A Python [dict] is the list of its items in insertion order.
    - Code that can raise returns [exn A]; an exception the program does
      not catch travels up as [Raise].
    - The file system, the network, the clock and the version of the
      [datetime] library are a record [World] that the functions read and,
      for the cache directory and its file, return updated.  A text is
      either a JSON document, given by the value [json.loads] returns for
      it, or other text, given by its characters.
    - The fields of a record have the types the dataclass annotates; a JSON
      value of another type in their place is reported as [Untyped].

    The definitions come first, module by module as in the sources; the
    properties follow, with the number of the claim each one settles. *)

From Stdlib Require Import List String Ascii Bool Arith ZArith QArith Lia Lqa.
From Stdlib Require Import Qround Qabs Qpower Permutation Sorted.
Import ListNotations.

Set Implicit Arguments.

(** ** The Python runtime the program relies on *)

Module Py.

Inductive pyerr : Set :=
| KeyError | ValueError | TypeError | AttributeError
| ZeroDivisionError | JSONDecodeError
| Untyped.  (* a value of another type than the annotated one: outside the typed embedding *)

Inductive exn (A : Type) : Type :=
| Ok (a : A)
| Raise (e : pyerr).

Arguments Ok {A} a.
Arguments Raise {A} e.

Definition bind {A B : Type} (m : exn A) (k : A -> exn B) : exn B :=
  match m with
  | Ok a => k a
  | Raise e => Raise e
  end.

Notation "x <- m ;; k" := (bind m (fun x => k))
  (at level 61, m at next level, right associativity).

Notation "' pat <- m ;; k" := (bind m (fun x => match x with pat => k end))
  (at level 61, pat pattern, m at next level, right associativity).

Definition pyerr_eqb (a b : pyerr) : bool :=
  match a, b with
  | KeyError, KeyError | ValueError, ValueError | TypeError, TypeError
  | AttributeError, AttributeError | ZeroDivisionError, ZeroDivisionError
  | JSONDecodeError, JSONDecodeError | Untyped, Untyped => true
  | _, _ => false
  end.

(** [try: m  except caught: handler]. *)
Definition try_except {A : Type} (m : exn A) (caught : list pyerr) (handler : exn A) : exn A :=
  match m with
  | Ok a => Ok a
  | Raise e => if existsb (pyerr_eqb e) caught then handler else Raise e
  end.

Infix "+++" := String.append (at level 60, right associativity).

(** *** Characters *)

Definition code (c : ascii) : nat := nat_of_ascii c.

Definition between (a b : nat) (c : ascii) : bool := (a <=? code c)%nat && (code c <=? b)%nat.

(** [A-Z], [a-z] and [0-9]. *)
Definition is_upper (c : ascii) : bool := between 65 90 c.
Definition is_lower (c : ascii) : bool := between 97 122 c.
Definition is_digit (c : ascii) : bool := between 48 57 c.

(** The code points from 128 to 255 that [str.isalnum] accepts: the two
    ordinal indicators, the micro sign, the superscript digits, the three
    fractions and the letters, which are all but the multiplication and
    the division sign from 192 on. *)
Definition is_alnum_above (c : ascii) : bool :=
  between 170 170 c || between 178 179 c || between 181 181 c || between 185 186 c
  || between 188 190 c || between 192 214 c || between 216 246 c || between 248 255 c.

(** [\w] of the [re] module for a [str] pattern: the alphanumeric
    characters and the underscore. *)
Definition is_word (c : ascii) : bool :=
  is_lower c || is_upper c || is_digit c || Ascii.eqb c "_" || is_alnum_above c.

(** [str.isspace], which is what [str.strip] removes: tab to carriage
    return, the four separators 28..31, the space, the next-line control
    133 and the no-break space 160. *)
Definition is_space (c : ascii) : bool :=
  between 9 13 c || between 28 32 c || between 133 133 c || between 160 160 c.

(** The characters [str.lower] changes: [A-Z] and the capital letters from
    192 to 222 without the multiplication sign, each to the character 32
    places on. *)
Definition has_lower (c : ascii) : bool :=
  is_upper c || between 192 214 c || between 216 222 c.

Definition lower_char (c : ascii) : ascii :=
  if has_lower c then ascii_of_nat (code c + 32) else c.

(** *** Strings *)

Fixpoint lower (s : string) : string :=
  match s with
  | EmptyString => EmptyString
  | String c s' => String (lower_char c) (lower s')
  end.

(** [s.replace(c, r)] for a pattern of one character. *)
Fixpoint replace (c : ascii) (r : string) (s : string) : string :=
  match s with
  | EmptyString => EmptyString
  | String a s' => if Ascii.eqb a c then r +++ replace c r s' else String a (replace c r s')
  end.

(** [s.startswith(p)]. *)
Fixpoint startswith (s p : string) {struct p} : bool :=
  match p with
  | EmptyString => true
  | String b p' =>
      match s with
      | EmptyString => false
      | String a s' => Ascii.eqb a b && startswith s' p'
      end
  end.

(** [needle in hay]. *)
Fixpoint contains (needle hay : string) : bool :=
  startswith hay needle
  || match hay with
     | EmptyString => false
     | String _ hay' => contains needle hay'
     end.

(** [s[n:]] and [s[:n]] for [n >= 0]. *)
Fixpoint drop (n : nat) (s : string) : string :=
  match n, s with
  | O, _ => s
  | S _, EmptyString => EmptyString
  | S k, String _ s' => drop k s'
  end.

Fixpoint take (n : nat) (s : string) : string :=
  match n, s with
  | O, _ => EmptyString
  | S _, EmptyString => EmptyString
  | S k, String a s' => String a (take k s')
  end.

(** [sep.join(l)]. *)
Fixpoint join (sep : string) (l : list string) : string :=
  match l with
  | [] => EmptyString
  | [x] => x
  | x :: l' => x +++ sep +++ join sep l'
  end.

(** The text before and after the first occurrence of [sep]. *)
Fixpoint split_first (sep s : string) : option (string * string) :=
  if startswith s sep then Some (EmptyString, drop (String.length sep) s)
  else match s with
       | EmptyString => None
       | String a s' =>
           match split_first sep s' with
           | Some (l, r) => Some (String a l, r)
           | None => None
           end
       end.

(** [s.split(sep, maxsplit)] for a non-empty [sep]. *)
Fixpoint split_n (sep : string) (maxsplit : nat) (s : string) : list string :=
  match maxsplit with
  | O => [s]
  | S k =>
      match split_first sep s with
      | None => [s]
      | Some (l, r) => l :: split_n sep k r
      end
  end.

(** [s.split(sep)]: a string has at most [len(s)] separators. *)
Definition split (sep s : string) : list string := split_n sep (String.length s) s.

Fixpoint lstrip (p : ascii -> bool) (s : string) : string :=
  match s with
  | EmptyString => EmptyString
  | String a s' => if p a then lstrip p s' else s
  end.

Fixpoint rstrip (p : ascii -> bool) (s : string) : string :=
  match s with
  | EmptyString => EmptyString
  | String a s' =>
      match rstrip p s' with
      | EmptyString => if p a then EmptyString else String a EmptyString
      | r => String a r
      end
  end.

(** [s.strip()] and [s.strip(chars)]. *)
Definition strip_with (p : ascii -> bool) (s : string) : string := rstrip p (lstrip p s).
Definition strip (s : string) : string := strip_with is_space s.

(** Every character of a string is of a class. *)
Fixpoint all_chars (p : ascii -> bool) (s : string) : bool :=
  match s with
  | EmptyString => true
  | String a s' => p a && all_chars p s'
  end.

(** [s.find(c)] for one character: [None] is Python's [-1]. *)
Fixpoint find (c : ascii) (s : string) : option nat :=
  match s with
  | EmptyString => None
  | String a s' =>
      if Ascii.eqb a c then Some O
      else match find c s' with
           | Some i => Some (S i)
           | None => None
           end
  end.

(** *** Sets of strings *)

Definition mem (x : string) (l : list string) : bool := existsb (String.eqb x) l.

(** [set(l)]: the elements of [l], each once. *)
Definition py_set (l : list string) : list string :=
  fold_left (fun seen x => if mem x seen then seen else seen ++ [x]) l [].

(** [a & b]; it is only ever measured with [len]. *)
Definition set_inter (a b : list string) : list string := filter (fun x => mem x b) a.

(** *** Sorting: [sorted] and [list.sort] are stable *)

Section StableSort.
Variable A : Type.
(** [before x y]: [x] may stay in front of [y]. *)
Variable before : A -> A -> bool.

Fixpoint insert_sorted (x : A) (l : list A) : list A :=
  match l with
  | [] => [x]
  | y :: l' => if before x y then x :: l else y :: insert_sorted x l'
  end.

Definition stable_sort (l : list A) : list A := fold_right insert_sorted [] l.
End StableSort.

(** [l[:n]]; a negative [n] counts from the end. *)
Definition slice_to {A : Type} (n : Z) (l : list A) : list A :=
  if (0 <=? n)%Z then firstn (Z.to_nat n) l
  else firstn (List.length l - Z.to_nat (- n)) l.

(** *** Numbers *)

(** The thousandth nearest to [x], a tie to the even one. *)
Definition round3 (x : Q) : Q :=
  let m := (x * 1000)%Q in
  let f := Qfloor m in
  let r := (m - inject_Z f)%Q in
  let up :=
    match r ?= (1 # 2) with
    | Lt => false
    | Gt => true
    | Eq => Z.odd f
    end in
  ((if up then f + 1 else f)%Z # 1000).

(** The integer nearest to [x], a tie to the even one. *)
Definition round_half_even (x : Q) : Z :=
  let f := Qfloor x in
  match Qcompare (x - inject_Z f)%Q (1 # 2)%Q with
  | Lt => f
  | Gt => (f + 1)%Z
  | Eq => if Z.odd f then (f + 1)%Z else f
  end.

(** The exponent [e] of a positive rational: [2^e <= x < 2^(e+1)]. *)
Definition exponent (x : Q) : Z :=
  let c := (Z.log2 (Qnum x) - Z.log2 (Zpos (Qden x)))%Z in
  if Qle_bool (Qpower (2 # 1) c) x then c else (c - 1)%Z.

(** The double nearest to a rational, a tie to the one with the even
    significand: 53 bits from the exponent of the number down, the
    exponent not below -1022.  The magnitudes met here stay far below
    [2^1024], where the doubles end. *)
Definition binary64 (x : Q) : Q :=
  match Qnum x with
  | Z0 => (0 # 1)%Q
  | _ =>
      let a := Qabs x in
      let e := Z.max (exponent a) (-1022) in
      let ulp := Qpower (2 # 1) (e - 52) in
      let n := inject_Z (round_half_even (a / ulp)) in
      Qred (if Qle_bool (0 # 1) x then n * ulp else - (n * ulp))%Q
  end.

(** [round(x, 3)] for a float: the double nearest to the thousandth. *)
Definition py_round3 (x : Q) : Q := binary64 (round3 x).

(** What [binary64] moves a number below 4 by, at most: [2^-52]. *)
Definition rounding_error : Q := 1 # 4503599627370496.

(** [a / b] on floats, in exact arithmetic. *)
Definition py_div (a b : Q) : exn Q :=
  if Qeq_bool b 0 then Raise ZeroDivisionError else Ok (a / b).

(** [a / b] in an arithmetic that rounds with [fl]. *)
Definition py_div_in (fl : Q -> Q) (a b : Q) : exn Q :=
  if Qeq_bool b 0 then Raise ZeroDivisionError else Ok (fl (a / b)).

(** [min(a, b)]: the first of the smallest. *)
Definition py_min (a b : Q) : Q := if Qlt_le_dec b a then b else a.

(** An [int] used as a [float]; the integers here are lengths. *)
Definition of_int (n : nat) : Q := inject_Z (Z.of_nat n).

(** *** [re.findall(r'\b[a-z]{n,}\b', text)]

    A match starts at a word boundary, takes lower-case letters greedily and
    must end at a word boundary; giving letters back never produces a
    boundary, so the matches are the maximal runs of word characters that
    consist of at least [n] lower-case letters and of nothing else.  The
    scanner walks the text once and keeps the state of the current run. *)

Inductive run_state : Set :=
| Outside                    (* not in a run of word characters *)
| Candidate (acc : string)   (* in a run of lower-case letters, reversed *)
| Spoiled.                   (* in a run with another word character *)

Definition extend (st : run_state) (c : ascii) : run_state :=
  match st with
  | Outside => if is_lower c then Candidate (String c EmptyString) else Spoiled
  | Candidate acc => if is_lower c then Candidate (String c acc) else Spoiled
  | Spoiled => Spoiled
  end.

Fixpoint rev_string (acc s : string) : string :=
  match s with
  | EmptyString => acc
  | String a s' => rev_string (String a acc) s'
  end.

Definition emit (n : nat) (st : run_state) : list string :=
  match st with
  | Candidate acc => if (n <=? String.length acc)%nat then [rev_string EmptyString acc] else []
  | _ => []
  end.

Fixpoint scan (n : nat) (st : run_state) (s : string) : list string :=
  match s with
  | EmptyString => emit n st
  | String c s' =>
      if is_word c then scan n (extend st c) s'
      else emit n st ++ scan n Outside s'
  end.

Definition findall_lower (n : nat) (text : string) : list string := scan n Outside text.

End Py.

Import Py.
Open Scope string_scope.
Open Scope list_scope.
Open Scope Q_scope.

(** ** JSON documents and texts *)

Module Json.

(** What [json.loads] returns.  The program reads no number, so integers
    stand for all of them. *)
#[warnings="-register-all"] Inductive json : Set :=
| JNull
| JBool (b : bool)
| JNum (n : Z)
| JStr (s : string)
| JArr (l : list json)
| JObj (m : list (string * json)).   (* a dict: its items, keys distinct *)

(** A text as the program can observe it: a JSON document is the value
    [json.loads] returns for it, any other text is its characters and
    makes [json.loads] raise [JSONDecodeError].  A JSON document is not
    empty and does not start with three hyphens. *)
Inductive text : Set :=
| Plain (s : string)
| Doc (j : json).

Definition json_loads (t : text) : exn json :=
  match t with
  | Plain _ => Raise JSONDecodeError
  | Doc j => Ok j
  end.

(** [json.dumps(j, indent=2)]. *)
Definition json_dumps (j : json) : text := Doc j.

(** [not content] for an optional text. *)
Definition falsy (content : option text) : bool :=
  match content with
  | None => true
  | Some (Plain EmptyString) => true
  | Some _ => false
  end.

Fixpoint assoc (k : string) (m : list (string * json)) : option json :=
  match m with
  | [] => None
  | (k', v) :: m' => if String.eqb k k' then Some v else assoc k m'
  end.

(** [d.get(key, default)]; only a dict has the method. *)
Definition dict_get (d : json) (key : string) (default : json) : exn json :=
  match d with
  | JObj m => Ok (match assoc key m with Some v => v | None => default end)
  | _ => Raise AttributeError
  end.

(** [item[key]] for a string key. *)
Definition getitem (item : json) (key : string) : exn json :=
  match item with
  | JObj m => match assoc key m with Some v => Ok v | None => Raise KeyError end
  | _ => Raise TypeError
  end.

Fixpoint chars (s : string) : list json :=
  match s with
  | EmptyString => []
  | String a s' => JStr (String a EmptyString) :: chars s'
  end.

(** [for x in v]: a list yields its elements, a dict its keys, a string
    its characters; nothing else iterates. *)
Definition iterate (v : json) : exn (list json) :=
  match v with
  | JArr l => Ok l
  | JObj m => Ok (map (fun kv => JStr (fst kv)) m)
  | JStr s => Ok (chars s)
  | _ => Raise TypeError
  end.

(** A value where the dataclass annotates [str]. *)
Definition as_str (v : json) : exn string :=
  match v with
  | JStr s => Ok s
  | _ => Raise Untyped
  end.

Fixpoint as_strs (l : list json) : exn (list string) :=
  match l with
  | [] => Ok []
  | v :: l' => s <- as_str v ;; r <- as_strs l' ;; Ok (s :: r)
  end.

(** A value where the dataclass annotates [List[str]]; [None] becomes the
    empty list in [__post_init__]. *)
Definition as_keywords (v : json) : exn (list string) :=
  match v with
  | JNull => Ok []
  | JArr l => as_strs l
  | _ => Raise Untyped
  end.

End Json.

(** ** The [datetime] library

    [datetime.isoformat], [datetime.fromisoformat] and the difference of two
    datetimes.  The versions of the library do not read the same strings:
    up to 3.10 the parser reads what [isoformat] emits,
    [YYYY-MM-DD[*HH[:MM[:SS[.fff[fff]]]][+HH:MM[:SS[.ffffff]]]]], from 3.11
    on most of ISO 8601.  [fromisoformat] below fixes what they have in
    common and leaves the rest to a parameter.  Every failure of the parser
    is a [ValueError]. *)

Module Datetime.

Record datetime : Set := {
  year : Z; month : Z; day : Z;
  hour : Z; minute : Z; second : Z; microsecond : Z;
  utcoffset : option Z   (* microseconds east of UTC; [None] for a naive value *)
}.

Definition digit_char (n : Z) : ascii := ascii_of_nat (48 + Z.to_nat (n mod 10)).

(** [%0wd] of a field within its range: its [w] decimal digits. *)
Fixpoint fmt (w : nat) (n : Z) : string :=
  match w with
  | O => EmptyString
  | S k => fmt k (n / 10) +++ String (digit_char n) EmptyString
  end.

Definition _format_time (hh mm ss us : Z) : string :=
  fmt 2 hh +++ ":" +++ fmt 2 mm +++ ":" +++ fmt 2 ss
  +++ (if us =? 0 then EmptyString else "." +++ fmt 6 us)%Z.

Definition hour_us : Z := 3600000000.
Definition minute_us : Z := 60000000.
Definition second_us : Z := 1000000.

Definition _format_offset (off : option Z) : string :=
  match off with
  | None => EmptyString
  | Some off =>
      let sign := if (off <? 0)%Z then "-" else "+" in
      let off := Z.abs off in
      let hh := (off / hour_us)%Z in
      let mm := ((off mod hour_us) / minute_us)%Z in
      let ss := ((off mod hour_us) mod minute_us)%Z in
      sign +++ fmt 2 hh +++ ":" +++ fmt 2 mm
      +++ (if (ss =? 0)%Z then EmptyString
           else ":" +++ fmt 2 (ss / second_us)
                +++ (if (ss mod second_us =? 0)%Z then EmptyString
                     else "." +++ fmt 6 (ss mod second_us)))
  end.

Definition isoformat (t : datetime) : string :=
  fmt 4 (year t) +++ "-" +++ fmt 2 (month t) +++ "-" +++ fmt 2 (day t) +++ "T"
  +++ _format_time (hour t) (minute t) (second t) (microsecond t)
  +++ _format_offset (utcoffset t).

(** *** Parsing *)

Fixpoint parse_digits (acc : Z) (s : string) : option Z :=
  match s with
  | EmptyString => Some acc
  | String c s' =>
      if is_digit c then parse_digits (acc * 10 + Z.of_nat (code c - 48)) s' else None
  end.

(** [int(s)] for a field of [w] digits. *)
Definition int_field (w : nat) (s : string) : option Z :=
  if (String.length s =? w)%nat then parse_digits 0 s else None.

Definition slice (a b : nat) (s : string) : string := take (b - a) (drop a s).

Definition char_is (i : nat) (c : ascii) (s : string) : bool :=
  match String.get i s with
  | Some a => Ascii.eqb a c
  | None => false
  end.

Definition _parse_isoformat_date (dtstr : string) : option (Z * Z * Z) :=
  match int_field 4 (slice 0 4 dtstr) with
  | None => None
  | Some y =>
      if negb (char_is 4 "-" dtstr) then None
      else match int_field 2 (slice 5 7 dtstr) with
           | None => None
           | Some m =>
               if negb (char_is 7 "-" dtstr) then None
               else match int_field 2 (slice 8 10 dtstr) with
                    | None => None
                    | Some d => Some (y, m, d)
                    end
           end
  end.

(** The fraction after the seconds: nothing, or a point and three or six
    digits. *)
Definition parse_fraction (s : string) : option Z :=
  match s with
  | EmptyString => Some 0%Z
  | String "." f =>
      match String.length f with
      | 3%nat => option_map (fun n => (n * 1000)%Z) (int_field 3 f)
      | 6%nat => int_field 6 f
      | _ => None
      end
  | String _ _ => None
  end.

(** [HH[:MM[:SS[.fff[fff]]]]]: the loop over the three components, unrolled. *)
Definition _parse_hh_mm_ss_ff (tstr : string) : option (Z * Z * Z * Z) :=
  match int_field 2 (slice 0 2 tstr) with
  | None => None
  | Some hh =>
      match drop 2 tstr with
      | EmptyString => Some (hh, 0, 0, 0)%Z
      | String ":" r1 =>
          match int_field 2 (slice 0 2 r1) with
          | None => None
          | Some mm =>
              match drop 2 r1 with
              | EmptyString => Some (hh, mm, 0, 0)%Z
              | String ":" r2 =>
                  match int_field 2 (slice 0 2 r2) with
                  | None => None
                  | Some ss =>
                      match parse_fraction (drop 2 r2) with
                      | None => None
                      | Some us => Some (hh, mm, ss, us)
                      end
                  end
              | String _ _ => None
              end
          end
      | String _ _ => None
      end
  end.

(** [tstr.find('-') + 1 or tstr.find('+') + 1]; [0] when there is no sign. *)
Definition tz_position (tstr : string) : nat :=
  match find "-" tstr with
  | Some i => S i
  | None => match find "+" tstr with
            | Some i => S i
            | None => O
            end
  end.

Definition day_us : Z := 86400000000.

Definition _parse_isoformat_time (tstr : string) : option (Z * Z * Z * Z * option Z) :=
  if (String.length tstr <? 2)%nat then None
  else
    let tz_pos := tz_position tstr in
    let timestr := if (0 <? tz_pos)%nat then take (tz_pos - 1) tstr else tstr in
    match _parse_hh_mm_ss_ff timestr with
    | None => None
    | Some (hh, mm, ss, us) =>
        if (0 <? tz_pos)%nat then
          let tzstr := drop tz_pos tstr in
          let n := String.length tzstr in
          if negb ((n =? 5)%nat || (n =? 8)%nat || (n =? 15)%nat) then None
          else match _parse_hh_mm_ss_ff tzstr with
               | None => None
               | Some (th, tm, ts, tu) =>
                   let td := (th * hour_us + tm * minute_us + ts * second_us + tu)%Z in
                   let tzsign := if char_is (tz_pos - 1) "-" tstr then (-1)%Z else 1%Z in
                   let off := (tzsign * td)%Z in
                   (* [timezone(offset)] wants the offset within a day *)
                   if ((- day_us <? off) && (off <? day_us))%Z
                   then Some (hh, mm, ss, us, Some off)
                   else None
               end
        else Some (hh, mm, ss, us, None)
    end.

Definition _is_leap (y : Z) : bool :=
  ((y mod 4 =? 0) && (negb (y mod 100 =? 0) || (y mod 400 =? 0)))%Z.

Definition _days_in_month (y m : Z) : Z :=
  if ((m =? 2) && _is_leap y)%Z then 29%Z
  else nth (Z.to_nat m) [0; 31; 28; 31; 30; 31; 30; 31; 31; 30; 31; 30; 31]%Z 0%Z.

Definition _days_before_year (y : Z) : Z :=
  let y := (y - 1)%Z in (y * 365 + y / 4 - y / 100 + y / 400)%Z.

Definition _days_before_month (y m : Z) : Z :=
  (nth (Z.to_nat m) [0; 0; 31; 59; 90; 120; 151; 181; 212; 243; 273; 304; 334] 0
   + (if (2 <? m) && _is_leap y then 1 else 0))%Z.

Definition _ymd2ord (y m d : Z) : Z :=
  (_days_before_year y + _days_before_month y m + d)%Z.

(** The checks of the constructor. *)
Definition fields_ok (t : datetime) : bool :=
  ((1 <=? year t) && (year t <=? 9999)
   && (1 <=? month t) && (month t <=? 12)
   && (1 <=? day t) && (day t <=? _days_in_month (year t) (month t))
   && (0 <=? hour t) && (hour t <=? 23)
   && (0 <=? minute t) && (minute t <=? 59)
   && (0 <=? second t) && (second t <=? 59)
   && (0 <=? microsecond t) && (microsecond t <=? 999999))%Z.

(** The parser of the library up to version 3.10:
    [YYYY-MM-DD[*HH[:MM[:SS[.fff[fff]]]][+HH:MM[:SS[.ffffff]]]]]. *)
Definition fromisoformat_3_10 (date_string : string) : option datetime :=
  let dstr := slice 0 10 date_string in
  let tstr := drop 11 date_string in
  match _parse_isoformat_date dstr with
  | None => None
  | Some (y, m, d) =>
      let time_components :=
        match tstr with
        | EmptyString => Some (0, 0, 0, 0, None)%Z
        | _ => _parse_isoformat_time tstr
        end in
      match time_components with
      | None => None
      | Some (hh, mm, ss, us, tz) =>
          let t := {| year := y; month := m; day := d;
                      hour := hh; minute := mm; second := ss; microsecond := us;
                      utcoffset := tz |} in
          if fields_ok t then Some t else None
      end
  end.

(** The length of what follows the sign of the offset; [0] without a sign. *)
Definition offset_length (date_string : string) : nat :=
  let tstr := drop 11 date_string in
  match tz_position tstr with
  | O => O
  | tz_pos => String.length (drop tz_pos tstr)
  end.

(** The strings that every version reads, and to the same value: those of
    the 3.10 grammar, but for a date with a separator and no time (eleven
    characters, refused from 3.11 on) and for an offset with a fraction of a
    second (dropped by 3.11 when the offset has no whole second). *)
Definition common_format (date_string : string) : option datetime :=
  if (String.length date_string =? 11)%nat || (offset_length date_string =? 15)%nat
  then None
  else fromisoformat_3_10 date_string.

Definition is_sign (c : ascii) : bool := Ascii.eqb c "+" || Ascii.eqb c "-".

Definition time_char (c : ascii) : bool := is_digit c || Ascii.eqb c ":" || Ascii.eqb c ".".

Fixpoint first_sign (s : string) : option nat :=
  match s with
  | EmptyString => None
  | String a s' => if is_sign a then Some O else option_map S (first_sign s')
  end.

Definition char_in (i : nat) (p : ascii -> bool) (s : string) : bool :=
  match String.get i s with
  | Some a => p a
  | None => false
  end.

(** [dddd-dd-dd]. *)
Definition date_shape (dstr : string) : bool :=
  (String.length dstr =? 10)%nat
  && all_chars is_digit (slice 0 4 dstr) && char_is 4 "-" dstr
  && all_chars is_digit (slice 5 7 dstr) && char_is 7 "-" dstr
  && all_chars is_digit (slice 8 10 dstr).

(** A date, a separator, digits, colons and points up to a first sign, and
    after that sign [dd:dd] and a second sign: a time with two offsets. No
    version of the library reads such a string. *)
Definition two_offsets (date_string : string) : bool :=
  let tstr := drop 11 date_string in
  date_shape (slice 0 10 date_string)
  && match first_sign tstr with
     | None => false
     | Some i =>
         let tzstr := drop (S i) tstr in
         all_chars time_char (take i tstr)
         && char_in 0 is_digit tzstr && char_in 1 is_digit tzstr
         && char_is 2 ":" tzstr
         && char_in 3 is_digit tzstr && char_in 4 is_digit tzstr
         && char_in 5 is_sign tzstr
     end.

(** [datetime.fromisoformat]. What the installed library makes of a string
    that is neither in the common format nor a time with two offsets is the
    parameter [other]: [None] where it raises [ValueError]. *)
Definition fromisoformat (other : string -> option datetime) (date_string : string)
  : exn datetime :=
  if two_offsets date_string then Raise ValueError
  else match common_format date_string with
       | Some t => Ok t
       | None => match other date_string with
                 | Some t => Ok t
                 | None => Raise ValueError
                 end
       end.

(** [(a - b).total_seconds()], in microseconds; mixing a naive and an aware
    value is a [TypeError]. *)
Definition sub_us (a b : datetime) : exn Z :=
  let days := (_ymd2ord (year a) (month a) (day a) - _ymd2ord (year b) (month b) (day b))%Z in
  let secs := ((second a + minute a * 60 + hour a * 3600)
               - (second b + minute b * 60 + hour b * 3600))%Z in
  let base := (days * day_us + secs * second_us + (microsecond a - microsecond b))%Z in
  match utcoffset a, utcoffset b with
  | None, None => Ok base
  | Some myoff, Some otoff => Ok (base + otoff - myoff)%Z
  | _, _ => Raise TypeError
  end.

(** [datetime.now(timezone.utc)] for a reading [c] of the clock. *)
Definition now_utc (c : datetime) : datetime :=
  {| year := year c; month := month c; day := day c;
     hour := hour c; minute := minute c; second := second c;
     microsecond := microsecond c; utcoffset := Some 0%Z |}.

End Datetime.

(** ** external_registry.py *)

Module external_registry.

(** The dataclass [RemoteSkill]. *)
Record RemoteSkill : Set := {
  name : string;
  description : string;
  source : string;
  url : string;
  category : string;
  keywords : list string;
  readme_url : string;
  skill_md_url : string
}.

(** *** [_extract_keywords] *)

Definition stopwords : list string :=
  [ "the"; "a"; "an"; "is"; "are"; "was"; "were"; "be"; "been";
    "have"; "has"; "had"; "do"; "does"; "did"; "will"; "would";
    "to"; "of"; "in"; "for"; "on"; "with"; "at"; "by"; "from";
    "and"; "but"; "if"; "or"; "this"; "that"; "use"; "using";
    "claude"; "skill"; "skills"; "can"; "your"; "you" ].

(** The [for word in words] loop with its [break]. *)
Fixpoint extract_loop (words keywords seen : list string) : list string :=
  match words with
  | [] => keywords
  | word :: rest =>
      if negb (mem word stopwords) && negb (mem word seen) then
        let seen' := word :: seen in
        let keywords' := keywords ++ [word] in
        if (15 <=? List.length keywords')%nat then keywords'
        else extract_loop rest keywords' seen'
      else extract_loop rest keywords seen
  end.

Definition _extract_keywords (text : string) : list string :=
  let words := findall_lower 3 (lower text) in
  extract_loop words [] [].

(** *** [_categorize] *)

(** The dict literal [categories]; a dict iterates in insertion order. *)
Definition categories : list (string * list string) :=
  [ ("document-processing", ["docx"; "pdf"; "pptx"; "xlsx"; "document"; "spreadsheet"; "word"; "excel"]);
    ("development", ["code"; "git"; "debug"; "test"; "build"; "deploy"; "api"; "mcp"; "plugin"]);
    ("data-analysis", ["data"; "csv"; "analyze"; "chart"; "visualization"; "query"; "database"]);
    ("creative", ["design"; "image"; "art"; "canvas"; "gif"; "video"; "theme"; "brand"]);
    ("communication", ["email"; "slack"; "meeting"; "write"; "content"; "comms"]);
    ("productivity", ["organize"; "file"; "invoice"; "calendar"; "task"; "workflow"; "automate"]);
    ("research", ["research"; "search"; "web"; "scrape"; "extract"]);
    ("security", ["security"; "forensic"; "threat"; "vulnerability"; "audit"]) ].

Fixpoint categorize_loop (text : string) (cats : list (string * list string)) : string :=
  match cats with
  | [] => "general"
  | (category, kws) :: rest =>
      if existsb (fun kw => contains kw text) kws then category
      else categorize_loop text rest
  end.

Definition _categorize (name description : string) : string :=
  let text := lower (name +++ " " +++ description) in
  categorize_loop text categories.

(** The category set of the data model. *)
Definition category_set : list string :=
  [ "document-processing"; "development"; "data-analysis"; "creative";
    "communication"; "productivity"; "research"; "security"; "general" ].

(** *** [_calculate_score] *)

(** [skill.name.lower().replace('-', ' ')]. *)
Definition normalized_name (skill : RemoteSkill) : string :=
  replace "-" " " (lower (name skill)).

Definition _calculate_score (query_tokens : list string) (skill : RemoteSkill) : exn Q :=
  let name_tokens := py_set (findall_lower 2 (normalized_name skill)) in
  let desc_tokens := py_set (findall_lower 2 (lower (description skill))) in
  let keyword_set := py_set (keywords skill) in
  let name_overlap := List.length (set_inter query_tokens name_tokens) in
  let desc_overlap := List.length (set_inter query_tokens desc_tokens) in
  let keyword_overlap := List.length (set_inter query_tokens keyword_set) in
  n <- py_div (of_int name_overlap) (of_int (Nat.max (List.length name_tokens) 1)) ;;
  let name_score := n * 1 in
  d <- py_div (of_int desc_overlap) (of_int (Nat.max (List.length query_tokens) 1)) ;;
  let desc_score := d * (7 # 10) in
  k <- py_div (of_int keyword_overlap) (of_int (Nat.max (List.length query_tokens) 1)) ;;
  let keyword_score := k * (1 # 2) in
  let query_str := join " " query_tokens in
  let name_score :=
    if String.eqb (normalized_name skill) query_str || contains (lower (name skill)) query_str
    then 1 else name_score in
  let total := name_score + desc_score + keyword_score in
  t <- py_div total (22 # 10) ;;
  Ok (py_min t 1).

(** The same function in an arithmetic that rounds with [fl] after every
    operation and at every literal that is not an integer; the lengths and
    [1.0] need no rounding.  With the identity for [fl] this is
    [_calculate_score], the function in exact arithmetic; with [binary64] it
    is the function on the doubles of the machine, on which [search]
    compares with the threshold and rounds. *)
Definition _calculate_score_in (fl : Q -> Q) (query_tokens : list string) (skill : RemoteSkill)
  : exn Q :=
  let name_tokens := py_set (findall_lower 2 (normalized_name skill)) in
  let desc_tokens := py_set (findall_lower 2 (lower (description skill))) in
  let keyword_set := py_set (keywords skill) in
  let name_overlap := List.length (set_inter query_tokens name_tokens) in
  let desc_overlap := List.length (set_inter query_tokens desc_tokens) in
  let keyword_overlap := List.length (set_inter query_tokens keyword_set) in
  n <- py_div_in fl (of_int name_overlap) (of_int (Nat.max (List.length name_tokens) 1)) ;;
  let name_score := fl (n * 1) in
  d <- py_div_in fl (of_int desc_overlap) (of_int (Nat.max (List.length query_tokens) 1)) ;;
  let desc_score := fl (d * fl (7 # 10)) in
  k <- py_div_in fl (of_int keyword_overlap) (of_int (Nat.max (List.length query_tokens) 1)) ;;
  let keyword_score := fl (k * fl (1 # 2)) in
  let query_str := join " " query_tokens in
  let name_score :=
    if String.eqb (normalized_name skill) query_str || contains (lower (name skill)) query_str
    then 1 else name_score in
  let total := fl (fl (name_score + desc_score) + keyword_score) in
  t <- py_div_in fl total (fl (22 # 10)) ;;
  Ok (py_min t 1).

Definition _calculate_score_double : list string -> RemoteSkill -> exn Q :=
  _calculate_score_in binary64.

(** The default of [threshold]: the literal [0.1]. *)
Definition default_threshold : Q := binary64 (1 # 10).

(** *** Registries, the world outside and the registry object *)

(** A registry dict.  [branch] and [priority] are the two keys the code
    reads with a default. *)
Record Registry : Set := {
  reg_name : string;
  reg_type : string;
  reg_owner : string;
  reg_repo : string;
  reg_branch : option string;
  reg_url : string;
  reg_priority : option Z
}.

Definition KNOWN_REGISTRIES : list Registry :=
  [ {| reg_name := "awesome-claude-skills"; reg_type := "github";
       reg_owner := "ComposioHQ"; reg_repo := "awesome-claude-skills";
       reg_branch := Some "master";
       reg_url := "https://github.com/ComposioHQ/awesome-claude-skills";
       reg_priority := Some 1%Z |};
    {| reg_name := "anthropic-skills"; reg_type := "github";
       reg_owner := "anthropics"; reg_repo := "skills";
       reg_branch := Some "main";
       reg_url := "https://github.com/anthropics/skills";
       reg_priority := Some 2%Z |} ].

(** The cache directory [self.cache_dir]: not made yet, or there, with or
    without the file [external_index.json] in it. *)
Inductive CacheDir : Type :=
| NoDirectory
| Directory (file : option Json.text).

(** What the program reads from outside, and the directory and the file it
    writes. *)
Record World : Type := {
  clock : Datetime.datetime;          (* the reading of the clock *)
  cache_dir : CacheDir;               (* self.cache_dir and what it holds *)
  bundled_files : list (option Json.text);   (* the candidate paths, in order *)
  fetch : string -> option Json.text; (* _fetch_url: [None] on a failed request *)
  other_formats : string -> option Datetime.datetime
    (* the installed [datetime] on a stamp outside the common format *)
}.

(** [self.cache_file], when it exists. *)
Definition cache_file (w : World) : option Json.text :=
  match cache_dir w with
  | Directory file => file
  | NoDirectory => None
  end.

(** [self.cache_dir.mkdir(parents=True, exist_ok=True)].  The embedding
    follows the runs in which the file system lets the directory be made and
    the files be opened. *)
Definition _ensure_cache_dir (w : World) : World :=
  match cache_dir w with
  | Directory _ => w
  | NoDirectory =>
      {| clock := clock w;
         cache_dir := Directory None;
         bundled_files := bundled_files w;
         fetch := fetch w;
         other_formats := other_formats w |}
  end.

(** The dict [self.skills], in insertion order. *)
Definition index : Set := list (string * RemoteSkill).

Fixpoint dict_set (k : string) (v : RemoteSkill) (d : index) : index :=
  match d with
  | [] => [(k, v)]
  | (k', v') :: d' => if String.eqb k k' then (k, v) :: d' else (k', v') :: dict_set k v d'
  end.

Fixpoint dict_lookup (k : string) (d : index) : option RemoteSkill :=
  match d with
  | [] => None
  | (k', v) :: d' => if String.eqb k k' then Some v else dict_lookup k d'
  end.

Definition dict_has (k : string) (d : index) : bool :=
  match dict_lookup k d with Some _ => true | None => false end.

Definition values (d : index) : list RemoteSkill := map snd d.

Record ExternalRegistry : Set := {
  skills : index;
  registries : list Registry;
  _index_loaded : bool
}.

(** [ExternalRegistry()]. *)
Definition __init__ : ExternalRegistry :=
  {| skills := []; registries := KNOWN_REGISTRIES; _index_loaded := false |}.

(** *** [_parse_github_tree] *)

Definition json_is_str (v : Json.json) (s : string) : bool :=
  match v with
  | Json.JStr s' => String.eqb s' s
  | _ => false
  end.

(** [v.startswith(p)]; only a string has the method. *)
Definition startswith_method (v : Json.json) (p : string) : exn bool :=
  match v with
  | Json.JStr s => Ok (startswith s p)
  | _ => Raise AttributeError
  end.

(** The comprehension
    [[item["name"] for item in items
      if item["type"] == "dir" and not item["name"].startswith(".")]]. *)
Fixpoint tree_dirs (items : list Json.json) : exn (list string) :=
  match items with
  | [] => Ok []
  | item :: rest =>
      ty <- Json.getitem item "type" ;;
      keep <- (if json_is_str ty "dir"
               then (n <- Json.getitem item "name" ;;
                     b <- startswith_method n "." ;;
                     Ok (negb b))
               else Ok false) ;;
      if keep : bool
      then (n <- Json.getitem item "name" ;;
            dir <- Json.as_str n ;;
            r <- tree_dirs rest ;;
            Ok (dir :: r))
      else tree_dirs rest
  end.

Definition _parse_github_tree (w : World) (owner repo branch : string) : exn (list string) :=
  let api_url :=
    "https://api.github.com/repos/" +++ owner +++ "/" +++ repo +++ "/contents?ref=" +++ branch in
  let content := fetch w api_url in
  if Json.falsy content then Ok []
  else match content with
       | None => Ok []
       | Some t =>
           try_except
             (items <- Json.json_loads t ;;
              l <- Json.iterate items ;;
              tree_dirs l)
             [JSONDecodeError; KeyError]
             (Ok [])
       end.

Definition skill_md_location (owner repo branch skill_name : string) : string :=
  "https://raw.githubusercontent.com/" +++ owner +++ "/" +++ repo +++ "/" +++ branch
  +++ "/" +++ skill_name +++ "/SKILL.md".

Definition _fetch_skill_md (w : World) (owner repo skill_name branch : string) : option Json.text :=
  fetch w (skill_md_location owner repo branch skill_name).

(** *** [_parse_skill_frontmatter] *)

Definition newline : string := String (ascii_of_nat 10) EmptyString.
Definition is_double_quote (c : ascii) : bool := Ascii.eqb c (ascii_of_nat 34).
Definition is_single_quote (c : ascii) : bool := Ascii.eqb c "'".

(** The loop over the lines of the front matter. *)
Fixpoint frontmatter_lines (lines : list string) (name description : option string)
  : option string * option string :=
  match lines with
  | [] => (name, description)
  | line :: rest =>
      if contains ":" line then
        match split_n ":" 1 line with
        | [key; value] =>
            let key := lower (strip key) in
            let value := strip_with is_single_quote (strip_with is_double_quote (strip value)) in
            if String.eqb key "name" then frontmatter_lines rest (Some value) description
            else if String.eqb key "description" then frontmatter_lines rest name (Some value)
            else frontmatter_lines rest name description
        | _ => frontmatter_lines rest name description
        end
      else frontmatter_lines rest name description
  end.

Definition _parse_skill_frontmatter (content : Json.text) : option string * option string :=
  match content with
  | Json.Doc _ => (None, None)
  | Json.Plain content =>
      if negb (startswith content "---") then (None, None)
      else
        let parts := split_n "---" 2 content in
        if (List.length parts <? 3)%nat then (None, None)
        else
          let frontmatter := strip (nth 1 parts EmptyString) in
          frontmatter_lines (split newline frontmatter) None None
  end.

(** *** [_index_github_registry] *)

Definition denylist : list string := ["docs"; "examples"; "tests"; ".github"; "scripts"; "assets"].

(** [description or default]. *)
Definition or_default (description : option string) (default : string) : string :=
  match description with
  | Some EmptyString | None => default
  | Some d => d
  end.

(** The record the loop builds for a manifest with a name. *)
Definition make_skill (registry : Registry) (branch dir_name name : string)
           (description : option string) : RemoteSkill :=
  {| name := name;
     description := or_default description ("Skill from " +++ reg_name registry);
     source := reg_name registry;
     url := reg_url registry +++ "/tree/" +++ branch +++ "/" +++ dir_name;
     category := _categorize name (or_default description EmptyString);
     keywords := _extract_keywords (name +++ " " +++ or_default description EmptyString);
     readme_url := EmptyString;
     skill_md_url := skill_md_location (reg_owner registry) (reg_repo registry) branch dir_name |}.

(** The loop over the directories; [indexed] counts the insertions. *)
Fixpoint index_directories (w : World) (registry : Registry) (branch : string)
         (directories : list string) (skills : index) (indexed : nat) : index * nat :=
  match directories with
  | [] => (skills, indexed)
  | dir_name :: rest =>
      if mem dir_name denylist then index_directories w registry branch rest skills indexed
      else
        let skill_content :=
          _fetch_skill_md w (reg_owner registry) (reg_repo registry) dir_name branch in
        match skill_content with
        | Some content =>
            if Json.falsy skill_content
            then index_directories w registry branch rest skills indexed
            else
              match _parse_skill_frontmatter content with
              | (Some (String a n as name), description) =>
                  let skill := make_skill registry branch dir_name name description in
                  if negb (dict_has name skills)
                  then index_directories w registry branch rest (dict_set name skill skills) (S indexed)
                  else index_directories w registry branch rest skills indexed
              | _ => index_directories w registry branch rest skills indexed
              end
        | None => index_directories w registry branch rest skills indexed
        end
  end.

Definition branch_of (registry : Registry) : string :=
  match reg_branch registry with Some b => b | None => "master" end.

Definition _index_github_registry (w : World) (registry : Registry) (skills : index)
  : exn (index * nat) :=
  let owner := reg_owner registry in
  let repo := reg_repo registry in
  let branch := branch_of registry in
  directories <- _parse_github_tree w owner repo branch ;;
  Ok (index_directories w registry branch directories skills 0).

(** *** [_load_bundled_index] *)

(** The loop over [index_data.get("skills", [])]. *)
Fixpoint bundled_items (items : list Json.json) (skills : index) : exn index :=
  match items with
  | [] => Ok skills
  | (Json.JObj _ as skill_data) :: rest =>
      n <- (v <- Json.dict_get skill_data "name" (Json.JStr EmptyString) ;; Json.as_str v) ;;
      d <- (v <- Json.dict_get skill_data "description" (Json.JStr EmptyString) ;; Json.as_str v) ;;
      s <- (v <- Json.dict_get skill_data "source" (Json.JStr "awesome-claude-skills") ;; Json.as_str v) ;;
      u <- (v <- Json.dict_get skill_data "url" (Json.JStr EmptyString) ;; Json.as_str v) ;;
      c <- (v <- Json.dict_get skill_data "category" (Json.JStr "general") ;; Json.as_str v) ;;
      k <- (v <- Json.dict_get skill_data "keywords" (Json.JArr []) ;; Json.as_keywords v) ;;
      m <- (v <- Json.dict_get skill_data "skill_md_url" (Json.JStr EmptyString) ;; Json.as_str v) ;;
      let skill :=
        {| name := n; description := d; source := s; url := u; category := c;
           keywords := k; readme_url := EmptyString; skill_md_url := m |} in
      bundled_items rest (dict_set (name skill) skill skills)
  | _ :: rest => bundled_items rest skills
  end.

(** The loop over [possible_paths]: [None] is a path that does not exist. *)
Fixpoint _load_bundled_index (possible_paths : list (option Json.text)) (skills : index)
  : exn (bool * index) :=
  match possible_paths with
  | [] => Ok (false, skills)
  | None :: rest => _load_bundled_index rest skills
  | Some t :: rest =>
      match Json.json_loads t with
      | Raise _ => _load_bundled_index rest skills
      | Ok index_data =>
          try_except
            (v <- Json.dict_get index_data "skills" (Json.JArr []) ;;
             items <- Json.iterate v ;;
             skills' <- bundled_items items skills ;;
             Ok (true, skills'))
            [JSONDecodeError; KeyError]
            (_load_bundled_index rest skills)
      end
  end.

(** *** [_save_cache] *)

(** [skill.to_dict()]. *)
Definition to_dict (skill : RemoteSkill) : Json.json :=
  Json.JObj
    [ ("name", Json.JStr (name skill));
      ("description", Json.JStr (description skill));
      ("source", Json.JStr (source skill));
      ("url", Json.JStr (url skill));
      ("category", Json.JStr (category skill));
      ("keywords", Json.JArr (map Json.JStr (keywords skill)));
      ("readme_url", Json.JStr (readme_url skill));
      ("skill_md_url", Json.JStr (skill_md_url skill)) ].

Definition cache_data (w : World) (skills : index) : Json.json :=
  Json.JObj
    [ ("version", Json.JStr "1.0");
      ("updated", Json.JStr (Datetime.isoformat (Datetime.now_utc (clock w)) +++ "Z"));
      ("skill_count", Json.JNum (Z.of_nat (List.length skills)));
      ("skills", Json.JArr (map to_dict (values skills))) ].

Definition _save_cache (w : World) (skills : index) : World :=
  {| clock := clock w;
     cache_dir := Directory (Some (Json.json_dumps (cache_data w skills)));
     bundled_files := bundled_files w;
     fetch := fetch w;
     other_formats := other_formats w |}.

(** The same world at another reading of the clock. *)
Definition at_time (c : Datetime.datetime) (w : World) : World :=
  {| clock := c;
     cache_dir := cache_dir w;
     bundled_files := bundled_files w;
     fetch := fetch w;
     other_formats := other_formats w |}.

(** *** [load_index] *)

Definition field_names : list string :=
  ["name"; "description"; "source"; "url"; "category"; "keywords"; "readme_url"; "skill_md_url"].

(** A keyword argument: [default] is [None] for a required field. *)
Definition kwarg (m : list (string * Json.json)) (key : string) (default : option Json.json)
  : exn Json.json :=
  match Json.assoc key m, default with
  | Some v, _ => Ok v
  | None, Some v => Ok v
  | None, None => Raise TypeError
  end.

(** [RemoteSkill] called with the members of [skill_data] as keyword
    arguments. *)
Definition RemoteSkill_kwargs (skill_data : Json.json) : exn RemoteSkill :=
  match skill_data with
  | Json.JObj m =>
      if negb (forallb (fun kv => mem (fst kv) field_names) m) then Raise TypeError
      else
        n <- (v <- kwarg m "name" None ;; Json.as_str v) ;;
        d <- (v <- kwarg m "description" None ;; Json.as_str v) ;;
        s <- (v <- kwarg m "source" None ;; Json.as_str v) ;;
        u <- (v <- kwarg m "url" None ;; Json.as_str v) ;;
        c <- (v <- kwarg m "category" (Some (Json.JStr "general")) ;; Json.as_str v) ;;
        k <- (v <- kwarg m "keywords" (Some Json.JNull) ;; Json.as_keywords v) ;;
        r <- (v <- kwarg m "readme_url" (Some (Json.JStr EmptyString)) ;; Json.as_str v) ;;
        x <- (v <- kwarg m "skill_md_url" (Some (Json.JStr EmptyString)) ;; Json.as_str v) ;;
        Ok {| name := n; description := d; source := s; url := u; category := c;
              keywords := k; readme_url := r; skill_md_url := x |}
  | _ => Raise TypeError
  end.

(** The loop over [cache_data.get("skills", [])]. *)
Fixpoint cache_items (items : list Json.json) (skills : index) : exn index :=
  match items with
  | [] => Ok skills
  | skill_data :: rest =>
      skill <- RemoteSkill_kwargs skill_data ;;
      cache_items rest (dict_set (name skill) skill skills)
  end.

(** [s.replace('Z', '+00:00')]; only a string has the method. *)
Definition replace_method (v : Json.json) : exn string :=
  match v with
  | Json.JStr s => Ok (replace "Z" "+00:00" s)
  | _ => Raise AttributeError
  end.

(** The cache branch of [load_index]: [Some skills] when the cache is
    taken, [None] when the function goes on to the bundled index. *)
Definition read_cache (w : World) (skills : index) : exn (option index) :=
  match cache_file w with
  | None => Ok None
  | Some t =>
      try_except
        (cache_data <- Json.json_loads t ;;
         updated <- Json.dict_get cache_data "updated" (Json.JStr "2000-01-01T00:00:00Z") ;;
         s <- replace_method updated ;;
         cache_time <- Datetime.fromisoformat (other_formats w) s ;;
         age <- Datetime.sub_us (Datetime.now_utc (clock w)) cache_time ;;
         if (age <? 86400 * Datetime.second_us)%Z then
           v <- Json.dict_get cache_data "skills" (Json.JArr []) ;;
           items <- Json.iterate v ;;
           skills' <- cache_items items skills ;;
           Ok (Some skills')
         else Ok None)
        [JSONDecodeError; KeyError; ValueError]
        (Ok None)
  end.

Definition priority_of (r : Registry) : Z :=
  match reg_priority r with Some p => p | None => 99%Z end.

(** [sorted(self.registries, key=lambda r: r.get("priority", 99))]. *)
Definition sorted_registries (regs : list Registry) : list Registry :=
  stable_sort (fun a b => (priority_of a <=? priority_of b)%Z) regs.

(** The loop over the sorted registries. *)
Fixpoint index_registries (w : World) (regs : list Registry) (skills : index) : exn index :=
  match regs with
  | [] => Ok skills
  | registry :: rest =>
      if String.eqb (reg_type registry) "github" then
        '(skills', _) <- _index_github_registry w registry skills ;;
        index_registries w rest skills'
      else index_registries w rest skills
  end.

Definition nonempty {A : Type} (l : list A) : bool :=
  match l with [] => false | _ => true end.

Definition load_index (w : World) (self : ExternalRegistry) (force_refresh : bool)
  : exn (nat * ExternalRegistry * World) :=
  let w := _ensure_cache_dir w in
  cached <- (if negb force_refresh then read_cache w (skills self) else Ok None) ;;
  match cached with
  | Some skills' =>
      Ok (List.length skills',
          {| skills := skills'; registries := registries self; _index_loaded := true |},
          w)
  | None =>
      '(bundled_loaded, skills1) <- _load_bundled_index (bundled_files w) (skills self) ;;
      skills2 <- (if force_refresh || negb bundled_loaded
                  then index_registries w (sorted_registries (registries self)) skills1
                  else Ok skills1) ;;
      let w' := if nonempty skills2 then _save_cache w skills2 else w in
      Ok (List.length skills2,
          {| skills := skills2; registries := registries self; _index_loaded := true |},
          w')
  end.

(** *** [refresh] and [add_registry] *)

Definition refresh (w : World) (self : ExternalRegistry) : exn (nat * ExternalRegistry * World) :=
  load_index w
    {| skills := []; registries := registries self; _index_loaded := _index_loaded self |}
    true.

Definition add_registry (self : ExternalRegistry) (name owner repo branch : string) (priority : Z)
  : ExternalRegistry :=
  {| skills := skills self;
     registries := registries self ++
       [ {| reg_name := name; reg_type := "github"; reg_owner := owner; reg_repo := repo;
            reg_branch := Some branch;
            reg_url := "https://github.com/" +++ owner +++ "/" +++ repo;
            reg_priority := Some priority |} ];
     _index_loaded := _index_loaded self |}.

(** *** [search] *)

(** A result dict, by the keys the two programs read or write; [None] is
    an absent key. *)
Record result : Set := {
  r_name : option string;
  r_score : option Q;
  r_description : option string;
  r_category : option string;
  r_source : option string;
  r_url : option string;
  r_skill_md_url : option string;
  r_path : option string;
  r_installed : option bool
}.

Definition score_of (x : result) : Q :=
  match r_score x with Some s => s | None => 0 end.

(** [sort(key=..., reverse=True)]: by score, highest first, ties in place. *)
Definition sort_by_score (l : list result) : list result :=
  stable_sort (fun x y => Qle_bool (score_of y) (score_of x)) l.

(** The loop over [self.skills.values()]. *)
Fixpoint search_loop (query_tokens : list string) (threshold : Q) (l : list RemoteSkill)
  : exn (list result) :=
  match l with
  | [] => Ok []
  | skill :: rest =>
      score <- _calculate_score_double query_tokens skill ;;
      results <- search_loop query_tokens threshold rest ;;
      if Qle_bool threshold score then
        Ok ({| r_name := Some (name skill);
               r_score := Some (py_round3 score);
               r_description := Some (take 200 (description skill));
               r_category := Some (category skill);
               r_source := Some (source skill);
               r_url := Some (url skill);
               r_skill_md_url := Some (skill_md_url skill);
               r_path := None;
               r_installed := None |} :: results)
      else Ok results
  end.

Section Search.
(** The hash of the process: it fixes the order in which a set of strings
    is iterated. *)
Variable str_hash : string -> Z.

Definition set_iter (s : list string) : list string :=
  stable_sort (fun a b => (str_hash a <=? str_hash b)%Z) s.

Definition search (w : World) (self : ExternalRegistry) (query : string)
           (top_n : Z) (threshold : Q) : exn (list result * ExternalRegistry * World) :=
  '(self, w) <- (if negb (_index_loaded self)
                 then ('(_, self', w') <- load_index w self false ;; Ok (self', w'))
                 else Ok (self, w)) ;;
  let query_tokens := set_iter (py_set (findall_lower 2 (lower query))) in
  match query_tokens with
  | [] => Ok ([], self, w)
  | _ =>
      results <- search_loop query_tokens threshold (values (skills self)) ;;
      Ok (slice_to top_n (sort_by_score results), self, w)
  end.
End Search.

(** *** [get] and [list_skills] *)

(** The load on first use, at the head of [search], [get] and
    [list_skills]. *)
Definition ensure_loaded (w : World) (self : ExternalRegistry) : exn (ExternalRegistry * World) :=
  if negb (_index_loaded self)
  then ('(_, self', w') <- load_index w self false ;; Ok (self', w'))
  else Ok (self, w).

Definition get (w : World) (self : ExternalRegistry) (name : string)
  : exn (option RemoteSkill * ExternalRegistry * World) :=
  '(self, w) <- ensure_loaded w self ;;
  Ok (dict_lookup name (skills self), self, w).

(** [[s for s in skills if field(s) == wanted]] under [if wanted:]; a
    filter that is [None] or empty is no filter. *)
Definition keep_by (field : RemoteSkill -> string) (wanted : option string)
           (l : list RemoteSkill) : list RemoteSkill :=
  match wanted with
  | Some (String _ _ as v) => filter (fun s => String.eqb (field s) v) l
  | _ => l
  end.

(** [sorted(skills, key=lambda s: s.name)]: strings compare by code point. *)
Definition sort_by_name (l : list RemoteSkill) : list RemoteSkill :=
  stable_sort (fun a b => String.leb (name a) (name b)) l.

Definition list_skills (w : World) (self : ExternalRegistry) (source category : option string)
  : exn (list RemoteSkill * ExternalRegistry * World) :=
  '(self, w) <- ensure_loaded w self ;;
  let skills := values (skills self) in
  let skills := keep_by external_registry.source source skills in
  let skills := keep_by external_registry.category category skills in
  Ok (sort_by_name skills, self, w).

End external_registry.

(** ** unified_search.py *)

Module unified_search.
Import external_registry.

(** The engine.  [local_search] is the local collaborator, [SkillRegistry]
    of [skill_registry.py], which is not among the sources: it stands for
    its [search] once the local paths are scanned. *)
Record UnifiedSkillSearch : Type := {
  include_external : bool;
  local_search : string -> Z -> list result;
  the_external_registry : option ExternalRegistry;
  _external_loaded : bool
}.

Definition with_registry (self : UnifiedSkillSearch) (reg : ExternalRegistry) (loaded : bool)
  : UnifiedSkillSearch :=
  {| include_external := include_external self;
     local_search := local_search self;
     the_external_registry := Some reg;
     _external_loaded := loaded |}.

Definition _ensure_external_loaded (w : World) (self : UnifiedSkillSearch)
  : exn (UnifiedSkillSearch * World) :=
  match the_external_registry self with
  | Some reg =>
      if negb (_external_loaded self) then
        '(_, reg', w') <- load_index w reg false ;;
        Ok (with_registry self reg' true, w')
      else Ok (self, w)
  | None => Ok (self, w)
  end.

(** The outcome of [recommend]: the dict with [recommended] false, or the
    one with [recommended] true. *)
Inductive recommendation : Set :=
| NotRecommended (confidence : Q) (message : string)
| Recommended (skill : string) (confidence : Q) (installed : bool)
              (source url description : string) (alternatives : list string)
              (install_command : option string).

(** [{**r, "source": "local", "installed": True}]. *)
Definition mark_local (r : result) : result :=
  {| r_name := r_name r; r_score := r_score r; r_description := r_description r;
     r_category := r_category r; r_source := Some "local"; r_url := r_url r;
     r_skill_md_url := r_skill_md_url r; r_path := r_path r;
     r_installed := Some true |}.

(** [{**r, "installed": False}]. *)
Definition mark_external (r : result) : result :=
  {| r_name := r_name r; r_score := r_score r; r_description := r_description r;
     r_category := r_category r; r_source := r_source r; r_url := r_url r;
     r_skill_md_url := r_skill_md_url r; r_path := r_path r;
     r_installed := Some false |}.

(** [d[key]] and [d.get(key, default)] on a result dict. *)
Definition item {A : Type} (v : option A) : exn A :=
  match v with Some a => Ok a | None => Raise KeyError end.

Definition get {A : Type} (v : option A) (default : A) : A :=
  match v with Some a => a | None => default end.

(** [[r["name"] for r in l]]. *)
Fixpoint names (l : list result) : exn (list string) :=
  match l with
  | [] => Ok []
  | r :: rest => n <- item (r_name r) ;; ns <- names rest ;; Ok (n :: ns)
  end.

Definition _get_install_command_from_result (r : result) : exn string :=
  let skill_md_url := get (r_skill_md_url r) EmptyString in
  match skill_md_url with
  | EmptyString => Ok ("# Visit: " +++ get (r_url r) "N/A")
  | _ =>
      n <- item (r_name r) ;;
      Ok ("curl -sL " +++ skill_md_url +++ " -o ~/.claude/skills/" +++ n
          +++ "/SKILL.md --create-dirs")
  end.

(** The part of [recommend] after the search. *)
Definition recommend_from (query : string) (local external : list result) : exn recommendation :=
  let all_results := map mark_local local ++ map mark_external external in
  let all_results := sort_by_score all_results in
  match all_results with
  | [] => Ok (NotRecommended 0 ("No skills found matching '" +++ query +++ "'"))
  | best :: others =>
      skill <- item (r_name best) ;;
      alternatives <- names (firstn 3 others) ;;
      install_command <-
        (if negb (get (r_installed best) false)
         then (c <- _get_install_command_from_result best ;; Ok (Some c))
         else Ok None) ;;
      Ok (Recommended skill
            (get (r_score best) 0)
            (get (r_installed best) false)
            (get (r_source best) "external")
            (get (r_url best) (get (r_path best) EmptyString))
            (get (r_description best) EmptyString)
            alternatives
            install_command)
  end.

Section Search.
Variable str_hash : string -> Z.

Definition search (w : World) (self : UnifiedSkillSearch) (query : string) (top_n : Z)
           (local_only external_only : bool)
  : exn (list result * list result * UnifiedSkillSearch * World) :=
  let local := if negb external_only then local_search self query top_n else [] in
  if negb local_only && include_external self then
    '(self, w) <- _ensure_external_loaded w self ;;
    match the_external_registry self with
    | None => Raise AttributeError
    | Some reg =>
        '(external, reg', w') <- external_registry.search str_hash w reg query top_n
                                   default_threshold ;;
        Ok (local, external, with_registry self reg' (_external_loaded self), w')
    end
  else Ok (local, [], self, w).

Definition recommend (w : World) (self : UnifiedSkillSearch) (query : string)
  : exn (recommendation * UnifiedSkillSearch * World) :=
  '(local, external, self, w) <- search w self query 5 false false ;;
  r <- recommend_from query local external ;;
  Ok (r, self, w).
End Search.

(** *** [get], [_get_install_command] and [refresh_external] *)

Definition _get_install_command (skill : RemoteSkill) : string :=
  match skill_md_url skill with
  | EmptyString => "# Visit: " +++ url skill
  | u =>
      "# Download to ~/.claude/skills/" +++ name skill +++ "/" +++ newline
      +++ "curl -sL " +++ u +++ " -o ~/.claude/skills/" +++ name skill
      +++ "/SKILL.md --create-dirs"
  end.

(** The dict [get] returns: a local one, marked, or the fields of an
    external record with [installed] false and the install command. *)
Inductive skill_info : Set :=
| Installed (r : result)
| Available (skill : RemoteSkill) (install_command : string).

(** [not d] for a result dict. *)
Definition is_empty (r : result) : bool :=
  match r with
  | {| r_name := None; r_score := None; r_description := None; r_category := None;
       r_source := None; r_url := None; r_skill_md_url := None; r_path := None;
       r_installed := None |} => true
  | _ => false
  end.

(** [UnifiedSkillSearch.get]; [local_get] stands for the [get] of the
    local collaborator once the local paths are scanned. *)
Definition get_skill (local_get : string -> option result)
           (w : World) (self : UnifiedSkillSearch) (name : string)
  : exn (option skill_info * UnifiedSkillSearch * World) :=
  let external :=
    if include_external self then
      '(self, w) <- _ensure_external_loaded w self ;;
      match the_external_registry self with
      | None => Raise AttributeError
      | Some reg =>
          '(external_skill, reg', w') <- external_registry.get w reg name ;;
          Ok (match external_skill with
              | Some skill => Some (Available skill (_get_install_command skill))
              | None => None
              end,
              with_registry self reg' (_external_loaded self), w')
      end
    else Ok (None, self, w) in
  match local_get name with
  | Some local_skill =>
      if is_empty local_skill then external
      else Ok (Some (Installed (mark_local local_skill)), self, w)
  | None => external
  end.

Definition refresh_external (w : World) (self : UnifiedSkillSearch)
  : exn (nat * UnifiedSkillSearch * World) :=
  match the_external_registry self with
  | Some reg =>
      '(n, reg', w') <- refresh w reg ;;
      Ok (n, with_registry self reg' (_external_loaded self), w')
  | None => Ok (O, self, w)
  end.

End unified_search.

(** ** The formulas of the specification, for comparison *)

Module Spec.
Import external_registry.

(** Number of elements two sets share. *)
Definition card_inter (a b : list string) : nat :=
  List.length (filter (fun x => mem x b) a).

Definition ratio (a b : nat) : Q :=
  inject_Z (Z.of_nat a) / inject_Z (Z.of_nat (Nat.max b 1)).

(** The scorer of section 4.5, for a given exact-match override. *)
Definition score_formula (override : bool) (query_tokens : list string) (skill : RemoteSkill) : Q :=
  let name_tokens := py_set (findall_lower 2 (normalized_name skill)) in
  let desc_tokens := py_set (findall_lower 2 (lower (description skill))) in
  let keyword_set := py_set (keywords skill) in
  let name_score :=
    if override then 1
    else ratio (card_inter query_tokens name_tokens) (List.length name_tokens) in
  let desc_score := ratio (card_inter query_tokens desc_tokens) (List.length query_tokens) in
  let keyword_score := ratio (card_inter query_tokens keyword_set) (List.length query_tokens) in
  let total := name_score + desc_score * (7 # 10) + keyword_score * (1 # 2) in
  if Qlt_le_dec 1 (total / (22 # 10)) then 1 else total / (22 # 10).

(** Section 4.5 as written: the override fires when the joined query equals
    the normalized name or the normalized name is a substring of it. *)
Definition override_spec (query_tokens : list string) (skill : RemoteSkill) : bool :=
  let query_str := join " " query_tokens in
  String.eqb query_str (normalized_name skill) || contains (normalized_name skill) query_str.

(** The override of the code: the second test takes the lower-cased name
    with its hyphens. *)
Definition override_code (query_tokens : list string) (skill : RemoteSkill) : bool :=
  let query_str := join " " query_tokens in
  String.eqb query_str (normalized_name skill) || contains (lower (name skill)) query_str.

Definition score_spec (query_tokens : list string) (skill : RemoteSkill) : Q :=
  score_formula (override_spec query_tokens skill) query_tokens skill.

(** A text contains a word. *)
Definition substring (u s : string) : Prop := exists pre post, s = pre +++ u +++ post.

Definition matches (text : string) (kws : list string) : Prop :=
  exists kw, In kw kws /\ substring kw text.

(** Section 4.2: the first category, in declaration order, one of whose
    keywords the text contains; [general] when there is none. *)
Inductive first_category (text : string) : list (string * list string) -> string -> Prop :=
| fc_general : first_category text [] "general"
| fc_here : forall c kws rest, matches text kws -> first_category text ((c, kws) :: rest) c
| fc_later : forall c kws rest c',
    ~ matches text kws -> first_category text rest c' ->
    first_category text ((c, kws) :: rest) c'.

(** The invariants of a record in section 3. *)
Definition record_inv (s : RemoteSkill) : Prop :=
  name s <> EmptyString
  /\ (List.length (keywords s) <= 15)%nat
  /\ NoDup (keywords s)
  /\ In (category s) category_set.

(** A dict of records: distinct keys, each the name of its record. *)
Definition is_index (d : index) : Prop :=
  NoDup (map fst d) /\ Forall (fun kv => fst kv = name (snd kv)) d.

Definition github (r : Registry) : Prop := reg_type r = "github".

(** Registry [r] defines the skill [x]: indexed on its own, from an empty
    index, it yields the record [s] under that name. *)
Definition defines (w : World) (r : Registry) (x : string) (s : RemoteSkill) : Prop :=
  exists idx n, _index_github_registry w r [] = Ok (idx, n) /\ dict_lookup x idx = Some s.

(** What one directory of a registry contributes: the name and the record
    of its manifest, when it is not on the denylist and the manifest has a
    name. *)
Definition candidate (w : World) (registry : Registry) (branch dir_name : string)
  : option (string * RemoteSkill) :=
  if mem dir_name denylist then None
  else
    match _fetch_skill_md w (reg_owner registry) (reg_repo registry) dir_name branch with
    | Some content =>
        if Json.falsy (Some content) then None
        else match _parse_skill_frontmatter content with
             | (Some (String a n as name), description) =>
                 Some (name, make_skill registry branch dir_name name description)
             | _ => None
             end
    | None => None
    end.

Fixpoint candidates (w : World) (registry : Registry) (branch : string) (dirs : list string)
  : list (string * RemoteSkill) :=
  match dirs with
  | [] => []
  | d :: rest =>
      match candidate w registry branch d with
      | Some c => c :: candidates w registry branch rest
      | None => candidates w registry branch rest
      end
  end.

(** Insertion under a name that is not taken. *)
Definition add_absent (skills : index) (kv : string * RemoteSkill) : index :=
  if dict_has (fst kv) skills then skills else dict_set (fst kv) (snd kv) skills.

(** The candidates of a whole registry. *)
Definition contribution (w : World) (r : Registry) : exn (list (string * RemoteSkill)) :=
  dirs <- _parse_github_tree w (reg_owner r) (reg_repo r) (branch_of r) ;;
  Ok (candidates w r (branch_of r) dirs).

(** The first candidate under a name. *)
Fixpoint first_named (x : string) (c : list (string * RemoteSkill)) : option RemoteSkill :=
  match c with
  | [] => None
  | (k, v) :: c' => if String.eqb x k then Some v else first_named x c'
  end.

(** The first registry of a list to contribute a record under a name. *)
Fixpoint first_definition (w : World) (x : string) (regs : list Registry) : option RemoteSkill :=
  match regs with
  | [] => None
  | r :: rest =>
      if String.eqb (reg_type r) "github" then
        match contribution w r with
        | Ok c =>
            match first_named x c with
            | Some s => Some s
            | None => first_definition w x rest
            end
        | Raise _ => first_definition w x rest
        end
      else first_definition w x rest
  end.

(** No bundled index can be read: each candidate path is missing or does
    not hold a JSON document. *)
Definition no_bundled_index (w : World) : Prop :=
  Forall (fun f => match f with
                   | None => True
                   | Some t => Json.json_loads t = Raise JSONDecodeError
                   end) (bundled_files w).

(** The state after a load: the records, the registries kept, the flag set. *)
Definition loaded (self : ExternalRegistry) (skills : index) : ExternalRegistry :=
  {| skills := skills; registries := registries self; _index_loaded := true |}.

(** The world after a load: the cache directory is there, and a non-empty
    index is persisted. *)
Definition persisted (w : World) (skills : index) : World :=
  if nonempty skills then _save_cache w skills else _ensure_cache_dir w.

(** The records a load leaves in memory. *)
Definition records_of (r : exn (nat * ExternalRegistry * World)) : exn index :=
  match r with
  | Ok (_, self, _) => Ok (skills self)
  | Raise e => Raise e
  end.

(** A result of [ExternalRegistry.search] made from a record and its score. *)
Definition result_of (skill : RemoteSkill) (score : Q) (r : result) : Prop :=
  r_name r = Some (name skill)
  /\ r_score r = Some (py_round3 score)
  /\ r_description r = Some (take 200 (description skill))
  /\ r_category r = Some (category skill)
  /\ r_source r = Some (source skill)
  /\ r_url r = Some (url skill)
  /\ r_skill_md_url r = Some (skill_md_url skill).

(** [p] is the text [s] cut after at most [n] characters. *)
Definition cut_at (n : nat) (s p : string) : Prop :=
  (exists rest, s = p +++ rest) /\ String.length p = Nat.min n (String.length s).

(** The engine can search without loading: it leaves the external
    registries out, or their index is in memory. *)
Definition ready (self : unified_search.UnifiedSkillSearch) : Prop :=
  unified_search.include_external self = false
  \/ exists reg, unified_search.the_external_registry self = Some reg
                 /\ _index_loaded reg = true
                 /\ unified_search._external_loaded self = true.

(** The characters [isoformat] writes before the offset. *)
Definition stamp_char (c : ascii) : bool :=
  is_digit c || Ascii.eqb c ":" || Ascii.eqb c "." || Ascii.eqb c "T".

(** ... and with the offset. *)
Definition iso_char (c : ascii) : bool :=
  stamp_char c || Ascii.eqb c "-" || Ascii.eqb c "+".

(** A name without a hyphen. *)
Definition no_hyphen (s : string) : bool := all_chars (fun c => negb (Ascii.eqb c "-")) s.

Definition by_priority (a b : Registry) : bool := (priority_of a <=? priority_of b)%Z.

(** The two result lists of [recommend] in one, each entry marked. *)
Definition union (local external : list result) : list result :=
  map unified_search.mark_local local ++ map unified_search.mark_external external.

(** The tokens of a query, in the order the set yields them. *)
Definition tokens_of (str_hash : string -> Z) (query : string) : list string :=
  set_iter str_hash (py_set (findall_lower 2 (lower query))).

(** *** Auxiliary notions for the further properties *)

(** The scanner is in a run of lower-case letters only when it says so. *)
Definition state_ok (st : run_state) : Prop :=
  match st with
  | Candidate acc => all_chars is_lower acc = true
  | _ => True
  end.

(** One step of [set(...)]: a new element goes to the end. *)
Definition step (seen : list string) (x : string) : list string :=
  if mem x seen then seen else seen ++ [x].

Definition not_stopword (w : string) : bool := negb (mem w stopwords).

(** The address [_parse_github_tree] asks for the listing. *)
Definition api_url (owner repo branch : string) : string :=
  "https://api.github.com/repos/" +++ owner +++ "/" +++ repo +++ "/contents?ref=" +++ branch.

Definition registry_api_url (r : Registry) : string :=
  api_url (reg_owner r) (reg_repo r) (branch_of r).

(** An entry of a listing: an object with a [name] and a [type] that are
    strings, and whatever else. *)
Definition entry_of (item : Json.json) (p : string * string) : Prop :=
  exists m, item = Json.JObj m
            /\ Json.assoc "name" m = Some (Json.JStr (fst p))
            /\ Json.assoc "type" m = Some (Json.JStr (snd p)).

(** An entry the comprehension fails on with a [KeyError]: no [type], or a
    [dir] without a [name]. *)
Definition keyless (item : Json.json) : Prop :=
  exists m, item = Json.JObj m
            /\ (Json.assoc "type" m = None
                \/ (Json.assoc "type" m = Some (Json.JStr "dir")
                    /\ Json.assoc "name" m = None)).

(** The directories the comprehension keeps. *)
Definition is_listed (p : string * string) : bool :=
  String.eqb (snd p) "dir" && negb (startswith (fst p) ".").

(** A value of a manifest line that the parser gives back as it is: one
    line, without the delimiter, not empty, and with no white space or
    quote at either end. *)
Definition not_newline (c : ascii) : bool := negb (Ascii.eqb c (ascii_of_nat 10)).

Definition edge_ok (c : ascii) : bool :=
  negb (is_space c) && negb (is_double_quote c) && negb (is_single_quote c).

Fixpoint last_ok (v : string) : bool :=
  match v with
  | EmptyString => false
  | String a EmptyString => edge_ok a
  | String _ v' => last_ok v'
  end.

Definition first_ok (v : string) : bool :=
  match v with
  | EmptyString => false
  | String a _ => edge_ok a
  end.

Definition plain_value (v : string) : bool :=
  first_ok v && last_ok v && all_chars not_newline v && negb (contains "---" v).

(** The manifest with a name and a description, then any text. *)
Definition manifest_text (n d body : string) : string :=
  "---" +++ newline +++ "name: " +++ n +++ newline
  +++ "description: " +++ d +++ newline +++ "---" +++ body.

(** The score of a record in exact arithmetic reaches a threshold. *)
Definition qualifies (query_tokens : list string) (threshold : Q) (skill : RemoteSkill) : bool :=
  match _calculate_score query_tokens skill with
  | Ok score => Qle_bool threshold score
  | Raise _ => false
  end.

(** What the score on doubles differs from the exact one by, at most:
    [2^-49]. *)
Definition score_error : Q := 1 # 562949953421312.

(** A record passes the threshold of [search]: the score the machine
    computes reaches it. *)
Definition passes (query_tokens : list string) (threshold : Q) (skill : RemoteSkill) : bool :=
  match _calculate_score_double query_tokens skill with
  | Ok score => Qle_bool threshold score
  | Raise _ => false
  end.

(** A record that passes, its score and the result made of them. *)
Definition kept_as (query_tokens : list string) (threshold : Q)
           (skill : RemoteSkill) (r : result) : Prop :=
  exists score,
    _calculate_score_double query_tokens skill = Ok score
    /\ threshold <= score /\ result_of skill score r.

(** What [ExternalRegistry.search] answers on the records [l]: nothing for
    a query without a token; else the results of the records that pass, in
    the order of the index, then ranked by score and cut to [top_n]. *)
Definition answer_of (query_tokens : list string) (top_n : Z) (threshold : Q)
           (l : list RemoteSkill) (results : list result) : Prop :=
  (query_tokens = [] -> results = [])
  /\ (query_tokens <> [] ->
      exists rs,
        Forall2 (kept_as query_tokens threshold)
                (filter (passes query_tokens threshold) l) rs
        /\ results = slice_to top_n (sort_by_score rs)).


(** A query token is a token of the name, a token of the description or a
    keyword of the record. *)
Definition shares (query_tokens : list string) (skill : RemoteSkill) : bool :=
  existsb (fun t => mem t (py_set (findall_lower 2 (normalized_name skill)))
                    || mem t (py_set (findall_lower 2 (lower (description skill))))
                    || mem t (py_set (keywords skill)))
          query_tokens.

(** A filter of [list_skills]: [None] and the empty string let every
    value through. *)
Definition wanted (filter : option string) (value : string) : Prop :=
  match filter with
  | Some (String _ _ as v) => value = v
  | _ => True
  end.

(** *** The cache *)

(** The stamp [load_index] reads in a cache: its [updated], or the default. *)
Definition stamped (m : list (string * Json.json)) (stamp : string) : Prop :=
  Json.assoc "updated" m = Some (Json.JStr stamp)
  \/ (Json.assoc "updated" m = None /\ stamp = "2000-01-01T00:00:00Z").

(** The stamp parses and is less than a day old. *)
Definition fresh (w : World) (stamp : string) : Prop :=
  exists t age,
    Datetime.fromisoformat (other_formats w) (replace "Z" "+00:00" stamp) = Ok t
    /\ Datetime.sub_us (Datetime.now_utc (clock w)) t = Ok age
    /\ (age < 86400 * Datetime.second_us)%Z.

(** The stamp does not parse, or is a day old or more. *)
Definition stale (w : World) (stamp : string) : Prop :=
  Datetime.fromisoformat (other_formats w) (replace "Z" "+00:00" stamp) = Raise ValueError
  \/ exists t age,
       Datetime.fromisoformat (other_formats w) (replace "Z" "+00:00" stamp) = Ok t
       /\ Datetime.sub_us (Datetime.now_utc (clock w)) t = Ok age
       /\ (86400 * Datetime.second_us <= age)%Z.

(** A cache [load_index] passes over: no file, a file that is not JSON, or
    an object with a stale stamp. *)
Definition unusable_cache (w : World) : Prop :=
  match cache_file w with
  | None => True
  | Some (Json.Plain _) => True
  | Some (Json.Doc (Json.JObj m)) => exists stamp, stamped m stamp /\ stale w stamp
  | Some (Json.Doc _) => False
  end.

Definition is_object (j : Json.json) : bool :=
  match j with Json.JObj _ => true | _ => false end.

Definition is_string (j : Json.json) : bool :=
  match j with Json.JStr _ => true | _ => false end.

(** An entry of a cache the constructor of [RemoteSkill] refuses: not an
    object, without a [name], or with a member that is no field. *)
Definition rejected (item : Json.json) : Prop :=
  match item with
  | Json.JObj m =>
      Json.assoc "name" m = None
      \/ exists kv, In kv m /\ mem (fst kv) field_names = false
  | _ => True
  end.

(** *** The bundled index *)

(** A candidate path that is passed over: no file, or no JSON in it. *)
Definition unreadable (f : option Json.text) : Prop :=
  match f with
  | None => True
  | Some t => Json.json_loads t = Raise JSONDecodeError
  end.

(** The first candidate path that holds a JSON document. *)
Definition first_readable (files : list (option Json.text)) (j : Json.json) : Prop :=
  exists pre rest, files = pre ++ Some (Json.Doc j) :: rest /\ Forall unreadable pre.

(** What the loop over a bundled index does with a document. *)
Definition bundled_document (j : Json.json) (skills : index) : exn (bool * index) :=
  v <- Json.dict_get j "skills" (Json.JArr []) ;;
  items <- Json.iterate v ;;
  skills' <- bundled_items items skills ;;
  Ok (true, skills').

(** A record as the bundled index keeps it: [readme_url] is not read. *)
Definition without_readme (s : RemoteSkill) : RemoteSkill :=
  {| name := name s; description := description s; source := source s; url := url s;
     category := category s; keywords := keywords s;
     readme_url := EmptyString; skill_md_url := skill_md_url s |}.

(** The number of records stored under a name. *)
Definition count_name (x : string) (d : index) : nat :=
  List.length (filter (fun kv => String.eqb x (fst kv)) d).

End Spec.

(** ** Concrete records and queries used below *)

Module Examples.
Import external_registry.

Definition blank : RemoteSkill :=
  {| name := ""; description := ""; source := ""; url := "";
     category := "general"; keywords := []; readme_url := ""; skill_md_url := "" |}.

(** A skill whose name is the whole query, with nothing else to match. *)
Definition pdf_plain : RemoteSkill :=
  {| name := "pdf"; description := ""; source := "awesome-claude-skills";
     url := ""; category := "general"; keywords := [];
     readme_url := ""; skill_md_url := "" |}.

(** The same name with a description that repeats the query. *)
Definition pdf_described : RemoteSkill :=
  {| name := "pdf"; description := "pdf"; source := "awesome-claude-skills";
     url := ""; category := "general"; keywords := [];
     readme_url := ""; skill_md_url := "" |}.

(** A hyphenated name; its normalized form [go go] lies inside the joined
    query [{gogo, gotogo}] whichever of the two the set yields first. *)
Definition go_go : RemoteSkill :=
  {| name := "go-go"; description := ""; source := "awesome-claude-skills";
     url := ""; category := "general"; keywords := [];
     readme_url := ""; skill_md_url := "" |}.

(** Midnight of the first of January 2026, and one hour later. *)
Definition midnight : Datetime.datetime :=
  {| Datetime.year := 2026; Datetime.month := 1; Datetime.day := 1;
     Datetime.hour := 0; Datetime.minute := 0; Datetime.second := 0;
     Datetime.microsecond := 0; Datetime.utcoffset := None |}.

Definition one_o_clock : Datetime.datetime :=
  {| Datetime.year := 2026; Datetime.month := 1; Datetime.day := 1;
     Datetime.hour := 1; Datetime.minute := 0; Datetime.second := 0;
     Datetime.microsecond := 0; Datetime.utcoffset := None |}.

(** The cache directory with the file [cache] in it, or not made yet. *)
Definition holding (cache : option Json.text) : CacheDir :=
  match cache with
  | Some t => Directory (Some t)
  | None => NoDirectory
  end.

(** No bundled index and no network.  In the worlds of the examples the
    library reads the common format and nothing else; their stamps are in
    that format or have two offsets, so that every version of the library
    gives the results shown. *)
Definition offline (c : Datetime.datetime) (cache : option Json.text) : World :=
  {| clock := c; cache_dir := holding cache;
     bundled_files := [None; None; None];
     fetch := fun _ => None;
     other_formats := fun _ => None |}.

Definition pdf_index : index := [("pdf", pdf_plain)].

(** The envelope of [pdf_index] with the stamp [2026-01-01T00:00:00Z]. *)
Definition envelope_with_plain_stamp : Json.text :=
  Json.Doc (Json.JObj
    [ ("version", Json.JStr "1.0");
      ("updated", Json.JStr "2026-01-01T00:00:00Z");
      ("skill_count", Json.JNum 1);
      ("skills", Json.JArr (map to_dict (values pdf_index))) ]).

(** *** A small network

    The first registry lists [docs], [pdf-tools], a file and [.github]; the
    second lists [pdf] and [notes].  Both [pdf-tools] and [pdf] carry a
    manifest named [pdf-tools]. *)

Definition dir_entry (n ty : string) : Json.json :=
  Json.JObj [("name", Json.JStr n); ("type", Json.JStr ty)].

Definition listing_awesome : Json.text :=
  Json.Doc (Json.JArr
    [ dir_entry "docs" "dir"; dir_entry "pdf-tools" "dir";
      dir_entry "README.md" "file"; dir_entry ".github" "dir" ]).

Definition listing_anthropic : Json.text :=
  Json.Doc (Json.JArr [ dir_entry "pdf" "dir"; dir_entry "notes" "dir" ]).

Definition manifest (lines : list string) : Json.text :=
  Json.Plain ("---" +++ newline +++ join newline lines +++ newline +++ "---" +++ newline).

Definition manifest_pdf_tools : Json.text :=
  manifest ["name: pdf-tools"; "description: Extract text from PDF documents"].

Definition manifest_pdf_official : Json.text :=
  manifest ["name: pdf-tools"; "description: 'Official PDF toolkit'"].

Definition manifest_notes : Json.text := manifest ["name: notes"].

Definition network (url : string) : option Json.text :=
  if String.eqb url "https://api.github.com/repos/ComposioHQ/awesome-claude-skills/contents?ref=master"
  then Some listing_awesome
  else if String.eqb url "https://api.github.com/repos/anthropics/skills/contents?ref=main"
  then Some listing_anthropic
  else if String.eqb url
    "https://raw.githubusercontent.com/ComposioHQ/awesome-claude-skills/master/pdf-tools/SKILL.md"
  then Some manifest_pdf_tools
  else if String.eqb url "https://raw.githubusercontent.com/anthropics/skills/main/pdf/SKILL.md"
  then Some manifest_pdf_official
  else if String.eqb url "https://raw.githubusercontent.com/anthropics/skills/main/notes/SKILL.md"
  then Some manifest_notes
  else None.

Definition awesome : Registry :=
  {| reg_name := "awesome-claude-skills"; reg_type := "github";
     reg_owner := "ComposioHQ"; reg_repo := "awesome-claude-skills";
     reg_branch := Some "master";
     reg_url := "https://github.com/ComposioHQ/awesome-claude-skills";
     reg_priority := Some 1%Z |}.

Definition anthropic : Registry :=
  {| reg_name := "anthropic-skills"; reg_type := "github";
     reg_owner := "anthropics"; reg_repo := "skills";
     reg_branch := Some "main";
     reg_url := "https://github.com/anthropics/skills";
     reg_priority := Some 2%Z |}.

(** The records the two registries build for the name [pdf-tools], and the
    one for [notes]. *)
Definition pdf_tools_awesome : RemoteSkill :=
  {| name := "pdf-tools";
     description := "Extract text from PDF documents";
     source := "awesome-claude-skills";
     url := "https://github.com/ComposioHQ/awesome-claude-skills/tree/master/pdf-tools";
     category := "document-processing";
     keywords := ["pdf"; "tools"; "extract"; "text"; "documents"];
     readme_url := "";
     skill_md_url :=
       "https://raw.githubusercontent.com/ComposioHQ/awesome-claude-skills/master/pdf-tools/SKILL.md" |}.

Definition pdf_tools_anthropic : RemoteSkill :=
  {| name := "pdf-tools";
     description := "Official PDF toolkit";
     source := "anthropic-skills";
     url := "https://github.com/anthropics/skills/tree/main/pdf";
     category := "document-processing";
     keywords := ["pdf"; "tools"; "official"; "toolkit"];
     readme_url := "";
     skill_md_url := "https://raw.githubusercontent.com/anthropics/skills/main/pdf/SKILL.md" |}.

Definition notes_anthropic : RemoteSkill :=
  {| name := "notes";
     description := "Skill from anthropic-skills";
     source := "anthropic-skills";
     url := "https://github.com/anthropics/skills/tree/main/notes";
     category := "general";
     keywords := ["notes"];
     readme_url := "";
     skill_md_url := "https://raw.githubusercontent.com/anthropics/skills/main/notes/SKILL.md" |}.

(** The index the network yields. *)
Definition network_index : index :=
  [("pdf-tools", pdf_tools_awesome); ("notes", notes_anthropic)].

(** The record of the bundled index below. *)
Definition pdf_tools_bundled : RemoteSkill :=
  {| name := "pdf-tools"; description := "Bundled copy";
     source := "awesome-claude-skills"; url := "";
     category := "general"; keywords := [];
     readme_url := ""; skill_md_url := "" |}.

(** The record of the unchecked bundled index below. *)
Definition unchecked : RemoteSkill :=
  {| name := ""; description := ""; source := "awesome-claude-skills"; url := "";
     category := "misc"; keywords := ["pdf"; "pdf"];
     readme_url := ""; skill_md_url := "" |}.

(** On line, with no cache and no bundled index. *)
Definition online : World :=
  {| clock := midnight; cache_dir := NoDirectory;
     bundled_files := [None; None; None];
     fetch := network;
     other_formats := fun _ => None |}.

(** A bundled index with its own, older copy of [pdf-tools]. *)
Definition bundled_pdf_tools : Json.text :=
  Json.Doc (Json.JObj
    [ ("skills", Json.JArr
        [ Json.JObj [ ("name", Json.JStr "pdf-tools");
                      ("description", Json.JStr "Bundled copy") ] ]) ]).

Definition online_with_bundle : World :=
  {| clock := midnight; cache_dir := NoDirectory;
     bundled_files := [None; Some bundled_pdf_tools; None];
     fetch := network;
     other_formats := fun _ => None |}.

(** The same files without the network. *)
Definition offline_with_bundle : World :=
  {| clock := midnight; cache_dir := NoDirectory;
     bundled_files := [None; Some bundled_pdf_tools; None];
     fetch := fun _ => None;
     other_formats := fun _ => None |}.

(** A bundled index whose one record has no name, a category outside the
    taxonomy and a repeated keyword. *)
Definition bundled_unchecked : Json.text :=
  Json.Doc (Json.JObj
    [ ("skills", Json.JArr
        [ Json.JObj [ ("category", Json.JStr "misc");
                      ("keywords", Json.JArr [Json.JStr "pdf"; Json.JStr "pdf"]) ] ]) ]).

Definition offline_with_unchecked_bundle : World :=
  {| clock := midnight; cache_dir := NoDirectory;
     bundled_files := [Some bundled_unchecked; None; None];
     fetch := fun _ => None;
     other_formats := fun _ => None |}.

(** A fresh cache, stamped so that it is read, with such a record. *)
Definition cache_unchecked : Json.text :=
  Json.Doc (Json.JObj
    [ ("version", Json.JStr "1.0");
      ("updated", Json.JStr "2026-01-01T00:00:00Z");
      ("skills", Json.JArr
        [ Json.JObj [ ("name", Json.JStr EmptyString);
                      ("description", Json.JStr EmptyString);
                      ("source", Json.JStr "somewhere");
                      ("url", Json.JStr EmptyString);
                      ("category", Json.JStr "misc");
                      ("keywords", Json.JArr [Json.JStr "pdf"; Json.JStr "pdf"]) ] ]) ]).

(** An engine with nothing installed and the network index in memory. *)
Definition engine : unified_search.UnifiedSkillSearch :=
  {| unified_search.include_external := true;
     unified_search.local_search := fun _ _ => [];
     unified_search.the_external_registry :=
       Some {| skills := network_index; registries := KNOWN_REGISTRIES; _index_loaded := true |};
     unified_search._external_loaded := true |}.

(** A local result, and an engine that finds it for every query. *)
Definition local_notes : result :=
  {| r_name := Some "notes"; r_score := Some (1 # 2); r_description := Some "Local notes";
     r_category := None; r_source := None; r_url := None; r_skill_md_url := None;
     r_path := Some "/mnt/skills/user/notes"; r_installed := None |}.

Definition engine_with_local : unified_search.UnifiedSkillSearch :=
  {| unified_search.include_external := true;
     unified_search.local_search := fun _ _ => [local_notes];
     unified_search.the_external_registry :=
       Some {| skills := network_index; registries := KNOWN_REGISTRIES; _index_loaded := true |};
     unified_search._external_loaded := true |}.

(** A new engine: nothing loaded yet. *)
Definition new_engine : unified_search.UnifiedSkillSearch :=
  {| unified_search.include_external := true;
     unified_search.local_search := fun _ _ => [];
     unified_search.the_external_registry := Some __init__;
     unified_search._external_loaded := false |}.

(** A registry object in memory with one record whose description has 208
    characters. *)
Definition long_description : string :=
  "pdf pdf pdf pdf pdf pdf pdf pdf pdf pdf pdf pdf pdf pdf pdf pdf pdf pdf pdf pdf pdf pdf pdf pdf pdf pdf "
  +++ "pdf pdf pdf pdf pdf pdf pdf pdf pdf pdf pdf pdf pdf pdf pdf pdf pdf pdf pdf pdf pdf pdf pdf pdf pdf pdf ".

Definition wordy : RemoteSkill :=
  {| name := "reader"; description := long_description; source := "awesome-claude-skills";
     url := ""; category := "document-processing"; keywords := [];
     readme_url := ""; skill_md_url := "" |}.

Definition wordy_registry : ExternalRegistry :=
  {| skills := [("reader", wordy)]; registries := KNOWN_REGISTRIES; _index_loaded := true |}.

(** A registry object in memory whose one record has no name. *)
Definition blank_registry : ExternalRegistry :=
  {| skills := [("", blank)]; registries := KNOWN_REGISTRIES; _index_loaded := true |}.

(** A hash that leaves a set in the order of first occurrence. *)
Definition flat_hash (s : string) : Z := 0%Z.

(** A record that shares four of eight query tokens in its description and
    one among its keywords: in exact arithmetic the score is
    [(0.35 + 0.0625) / 2.2 = 0.1875], half-way between two thousandths. *)
Definition halfway : RemoteSkill :=
  {| name := "tie"; description := "aa bb cc dd"; source := "awesome-claude-skills";
     url := ""; category := "general"; keywords := ["ee"];
     readme_url := ""; skill_md_url := "" |}.

Definition halfway_registry : ExternalRegistry :=
  {| skills := [("tie", halfway)]; registries := KNOWN_REGISTRIES; _index_loaded := true |}.

Definition eight_tokens : string := "aa bb cc dd ee ff gg hh".

(** A record that shares one of ten query tokens in its description and
    three among its keywords: [(0.07 + 0.15) / 2.2], a tenth in exact
    arithmetic. *)
Definition tenth : RemoteSkill :=
  {| name := "edge"; description := "aa"; source := "awesome-claude-skills";
     url := ""; category := "general"; keywords := ["bb"; "cc"; "dd"];
     readme_url := ""; skill_md_url := "" |}.

Definition tenth_registry : ExternalRegistry :=
  {| skills := [("edge", tenth)]; registries := KNOWN_REGISTRIES; _index_loaded := true |}.

Definition ten_tokens : string := "aa bb cc dd ee ff gg hh ii jj".

(** [pdf_described] as another registry might write it. *)
Definition pdf_shouting : RemoteSkill :=
  {| name := "PDF"; description := "Pdf"; source := "anthropic-skills";
     url := "https://github.com/anthropics/skills/tree/main/pdf";
     category := "document-processing"; keywords := [];
     readme_url := ""; skill_md_url := "" |}.

(** A cache that is a JSON array, one whose stamp has no offset, and one
    with a fresh stamp and a record that carries a member of its own. *)
Definition cache_array : Json.text := Json.Doc (Json.JArr []).

Definition cache_naive_members : list (string * Json.json) :=
  [ ("version", Json.JStr "1.0");
    ("updated", Json.JStr "2026-01-01T00:00:00");
    ("skills", Json.JArr []) ].

Definition starred : Json.json :=
  Json.JObj [ ("name", Json.JStr "pdf"); ("description", Json.JStr EmptyString);
              ("source", Json.JStr "awesome-claude-skills"); ("url", Json.JStr EmptyString);
              ("stars", Json.JNum 5) ].

Definition cache_starred_members : list (string * Json.json) :=
  [ ("version", Json.JStr "1.0");
    ("updated", Json.JStr "2026-01-01T00:00:00Z");
    ("skills", Json.JArr (map to_dict [pdf_plain] ++ starred :: [])) ].

Definition cache_plain_members : list (string * Json.json) :=
  [ ("version", Json.JStr "1.0");
    ("updated", Json.JStr "2026-01-01T00:00:00Z");
    ("skill_count", Json.JNum 1);
    ("skills", Json.JArr (map to_dict (values pdf_index))) ].

(** A world whose every request is answered with the same body. *)
Definition answering (body : Json.text) : World :=
  {| clock := midnight; cache_dir := NoDirectory;
     bundled_files := [None; None; None];
     fetch := fun _ => Some body;
     other_formats := fun _ => None |}.

(** A listing whose second entry has no [type]. *)
Definition entry_without_type : Json.json := Json.JObj [("name", Json.JStr "pdf")].

Definition listing_with_gap : Json.text :=
  Json.Doc (Json.JArr [ dir_entry "docs" "dir"; entry_without_type; dir_entry "notes" "dir" ]).

(** The body the listing service sends instead of a listing when it
    declines the request. *)
Definition rate_limited : Json.text :=
  Json.Doc (Json.JObj [("message", Json.JStr "API rate limit exceeded")]).

End Examples.

(** * Properties *)

(** ** Strings and sets *)

Section StringFacts.

Lemma startswith_spec (s p : string) :
  startswith s p = true <-> exists post, s = p +++ post.
Proof.
  revert s; induction p as [|b p IH]; intros s; simpl.
  - split; [intros _; now exists s | reflexivity].
  - destruct s as [|a s]; simpl.
    + split; [discriminate | intros [post H]; discriminate].
    + rewrite andb_true_iff, Ascii.eqb_eq, IH. split.
      * intros [-> [post ->]]. now exists post.
      * intros [post H]. injection H as -> ->. split; [reflexivity | now exists post].
Qed.

Lemma contains_spec (u s : string) :
  contains u s = true <-> Spec.substring u s.
Proof.
  unfold Spec.substring.
  induction s as [|a s IH]; simpl.
  - rewrite orb_false_r, startswith_spec. split.
    + intros [post H]. exists EmptyString, post. exact H.
    + intros [pre [post H]]. destruct pre; simpl in H; [now exists post | discriminate].
  - rewrite orb_true_iff, startswith_spec, IH. split.
    + intros [[post H] | [pre [post H]]].
      * exists EmptyString, post. exact H.
      * exists (String a pre), post. simpl. now rewrite H.
    + intros [pre [post H]]. destruct pre as [|b pre]; simpl in H.
      * left. now exists post.
      * right. injection H as _ H. now exists pre, post.
Qed.

Lemma lower_empty (s : string) : lower s = EmptyString <-> s = EmptyString.
Proof. destruct s; simpl; split; intros H; try reflexivity; discriminate. Qed.

Lemma replace_space_empty (c : ascii) (s : string) :
  replace c " " s = EmptyString <-> s = EmptyString.
Proof.
  destruct s as [|a s]; simpl; [tauto|].
  destruct (Ascii.eqb a c); simpl; split; intros H; discriminate.
Qed.

Lemma mem_In (x : string) (l : list string) : mem x l = true <-> In x l.
Proof.
  unfold mem. rewrite existsb_exists. split.
  - intros [y [Hy E]]. apply String.eqb_eq in E. now subst.
  - intros H. exists x. split; [exact H | apply String.eqb_refl].
Qed.

Lemma py_set_acc_In (l seen : list string) (x : string) :
  In x (fold_left (fun seen x => if mem x seen then seen else seen ++ [x]) l seen)
  <-> In x seen \/ In x l.
Proof.
  revert seen; induction l as [|y l IH]; intros seen; simpl.
  - tauto.
  - rewrite IH. destruct (mem y seen) eqn:E.
    + apply mem_In in E. split; [tauto|].
      intros [H | [-> | H]]; tauto.
    + rewrite in_app_iff. simpl. split; [|tauto]. intros [[H | [-> | []]] | H]; tauto.
Qed.

Lemma py_set_In (l : list string) (x : string) : In x (py_set l) <-> In x l.
Proof. unfold py_set. rewrite py_set_acc_In. simpl. tauto. Qed.

Lemma py_set_acc_NoDup (l seen : list string) :
  NoDup seen ->
  NoDup (fold_left (fun seen x => if mem x seen then seen else seen ++ [x]) l seen).
Proof.
  revert seen; induction l as [|y l IH]; intros seen H; simpl; [exact H|].
  apply IH. destruct (mem y seen) eqn:E; [exact H|].
  apply NoDup_rev in H. rewrite <- (rev_involutive (seen ++ [y])).
  apply NoDup_rev. rewrite rev_app_distr. simpl. constructor; [|exact H].
  rewrite <- in_rev. intros Hin. apply mem_In in Hin. congruence.
Qed.

Lemma py_set_NoDup (l : list string) : NoDup (py_set l).
Proof. apply py_set_acc_NoDup. constructor. Qed.

Lemma filter_length_le {A : Type} (f : A -> bool) (l : list A) :
  (List.length (filter f l) <= List.length l)%nat.
Proof. induction l as [|a l IH]; simpl; [lia|]. destruct (f a); simpl; lia. Qed.

Lemma filter_length_all {A : Type} (f : A -> bool) (l : list A) :
  List.length (filter f l) = List.length l <-> forall x, In x l -> f x = true.
Proof.
  induction l as [|a l IH]; simpl.
  - split; [intros _ x [] | reflexivity].
  - destruct (f a) eqn:E; simpl.
    + split.
      * intros H x [<- | Hx]; [exact E|]. apply IH; [lia | exact Hx].
      * intros H. f_equal. apply IH. intros x Hx. apply H. now right.
    + split.
      * intros H. pose proof (filter_length_le f l). lia.
      * intros H. specialize (H a (or_introl eq_refl)). congruence.
Qed.

End StringFacts.

(** ** The scorer *)

Module ScorerFacts.
Import external_registry Spec.

(** Division by 2.2 as a multiplication, for linear arithmetic. *)
Ltac by_22 := unfold Qdiv in *; change (/ (22 # 10)) with (10 # 22) in *.

Lemma of_int_max_pos (n : nat) : 0 < of_int (Nat.max n 1).
Proof.
  unfold of_int, Qlt. simpl. rewrite Z.mul_1_r.
  pose proof (Nat.le_max_r n 1). lia.
Qed.

Lemma py_div_max (a : Q) (n : nat) :
  py_div a (of_int (Nat.max n 1)) = Ok (a / of_int (Nat.max n 1)).
Proof.
  unfold py_div. destruct (Qeq_bool (of_int (Nat.max n 1)) 0) eqn:E; [|reflexivity].
  apply Qeq_bool_eq in E. pose proof (of_int_max_pos n) as H. rewrite E in H.
  exfalso. revert H. apply Qlt_irrefl.
Qed.

Lemma ratio_nonneg (a b : nat) : 0 <= ratio a b.
Proof.
  unfold ratio. apply Qle_shift_div_l; [apply (of_int_max_pos b)|].
  rewrite Qmult_0_l. unfold Qle. simpl. lia.
Qed.

Lemma ratio_le_1 (a b : nat) : (a <= b)%nat -> ratio a b <= 1.
Proof.
  intros H. unfold ratio. apply Qle_shift_div_r; [apply (of_int_max_pos b)|].
  rewrite Qmult_1_l. unfold Qle. simpl. lia.
Qed.

Lemma ratio_eq_1 (a b : nat) : ratio a b == 1 <-> a = Nat.max b 1.
Proof.
  unfold ratio. split.
  - intros H. apply (Qmult_inj_r _ _ (inject_Z (Z.of_nat (Nat.max b 1)))) in H.
    + rewrite Qmult_1_l in H. unfold Qdiv in H.
      rewrite <- Qmult_assoc, (Qmult_comm (/ _)), Qmult_inv_r, Qmult_1_r in H.
      * unfold Qeq in H. simpl in H. lia.
      * intros E. pose proof (of_int_max_pos b) as P. unfold of_int in P.
        rewrite E in P. revert P. apply Qlt_irrefl.
    + intros E. pose proof (of_int_max_pos b) as P. unfold of_int in P.
      rewrite E in P. revert P. apply Qlt_irrefl.
  - intros ->. unfold Qdiv. apply Qmult_inv_r.
    intros E. pose proof (of_int_max_pos b) as P. unfold of_int in P.
    rewrite E in P. revert P. apply Qlt_irrefl.
Qed.

(** The value the code returns, with its guarded divisions carried out. *)
Lemma calculate_score_value (query_tokens : list string) (skill : RemoteSkill) :
  exists s, _calculate_score query_tokens skill = Ok s
            /\ s == score_formula (override_code query_tokens skill) query_tokens skill.
Proof.
  unfold _calculate_score. rewrite !py_div_max. cbn [bind].
  unfold py_div. change (Qeq_bool (22 # 10) 0) with false. cbn [bind].
  eexists. split; [reflexivity|].
  unfold score_formula, override_code, py_min, card_inter, set_inter, ratio, of_int.
  rewrite (String.eqb_sym (join " " query_tokens)).
  set (ov := (normalized_name skill =? join " " query_tokens)%string || _).
  set (n := inject_Z _ / inject_Z _).
  set (d := inject_Z _ / inject_Z _).
  set (k := inject_Z _ / inject_Z _).
  clearbody n d k. destruct ov; repeat destruct Qlt_le_dec; by_22; lra.
Qed.

Lemma score_formula_bounds (ov : bool) (query_tokens : list string) (skill : RemoteSkill) :
  0 <= score_formula ov query_tokens skill <= 1.
Proof.
  unfold score_formula.
  set (n := ratio _ (List.length (py_set (findall_lower 2 (normalized_name skill))))).
  set (d := ratio _ _). set (k := ratio _ _).
  assert (0 <= n) by apply ratio_nonneg.
  assert (0 <= d) by apply ratio_nonneg.
  assert (0 <= k) by apply ratio_nonneg.
  clearbody n d k. destruct ov; destruct Qlt_le_dec; by_22; lra.
Qed.

End ScorerFacts.

(** ** The arithmetic of the machine *)

Module FloatFacts.
Import external_registry Spec ScorerFacts.

(** The nearest integer is within a half. *)
Lemma round_half_even_close (y : Q) :
  y - (1 # 2) <= inject_Z (round_half_even y) /\ inject_Z (round_half_even y) <= y + (1 # 2).
Proof.
  unfold round_half_even.
  pose proof (Qfloor_le y) as Hlo. pose proof (Qlt_floor y) as Hhi.
  set (f := Qfloor y) in *.
  assert (E2 : inject_Z (f + 1) == inject_Z f + 1) by (rewrite inject_Z_plus; reflexivity).
  rewrite E2 in Hhi.
  destruct (Qcompare (y - inject_Z f) (1 # 2)) eqn:C.
  - apply Qeq_alt in C. destruct (Z.odd f); [rewrite E2|]; lra.
  - apply Qlt_alt in C. lra.
  - apply Qgt_alt in C. rewrite E2. lra.
Qed.

Lemma round_half_even_nonneg (y : Q) : 0 <= y -> (0 <= round_half_even y)%Z.
Proof.
  intros H. unfold round_half_even.
  assert (F : (0 <= Qfloor y)%Z).
  { change 0%Z with (Qfloor 0). now apply Qfloor_resp_le. }
  destruct (Qcompare (y - inject_Z (Qfloor y)) (1 # 2)); [destruct (Z.odd _)| |]; lia.
Qed.

(** Below 4 the exponent is 1 at most. *)
Lemma exponent_small (x : Q) : 0 < x -> x < 4 -> (exponent x <= 1)%Z.
Proof.
  intros Hp H4. unfold exponent.
  destruct (Qle_bool ((2 # 1) ^ (Z.log2 (Qnum x) - Z.log2 (Z.pos (Qden x)))) x) eqn:B.
  - apply Qle_bool_iff in B.
    destruct (Z_le_gt_dec (Z.log2 (Qnum x) - Z.log2 (Z.pos (Qden x))) 1) as [L | G]; [exact L|].
    exfalso.
    assert (P : (2 # 1) ^ 2 <= (2 # 1) ^ (Z.log2 (Qnum x) - Z.log2 (Z.pos (Qden x)))).
    { apply Qpower_le_compat_l; [lia | lra]. }
    change ((2 # 1) ^ 2) with ((2 # 1) * (2 # 1)) in P. lra.
  - assert (N : (Qnum x < 4 * Z.pos (Qden x))%Z).
    { unfold Qlt in H4. simpl in H4. lia. }
    assert (Np : (0 < Qnum x)%Z) by (unfold Qlt in Hp; simpl in Hp; lia).
    assert (L : (Z.log2 (Qnum x) <= Z.log2 (4 * Z.pos (Qden x)))%Z) by (apply Z.log2_le_mono; lia).
    replace (4 * Z.pos (Qden x))%Z with (Z.pos (Qden x) * 2 ^ 2)%Z in L by lia.
    rewrite Z.log2_mul_pow2 in L by lia. lia.
Qed.

(** A number from 0 to below 4 is moved by [2^-52] at most, and not below
    0. *)
Lemma binary64_bounds (x : Q) :
  0 <= x -> x < 4 ->
  0 <= binary64 x /\ x - rounding_error <= binary64 x /\ binary64 x <= x + rounding_error.
Proof.
  intros H0 H4. unfold binary64.
  destruct x as [n d]. destruct n as [|p|p].
  - cbn [Qnum]. unfold rounding_error. split; [lra|].
    assert (E : 0 # d == 0) by reflexivity. rewrite E. split; lra.
  - cbn [Qnum]. change (Qabs (Z.pos p # d)) with (Z.pos p # d).
    set (x := Z.pos p # d) in *.
    assert (Hp : 0 < x) by (unfold x, Qlt; simpl; lia).
    set (e := Z.max (exponent x) (-1022)).
    assert (He : (e <= 1)%Z).
    { unfold e. pose proof (@exponent_small x Hp H4). lia. }
    set (ulp := (2 # 1) ^ (e - 52)).
    assert (Up : 0 < ulp) by (apply Qpower_0_lt; reflexivity).
    assert (Ul : ulp <= 2 * rounding_error).
    { assert (P : ulp <= (2 # 1) ^ (1 - 52)) by (apply Qpower_le_compat_l; [lia | lra]).
      assert (V : (2 # 1) ^ (1 - 52) == 2 * rounding_error) by (vm_compute; reflexivity).
      rewrite V in P. exact P. }
    assert (B : Qle_bool (0 # 1) x = true) by (apply Qle_bool_iff; lra).
    rewrite B. rewrite Qred_correct.
    destruct (round_half_even_close (x / ulp)) as [Lo Hi].
    pose proof (@round_half_even_nonneg (x / ulp)) as Nn.
    assert (Y : x / ulp * ulp == x) by (field; lra).
    set (y := x / ulp) in *. set (m := inject_Z (round_half_even y)) in *.
    assert (M0 : 0 <= m).
    { unfold m. change 0 with (inject_Z 0). rewrite <- Zle_Qle. apply Nn.
      unfold y. apply Qle_shift_div_l; [exact Up | lra]. }
    assert (A1 : (y - (1 # 2)) * ulp <= m * ulp) by (apply Qmult_le_compat_r; lra).
    assert (A2 : m * ulp <= (y + (1 # 2)) * ulp) by (apply Qmult_le_compat_r; lra).
    assert (A0 : 0 <= m * ulp) by (apply Qmult_le_0_compat; lra).
    split; [exact A0|].
    assert (E1 : (y - (1 # 2)) * ulp == x - (1 # 2) * ulp) by (rewrite <- Y; ring).
    assert (E2 : (y + (1 # 2)) * ulp == x + (1 # 2) * ulp) by (rewrite <- Y; ring).
    rewrite E1 in A1. rewrite E2 in A2. split; lra.
  - exfalso. unfold Qle in H0. simpl in H0. lia.
Qed.

Lemma py_div_in_max (fl : Q -> Q) (a : Q) (n : nat) :
  py_div_in fl a (of_int (Nat.max n 1)) = Ok (fl (a / of_int (Nat.max n 1))).
Proof.
  unfold py_div_in. destruct (Qeq_bool (of_int (Nat.max n 1)) 0) eqn:E; [|reflexivity].
  apply Qeq_bool_eq in E. pose proof (of_int_max_pos n) as H. rewrite E in H.
  exfalso. revert H. apply Qlt_irrefl.
Qed.

(** The double [2.2] is not zero. *)
Lemma double_22_nonzero : Qeq_bool (binary64 (22 # 10)) 0 = false.
Proof. vm_compute. reflexivity. Qed.

Lemma overlap_le_query (q s : list string) : (List.length (set_inter q s) <= List.length q)%nat.
Proof. unfold set_inter. apply filter_length_le. Qed.

Lemma overlap_le_set (q s : list string) :
  NoDup q -> (List.length (set_inter q s) <= List.length s)%nat.
Proof.
  intros Hq. apply NoDup_incl_length.
  - unfold set_inter. now apply NoDup_filter.
  - intros x Hx. unfold set_inter in Hx. apply filter_In in Hx as [_ Hx]. now apply mem_In.
Qed.

Lemma quotient_unit (a b : nat) :
  (a <= b)%nat -> 0 <= of_int a / of_int (Nat.max b 1) /\ of_int a / of_int (Nat.max b 1) <= 1.
Proof.
  intros H. split; [apply (ratio_nonneg a b) | apply (@ratio_le_1 a b H)].
Qed.

(** The double the machine computes is within [2^-49] of the exact score. *)
Lemma calculate_score_double_close (q : list string) (skill : RemoteSkill) :
  NoDup q ->
  exists s s',
    _calculate_score q skill = Ok s
    /\ _calculate_score_double q skill = Ok s'
    /\ s - score_error <= s' /\ s' <= s + score_error.
Proof.
  intros Hq. unfold _calculate_score_double, _calculate_score_in, _calculate_score.
  rewrite !py_div_in_max, !py_div_max. cbn [bind].
  unfold py_div_in, py_div. rewrite double_22_nonzero.
  change (Qeq_bool (22 # 10) 0) with false. cbn [bind].
  do 2 eexists. split; [reflexivity|]. split; [reflexivity|].
  destruct (@quotient_unit
              (List.length (set_inter q (py_set (findall_lower 2 (normalized_name skill)))))
              (List.length (py_set (findall_lower 2 (normalized_name skill)))))
    as [n0 n1]; [now apply overlap_le_set|].
  destruct (@quotient_unit
              (List.length (set_inter q (py_set (findall_lower 2 (lower (description skill))))))
              (List.length q)) as [d0 d1]; [apply overlap_le_query|].
  destruct (@quotient_unit
              (List.length (set_inter q (py_set (keywords skill))))
              (List.length q)) as [k0 k1]; [apply overlap_le_query|].
  set (n := of_int (List.length (set_inter q (py_set (findall_lower 2 (normalized_name skill)))))
            / of_int _) in *.
  set (d := of_int (List.length
                      (set_inter q (py_set (findall_lower 2 (lower (description skill))))))
            / of_int _) in *.
  set (k := of_int (List.length (set_inter q (py_set (keywords skill)))) / of_int _) in *.
  clearbody n d k.
  replace (binary64 (7 # 10)) with (3152519739159347 # 4503599627370496)
    by (vm_compute; reflexivity).
  replace (binary64 (1 # 2)) with (1 # 2) by (vm_compute; reflexivity).
  replace (binary64 (22 # 10)) with (2476979795053773 # 1125899906842624)
    by (vm_compute; reflexivity).
  unfold score_error.
  destruct (@binary64_bounds n) as (N0 & N1 & N2); [lra | lra|].
  set (fn := binary64 n) in *. clearbody fn.
  destruct (@binary64_bounds (fn * 1)) as (M0 & M1 & M2); [unfold rounding_error in *; lra | unfold rounding_error in *; lra|].
  set (fm := binary64 (fn * 1)) in *. clearbody fm.
  destruct (@binary64_bounds d) as (D0 & D1 & D2); [lra | lra|].
  set (fd := binary64 d) in *. clearbody fd.
  destruct (@binary64_bounds (fd * (3152519739159347 # 4503599627370496))) as (E0 & E1 & E2);
    [unfold rounding_error in *; lra | unfold rounding_error in *; lra|].
  set (fe := binary64 (fd * _)) in *. clearbody fe.
  destruct (@binary64_bounds k) as (K0 & K1 & K2); [lra | lra|].
  set (fk := binary64 k) in *. clearbody fk.
  destruct (@binary64_bounds (fk * (1 # 2))) as (L0 & L1 & L2);
    [unfold rounding_error in *; lra | unfold rounding_error in *; lra|].
  set (fl := binary64 (fk * _)) in *. clearbody fl.
  set (ov := (normalized_name skill =? join " " q)%string || _). clearbody ov.
  set (nm := if ov then 1 else fm).
  assert (Nm : 0 <= nm /\ (if ov then 1 else n * 1) - 2 * rounding_error <= nm
               /\ nm <= (if ov then 1 else n * 1) + 2 * rounding_error).
  { unfold nm. destruct ov; unfold rounding_error in *; lra. }
  replace (if ov then 1 else fm) with nm by reflexivity.
  set (ne := if ov then 1 else n * 1) in *.
  assert (Ne : 0 <= ne /\ ne <= 1) by (unfold ne; destruct ov; lra).
  clearbody nm ne. destruct Nm as (Nm0 & Nm1 & Nm2). destruct Ne as [Ne0 Ne1].
  destruct (@binary64_bounds (nm + fe)) as (S0 & S1 & S2);
    [unfold rounding_error in *; lra | unfold rounding_error in *; lra|].
  set (fs := binary64 (nm + fe)) in *. clearbody fs.
  destruct (@binary64_bounds (fs + fl)) as (T0 & T1 & T2);
    [unfold rounding_error in *; lra | unfold rounding_error in *; lra|].
  set (ft := binary64 (fs + fl)) in *. clearbody ft.
  destruct (@binary64_bounds (ft / (2476979795053773 # 1125899906842624))) as (R0 & R1 & R2).
  { unfold Qdiv. change (/ (2476979795053773 # 1125899906842624))
      with (1125899906842624 # 2476979795053773). unfold rounding_error in *. lra. }
  { unfold Qdiv. change (/ (2476979795053773 # 1125899906842624))
      with (1125899906842624 # 2476979795053773). unfold rounding_error in *. lra. }
  set (fr := binary64 (ft / _)) in *. clearbody fr.
  unfold Qdiv in *. change (/ (2476979795053773 # 1125899906842624))
    with (1125899906842624 # 2476979795053773) in *.
  change (/ (22 # 10)) with (10 # 22) in *.
  unfold py_min, rounding_error in *. repeat destruct Qlt_le_dec; split; lra.
Qed.

End FloatFacts.


Module ScorerClaims.
Import external_registry Spec ScorerFacts.

Lemma override_off_on_empty_query (skill : RemoteSkill) :
  name skill <> EmptyString -> override_code [] skill = false.
Proof.
  intros Hname. unfold override_code, normalized_name. simpl join.
  assert (Hl : lower (name skill) <> EmptyString) by (now rewrite lower_empty).
  assert (Hr : replace "-" " " (lower (name skill)) <> EmptyString)
    by (now rewrite replace_space_empty).
  destruct (replace "-" " " (lower (name skill))) as [|a r] eqn:E; [congruence|].
  destruct (lower (name skill)) as [|b l]; [congruence|]. reflexivity.
Qed.

Lemma ratio_zero (b : nat) : ratio 0 b == 0.
Proof. unfold ratio, Qdiv. simpl Z.of_nat. apply Qmult_0_l. Qed.

(** C6.  For a record with a non-empty name the score of every query lies
    in [0, 1]: the three divisions are guarded by [max(n, 1)], so the call
    returns; and on the empty token set the score is 0. *)
Theorem score_range_and_empty_query (skill : RemoteSkill) :
  name skill <> EmptyString ->
  (forall query_tokens,
      exists s, _calculate_score query_tokens skill = Ok s /\ 0 <= s /\ s <= 1)
  /\ (exists s, _calculate_score [] skill = Ok s /\ s == 0).
Proof.
  intros Hname. split.
  - intros q. destruct (calculate_score_value q skill) as [s [E V]].
    exists s. split; [exact E|].
    pose proof (score_formula_bounds (override_code q skill) q skill) as [L U].
    rewrite V. split; assumption.
  - destruct (calculate_score_value [] skill) as [s [E V]].
    exists s. split; [exact E|].
    rewrite V, (override_off_on_empty_query skill Hname).
    unfold score_formula, card_inter. simpl filter. simpl List.length.
    pose proof (ratio_zero (List.length (py_set (findall_lower 2 (normalized_name skill))))) as Rn.
    pose proof (ratio_zero 0) as Rq.
    set (n := ratio 0 (List.length _)) in *. set (d := ratio 0 0) in *. clearbody n d.
    destruct Qlt_le_dec; by_22; lra.
Qed.

Lemma score_range_and_empty_query_witness :
  name Examples.pdf_plain <> EmptyString
  /\ (forall query_tokens,
        exists s, _calculate_score query_tokens Examples.pdf_plain = Ok s /\ 0 <= s /\ s <= 1)
  /\ (exists s, _calculate_score [] Examples.pdf_plain = Ok s /\ s == 0).
Proof.
  split; [discriminate|].
  apply (score_range_and_empty_query Examples.pdf_plain). discriminate.
Defined.

(** C2, as stated, fails: the name [pdf] is the whole query, its score is
    5/11 and not 1; with the description [pdf] the same name scores 17/22,
    so the score does depend on the description. *)
Lemma exact_name_match_below_one :
  normalized_name Examples.pdf_plain = join " " ["pdf"]
  /\ (exists s, _calculate_score ["pdf"] Examples.pdf_plain = Ok s
                /\ s == 5 # 11 /\ ~ s == 1)
  /\ (exists s, _calculate_score ["pdf"] Examples.pdf_described = Ok s
                /\ s == 17 # 22).
Proof.
  split; [reflexivity|]. split.
  - eexists. split; [vm_compute; reflexivity|]. split; [reflexivity|].
    intros H. vm_compute in H. discriminate.
  - eexists. split; [vm_compute; reflexivity|]. reflexivity.
Qed.

(** C2, amended.  When the normalized name equals the joined query the name
    component is 1, and the score is (1 + 0.7 d + 0.5 k) / 2.2 for the
    shares [d] and [k] of query tokens found in the description and in the
    keywords: at least 5/11, and 1 exactly when the query is not empty and
    each of its tokens is both a description token and a keyword. *)
Theorem exact_name_match_score (query_tokens : list string) (skill : RemoteSkill) :
  normalized_name skill = join " " query_tokens ->
  let desc_tokens := findall_lower 2 (lower (description skill)) in
  let d := ratio (card_inter query_tokens (py_set desc_tokens)) (List.length query_tokens) in
  let k := ratio (card_inter query_tokens (py_set (keywords skill))) (List.length query_tokens) in
  exists s, _calculate_score query_tokens skill = Ok s
    /\ s == (1 + d * (7 # 10) + k * (1 # 2)) / (22 # 10)
    /\ 5 # 11 <= s /\ s <= 1
    /\ (s == 1 <->
        query_tokens <> []
        /\ forall t, In t query_tokens -> In t desc_tokens /\ In t (keywords skill)).
Proof.
  intros Hexact. cbv zeta.
  destruct (calculate_score_value query_tokens skill) as [s [E V]].
  exists s. split; [exact E|].
  assert (Hov : override_code query_tokens skill = true).
  { unfold override_code. rewrite Hexact, String.eqb_refl. reflexivity. }
  rewrite Hov in V. unfold score_formula in V.
  set (desc_tokens := findall_lower 2 (lower (description skill))) in *.
  set (d := ratio (card_inter query_tokens (py_set desc_tokens)) (List.length query_tokens)) in *.
  set (k := ratio (card_inter query_tokens (py_set (keywords skill))) (List.length query_tokens)) in *.
  assert (Hd0 : 0 <= d) by apply ratio_nonneg.
  assert (Hk0 : 0 <= k) by apply ratio_nonneg.
  assert (Hd1 : d <= 1) by (apply ratio_le_1, filter_length_le).
  assert (Hk1 : k <= 1) by (apply ratio_le_1, filter_length_le).
  assert (Hd : d == 1 <-> card_inter query_tokens (py_set desc_tokens)
                          = Nat.max (List.length query_tokens) 1) by apply ratio_eq_1.
  assert (Hk : k == 1 <-> card_inter query_tokens (py_set (keywords skill))
                          = Nat.max (List.length query_tokens) 1) by apply ratio_eq_1.
  assert (Hs : s == (1 + d * (7 # 10) + k * (1 # 2)) / (22 # 10)).
  { rewrite V. clearbody d k. destruct Qlt_le_dec; by_22; lra. }
  split; [exact Hs|].
  assert (Hone : s == 1 <-> d == 1 /\ k == 1).
  { rewrite Hs. clear Hd Hk. clearbody d k. by_22.
    split; [intros H; split; lra | intros [H1 H2]; lra]. }
  split; [|split].
  - rewrite Hs. clear Hd Hk. clearbody d k. by_22. lra.
  - rewrite Hs. clear Hd Hk. clearbody d k. by_22. lra.
  - rewrite Hone, Hd, Hk. unfold card_inter.
    pose proof (filter_length_le (fun x => mem x (py_set desc_tokens)) query_tokens) as Ld.
    pose proof (filter_length_le (fun x => mem x (py_set (keywords skill))) query_tokens) as Lk.
    split.
    + intros [H1 H2].
      assert (Hlen : (1 <= List.length query_tokens)%nat) by lia.
      split; [destruct query_tokens; [simpl in Hlen; lia | discriminate]|].
      rewrite Nat.max_l in H1, H2 by lia.
      intros t Ht. split.
      * apply py_set_In, mem_In.
        exact (proj1 (filter_length_all _ _) H1 t Ht).
      * apply py_set_In, mem_In.
        exact (proj1 (filter_length_all _ _) H2 t Ht).
    + intros [Hne Hall].
      assert (Hlen : (1 <= List.length query_tokens)%nat)
        by (destruct query_tokens; [congruence | simpl; lia]).
      rewrite Nat.max_l by lia. split.
      * apply filter_length_all. intros t Ht. apply mem_In, py_set_In, Hall, Ht.
      * apply filter_length_all. intros t Ht. apply mem_In, py_set_In, Hall, Ht.
Qed.

Lemma exact_name_match_score_witness :
  normalized_name Examples.pdf_described = join " " ["pdf"]
  /\ exists s, _calculate_score ["pdf"] Examples.pdf_described = Ok s
    /\ 5 # 11 <= s /\ s <= 1.
Proof.
  split; [reflexivity|].
  destruct (exact_name_match_score ["pdf"] Examples.pdf_described eq_refl)
    as [s [E [_ [L [U _]]]]].
  exists s. split; [exact E|]. split; assumption.
Defined.

(** C3, as stated, fails: for the name [go-go] the normalized name [go go]
    is a substring of the joined query in both orders of the set
    [{gogo, gotogo}], so section 4.5 forces the name component to 1 and the
    score to 5/11; the code tests [go-go] itself, finds nothing and
    returns 0. *)
Lemma substring_override_counterexample :
  (exists s, _calculate_score ["gogo"; "gotogo"] Examples.go_go = Ok s
             /\ s == 0
             /\ score_spec ["gogo"; "gotogo"] Examples.go_go == 5 # 11)
  /\ (exists s, _calculate_score ["gotogo"; "gogo"] Examples.go_go = Ok s
                /\ s == 0
                /\ score_spec ["gotogo"; "gogo"] Examples.go_go == 5 # 11).
Proof.
  split; eexists; (split; [vm_compute; reflexivity|]); split; vm_compute; reflexivity.
Qed.

Lemma lower_char_hyphen (c : ascii) : Ascii.eqb (lower_char c) "-" = Ascii.eqb c "-".
Proof. destruct c as [[] [] [] [] [] [] [] []]; reflexivity. Qed.

(** Without a hyphen the normalized name is the lower-cased name. *)
Lemma normalized_name_plain (skill : RemoteSkill) :
  no_hyphen (name skill) = true -> normalized_name skill = lower (name skill).
Proof.
  unfold normalized_name, no_hyphen. induction (name skill) as [|c s IH]; [reflexivity|].
  cbn [all_chars lower replace]. intros H. apply andb_true_iff in H as [Hc Hs].
  rewrite lower_char_hyphen. apply negb_true_iff in Hc. rewrite Hc. now rewrite IH.
Qed.

(** C3, amended.  [_calculate_score] returns the value of the formula of
    section 4.5 -- the three ratios with their guarded denominators, the
    weights 1, 0.7 and 0.5, the division by 2.2 and the clamp at 1 -- where
    the name component is forced to 1 when the joined query equals the
    normalized name or contains the lower-cased name, hyphens kept.  For a
    name without a hyphen this is the formula as section 4.5 words it. *)
Theorem calculate_score_formula (query_tokens : list string) (skill : RemoteSkill) :
  exists s, _calculate_score query_tokens skill = Ok s
            /\ s == score_formula (override_code query_tokens skill) query_tokens skill
            /\ (no_hyphen (name skill) = true -> s == score_spec query_tokens skill).
Proof.
  destruct (calculate_score_value query_tokens skill) as [s [E V]].
  exists s. split; [exact E|]. split; [exact V|].
  intros H. rewrite V. unfold score_spec.
  assert (O : override_code query_tokens skill = override_spec query_tokens skill).
  { unfold override_code, override_spec. now rewrite (normalized_name_plain skill H). }
  rewrite O. reflexivity.
Qed.

End ScorerClaims.

(** ** The categorizer *)

Module CategorizerClaims.
Import external_registry Spec.

Lemma existsb_matches (text : string) (kws : list string) :
  existsb (fun kw => contains kw text) kws = true <-> matches text kws.
Proof.
  unfold matches. rewrite existsb_exists.
  split; intros [kw [Hin H]]; exists kw; (split; [exact Hin|]); now apply contains_spec.
Qed.

Lemma categorize_loop_first (text : string) (cats : list (string * list string)) (c : string) :
  first_category text cats c <-> categorize_loop text cats = c.
Proof.
  induction cats as [|[c0 kws] rest IH] in c |- *; simpl.
  - split; [intros H; now inversion H | intros <-; constructor].
  - destruct (existsb (fun kw => contains kw text) kws) eqn:E.
    + apply existsb_matches in E. split.
      * intros H. inversion H; subst; [reflexivity | contradiction].
      * intros <-. now constructor.
    + assert (N : ~ matches text kws).
      { intros M. apply existsb_matches in M. congruence. }
      split.
      * intros H. inversion H; subst; [contradiction | now apply IH].
      * intros H. apply fc_later; [exact N | now apply IH].
Qed.

Lemma categorize_loop_skips (text : string) (before after : list (string * list string))
      (c : string) (kws : list string) :
  Forall (fun ck => ~ matches text (snd ck)) before ->
  matches text kws ->
  categorize_loop text (before ++ (c, kws) :: after) = c.
Proof.
  intros Hb Hm. induction Hb as [|[c0 k0] before Hn _ IH]; simpl.
  - apply existsb_matches in Hm. now rewrite Hm.
  - destruct (existsb (fun kw => contains kw text) k0) eqn:E; [|exact IH].
    apply existsb_matches in E. simpl in Hn. contradiction.
Qed.

(** C8.  [_categorize] lower-cases the name and the description, joined by
    one space, and returns the first category, in the order the table
    declares them, one of whose keywords occurs in that text, [general]
    when none does.  Only the position in the table decides: a category
    wins as soon as no earlier one matches, whatever follows it. *)
Theorem categorize_first_in_declaration_order (name description : string) :
  let text := lower (name +++ " " +++ description) in
  (forall c, first_category text categories c <-> _categorize name description = c)
  /\ (forall before c kws after,
         categories = before ++ (c, kws) :: after ->
         Forall (fun ck => ~ matches text (snd ck)) before ->
         matches text kws ->
         _categorize name description = c).
Proof.
  intros text. split.
  - intros c. apply categorize_loop_first.
  - intros before c kws after Hcat Hb Hm. unfold _categorize. fold text.
    rewrite Hcat. now apply categorize_loop_skips.
Qed.

(** One keyword of the first category beats three of the third. *)
Example categorize_ignores_match_count :
  _categorize "report" "pdf with data, csv and chart" = "document-processing".
Proof. reflexivity. Qed.

(** The separating space counts: [co] and [de] do not make [code]. *)
Example categorize_separator :
  _categorize "co" "de" = "general" /\ _categorize "" "code" = "development".
Proof. split; reflexivity. Qed.

Lemma categorize_loop_in (text : string) (cats : list (string * list string)) :
  In (categorize_loop text cats) ("general" :: map fst cats).
Proof.
  induction cats as [|[c kws] rest IH]; simpl; [now left|].
  destruct (existsb _ kws); [right; now left|].
  destruct IH as [H | H]; [now left | right; now right].
Qed.

Lemma categorize_in_category_set (name description : string) :
  In (_categorize name description) category_set.
Proof.
  pose proof (categorize_loop_in (lower (name +++ " " +++ description)) categories) as H.
  unfold _categorize. simpl in H. unfold category_set. simpl. tauto.
Qed.

End CategorizerClaims.

(** ** The timestamp of the cache *)

Module DatetimeFacts.
Import Datetime Spec.

Lemma all_chars_app (p : ascii -> bool) (a b : string) :
  all_chars p (a +++ b) = all_chars p a && all_chars p b.
Proof. induction a as [|c a IH]; simpl; [reflexivity|]. now rewrite IH, andb_assoc. Qed.

Lemma all_chars_weaken (p q : ascii -> bool) (s : string) :
  (forall c, p c = true -> q c = true) -> all_chars p s = true -> all_chars q s = true.
Proof.
  intros H. induction s as [|c s IH]; simpl; [reflexivity|].
  rewrite !andb_true_iff. intros [Hc Hs]. split; [now apply H | now apply IH].
Qed.

Lemma length_app (a b : string) :
  String.length (a +++ b) = (String.length a + String.length b)%nat.
Proof. induction a as [|c a IH]; simpl; [reflexivity | now rewrite IH]. Qed.

Lemma app_assoc (a b c : string) : (a +++ b) +++ c = a +++ (b +++ c).
Proof. induction a as [|x a IH]; simpl; [reflexivity | now rewrite IH]. Qed.

Lemma take_app_exact (a b : string) : take (String.length a) (a +++ b) = a.
Proof. induction a as [|c a IH]; simpl; [now destruct b | now rewrite IH]. Qed.

Lemma drop_app_exact (a b : string) : drop (String.length a) (a +++ b) = b.
Proof. induction a as [|c a IH]; simpl; [reflexivity | exact IH]. Qed.

Lemma find_skip (p : ascii -> bool) (c : ascii) (a b : string) :
  all_chars p a = true -> p c = false ->
  find c (a +++ b) = option_map (Nat.add (String.length a)) (find c b).
Proof.
  intros Ha Hc. induction a as [|x a IH]; simpl.
  - now destruct (find c b).
  - simpl in Ha. apply andb_true_iff in Ha as [Hx Ha].
    destruct (Ascii.eqb x c) eqn:E.
    + apply Ascii.eqb_eq in E. congruence.
    + rewrite (IH Ha). now destruct (find c b).
Qed.

Lemma replace_app (c : ascii) (r a b : string) :
  replace c r (a +++ b) = replace c r a +++ replace c r b.
Proof.
  induction a as [|x a IH]; simpl; [reflexivity|].
  destruct (Ascii.eqb x c); rewrite IH; [now rewrite app_assoc | reflexivity].
Qed.

Lemma replace_absent (p : ascii -> bool) (c : ascii) (r s : string) :
  all_chars p s = true -> p c = false -> replace c r s = s.
Proof.
  intros Hs Hc. induction s as [|x s IH]; simpl; [reflexivity|].
  simpl in Hs. apply andb_true_iff in Hs as [Hx Hs].
  destruct (Ascii.eqb x c) eqn:E.
  - apply Ascii.eqb_eq in E. congruence.
  - now rewrite IH.
Qed.

Lemma digit_char_is_digit (n : Z) : is_digit (digit_char n) = true.
Proof.
  unfold is_digit, between, digit_char, code.
  pose proof (Z.mod_pos_bound n 10 ltac:(lia)) as B.
  rewrite nat_ascii_embedding by lia.
  apply andb_true_iff. split; apply Nat.leb_le; lia.
Qed.

Lemma fmt_digits (w : nat) (n : Z) : all_chars is_digit (fmt w n) = true.
Proof.
  revert n; induction w as [|w IH]; intros n; cbn [fmt]; [reflexivity|].
  rewrite all_chars_app, IH. cbn [all_chars andb]. now rewrite digit_char_is_digit.
Qed.

Lemma fmt_length (w : nat) (n : Z) : String.length (fmt w n) = w.
Proof.
  revert n; induction w as [|w IH]; intros n; cbn [fmt]; [reflexivity|].
  rewrite length_app, IH. cbn [String.length]. lia.
Qed.

Lemma digit_is_stamp (c : ascii) : is_digit c = true -> stamp_char c = true.
Proof. unfold stamp_char. now intros ->. Qed.

Lemma fmt_stamp (w : nat) (n : Z) : all_chars stamp_char (fmt w n) = true.
Proof. apply (all_chars_weaken is_digit); [exact digit_is_stamp | apply fmt_digits]. Qed.

Lemma fmt_time (w : nat) (n : Z) : all_chars time_char (fmt w n) = true.
Proof.
  apply (all_chars_weaken is_digit); [|apply fmt_digits].
  unfold time_char. now intros ? ->.
Qed.

Lemma format_time_chars (hh mm ss us : Z) :
  all_chars time_char (_format_time hh mm ss us) = true.
Proof.
  unfold _format_time. rewrite !all_chars_app, !fmt_time. cbn [all_chars].
  change (time_char ":") with true. cbn [andb].
  destruct (us =? 0)%Z; [reflexivity|].
  change ("." +++ fmt 6 us) with (String "." (fmt 6 us)). cbn [all_chars].
  rewrite fmt_time. reflexivity.
Qed.

Lemma time_is_stamp (c : ascii) : time_char c = true -> stamp_char c = true.
Proof.
  unfold time_char, stamp_char. intros H.
  apply orb_true_iff in H as [H | H]; [apply orb_true_iff in H as [H | H]|];
    rewrite H; repeat rewrite orb_true_r; reflexivity.
Qed.

Lemma format_time_stamp (hh mm ss us : Z) :
  all_chars stamp_char (_format_time hh mm ss us) = true.
Proof. apply (all_chars_weaken time_char); [exact time_is_stamp | apply format_time_chars]. Qed.

(** The date [isoformat] writes has the shape of a date. *)
Lemma format_date_shape (y m d : Z) :
  date_shape (fmt 4 y +++ "-" +++ fmt 2 m +++ "-" +++ fmt 2 d) = true.
Proof.
  unfold date_shape, slice, char_is. cbn -[is_digit digit_char].
  rewrite !digit_char_is_digit. reflexivity.
Qed.

(** The first sign of a time followed by an offset is the sign of the
    offset. *)
Lemma first_sign_skip (t rest : string) :
  all_chars time_char t = true ->
  first_sign (t +++ String "+" rest) = Some (String.length t).
Proof.
  induction t as [|x t IH]; cbn [append all_chars first_sign String.length]; [reflexivity|].
  intros H. apply andb_true_iff in H as [Hx Ht].
  assert (S : is_sign x = false).
  { unfold time_char, is_digit, between in Hx. unfold is_sign.
    destruct (Ascii.eqb x "+") eqn:E1.
    - apply Ascii.eqb_eq in E1. subst x. discriminate Hx.
    - destruct (Ascii.eqb x "-") eqn:E2; [|reflexivity].
      apply Ascii.eqb_eq in E2. subst x. discriminate Hx. }
  rewrite S, (IH Ht). reflexivity.
Qed.

Lemma format_time_length (hh mm ss us : Z) :
  (2 <= String.length (_format_time hh mm ss us))%nat.
Proof. unfold _format_time. rewrite length_app, fmt_length. lia. Qed.

(** A time followed by two offsets is not a time. *)
Lemma time_with_two_offsets (t : string) :
  all_chars stamp_char t = true -> (2 <= String.length t)%nat ->
  _parse_isoformat_time (t +++ "+00:00+00:00") = None.
Proof.
  intros Ht Hlen. unfold _parse_isoformat_time.
  assert (Hl : (String.length (t +++ "+00:00+00:00") <? 2)%nat = false).
  { apply Nat.ltb_ge. rewrite length_app. lia. }
  rewrite Hl.
  assert (Hpos : tz_position (t +++ "+00:00+00:00") = S (String.length t)).
  { unfold tz_position.
    rewrite (find_skip stamp_char "-" t "+00:00+00:00" Ht eq_refl). simpl find. simpl option_map.
    rewrite (find_skip stamp_char "+" t "+00:00+00:00" Ht eq_refl). simpl.
    now rewrite Nat.add_0_r. }
  rewrite Hpos. cbn [Nat.ltb Nat.leb].
  replace (S (String.length t) - 1)%nat with (String.length t) by lia.
  rewrite take_app_exact.
  destruct (_parse_hh_mm_ss_ff t) as [[[[hh mm] ss] us]|]; [|reflexivity].
  change (t +++ "+00:00+00:00") with (t +++ String "+" "00:00+00:00").
  replace (drop (S (String.length t)) (t +++ String "+" "00:00+00:00"))
    with "00:00+00:00"; [reflexivity|].
  clear. induction t as [|c t IH]; simpl; [reflexivity | exact IH].
Qed.

(** The stamp [_save_cache] writes, after the [replace] of [load_index]. *)
Lemma saved_stamp_shape (c : datetime) :
  exists d t,
    String.length d = 10%nat /\ date_shape d = true
    /\ all_chars time_char t = true /\ (2 <= String.length t)%nat
    /\ replace "Z" "+00:00" (isoformat (now_utc c) +++ "Z")
       = d +++ "T" +++ t +++ "+00:00+00:00".
Proof.
  set (d := fmt 4 (year c) +++ "-" +++ fmt 2 (month c) +++ "-" +++ fmt 2 (day c)).
  set (t := _format_time (hour c) (minute c) (second c) (microsecond c)).
  exists d, t. split; [|split; [|split; [|split]]].
  - unfold d. rewrite !length_app, !fmt_length. reflexivity.
  - apply format_date_shape.
  - apply format_time_chars.
  - apply format_time_length.
  - assert (E : isoformat (now_utc c) = d +++ "T" +++ t +++ "+00:00").
    { unfold isoformat, now_utc, d, t.
      cbn [year month day hour minute second microsecond utcoffset].
      change (_format_offset (Some 0%Z)) with "+00:00".
      rewrite !app_assoc. reflexivity. }
    rewrite E, !app_assoc.
    assert (Hd : all_chars iso_char d = true).
    { assert (W : forall w n, all_chars iso_char (fmt w n) = true).
      { intros w n. apply (all_chars_weaken is_digit); [|apply fmt_digits].
        unfold iso_char, stamp_char. now intros ? ->. }
      unfold d. rewrite !all_chars_app, !W. reflexivity. }
    assert (Ht : all_chars iso_char t = true).
    { apply (all_chars_weaken stamp_char); [unfold iso_char; now intros ? -> | apply format_time_stamp]. }
    rewrite (replace_app "Z" "+00:00" d), (replace_absent iso_char "Z" "+00:00" d Hd eq_refl).
    change ("T" +++ t +++ "+00:00" +++ "Z") with (String "T" (t +++ "+00:00Z")).
    cbn [replace]. change (Ascii.eqb "T" "Z") with false. cbn iota.
    rewrite (replace_app "Z" "+00:00" t), (replace_absent iso_char "Z" "+00:00" t Ht eq_refl).
    reflexivity.
Qed.

Lemma saved_stamp_parts (d t : string) :
  String.length d = 10%nat ->
  slice 0 10 (d +++ "T" +++ t +++ "+00:00+00:00") = d
  /\ drop 11 (d +++ "T" +++ t +++ "+00:00+00:00") = t +++ "+00:00+00:00".
Proof.
  intros Hd. split.
  - unfold slice. cbn [drop]. change (10 - 0)%nat with 10%nat. rewrite <- Hd. apply take_app_exact.
  - change 11%nat with (S 10). rewrite <- Hd. clear.
    induction d as [|x d IH]; simpl; [reflexivity | exact IH].
Qed.

(** What [_save_cache] wrote is a time with two offsets ... *)
Lemma saved_stamp_two_offsets (c : datetime) :
  two_offsets (replace "Z" "+00:00" (isoformat (now_utc c) +++ "Z")) = true.
Proof.
  destruct (saved_stamp_shape c) as [d [t [Hd [Hshape [Ht [Hlen ->]]]]]].
  unfold two_offsets.
  destruct (saved_stamp_parts d t Hd) as [-> ->].
  rewrite Hshape. cbn [andb].
  change (t +++ "+00:00+00:00") with (t +++ String "+" "00:00+00:00").
  rewrite (first_sign_skip t "00:00+00:00" Ht), take_app_exact, Ht. cbn [andb].
  replace (drop (S (String.length t)) (t +++ String "+" "00:00+00:00"))
    with "00:00+00:00"; [reflexivity|].
  clear. induction t as [|x t IH]; simpl; [reflexivity | exact IH].
Qed.

(** ... which [fromisoformat] rejects, whatever the version of the
    library. *)
Lemma saved_stamp_rejected (other : string -> option datetime) (c : datetime) :
  fromisoformat other (replace "Z" "+00:00" (isoformat (now_utc c) +++ "Z"))
  = Raise ValueError.
Proof. unfold fromisoformat. now rewrite saved_stamp_two_offsets. Qed.

(** The parser of 3.10 rejects it at the second offset. *)
Lemma saved_stamp_rejected_3_10 (c : datetime) :
  fromisoformat_3_10 (replace "Z" "+00:00" (isoformat (now_utc c) +++ "Z")) = None.
Proof.
  destruct (saved_stamp_shape c) as [d [t [Hd [_ [Ht [Hlen ->]]]]]].
  unfold fromisoformat_3_10.
  destruct (saved_stamp_parts d t Hd) as [-> ->].
  destruct (_parse_isoformat_date d) as [[[y m] dd]|]; [|reflexivity].
  rewrite (time_with_two_offsets t (@all_chars_weaken time_char stamp_char t time_is_stamp Ht) Hlen).
  destruct t as [|x t]; [simpl in Hlen; lia | reflexivity].
Qed.

End DatetimeFacts.

(** ** The cache *)

Module CacheClaims.
Import external_registry DatetimeFacts.

Lemma as_strs_of_strings (l : list string) : Json.as_strs (map Json.JStr l) = Ok l.
Proof. induction l as [|x l IH]; simpl; [reflexivity | now rewrite IH]. Qed.

(** The eight fields [to_dict] writes are the eight [RemoteSkill] reads. *)
Lemma kwargs_of_to_dict (skill : RemoteSkill) : RemoteSkill_kwargs (to_dict skill) = Ok skill.
Proof.
  destruct skill as [n d s u c k r x]. unfold RemoteSkill_kwargs, to_dict.
  cbn -[Json.as_strs]. rewrite as_strs_of_strings. reflexivity.
Qed.

Lemma saved_stamp_member (w : World) (saved : index) (default : Json.json) :
  Json.dict_get (cache_data w saved) "updated" default
  = Ok (Json.JStr (Datetime.isoformat (Datetime.now_utc (clock w)) +++ "Z")).
Proof. reflexivity. Qed.

(** C1: the defect.  [_save_cache] stamps the envelope with
    [isoformat() + "Z"] of an aware datetime, which already ends in
    [+00:00]; [load_index] turns the [Z] into a second [+00:00], and
    [fromisoformat] raises the [ValueError] that the cache branch swallows.
    Whatever was saved, and at whatever time it is read, the cache branch
    falls through and the records are not read back. *)
Theorem saved_cache_is_not_read_back (w : World) (saved current : index) (c : Datetime.datetime) :
  read_cache (at_time c (_save_cache w saved)) current = Ok None.
Proof.
  unfold read_cache, cache_file, at_time, _save_cache, Json.json_dumps.
  cbn [cache_dir clock other_formats Json.json_loads bind].
  rewrite (saved_stamp_member w saved). cbn [bind replace_method].
  rewrite saved_stamp_rejected. reflexivity.
Qed.

(** The defect at work: an index of one record is saved at midnight; an hour
    later, with no bundled index and no network, a new registry object
    loads nothing. *)
Example save_then_load_loses_the_index :
  let w := at_time Examples.one_o_clock
             (_save_cache (Examples.offline Examples.midnight None) Examples.pdf_index) in
  exists self' w',
    load_index w __init__ false = Ok (0%nat, self', w') /\ skills self' = [].
Proof. do 2 eexists. split; [vm_compute; reflexivity | reflexivity]. Qed.

(** With a stamp that [fromisoformat] accepts the same envelope is read
    back, record for record. *)
Example plain_stamp_is_read_back :
  exists self' w',
    load_index (Examples.offline Examples.one_o_clock (Some Examples.envelope_with_plain_stamp))
               __init__ false
    = Ok (1%nat, self', w')
    /\ skills self' = Examples.pdf_index.
Proof. do 2 eexists. split; [vm_compute; reflexivity | reflexivity]. Qed.

End CacheClaims.

(** ** Sorting and dicts *)

Section SortFacts.
Variable A : Type.
Variable before : A -> A -> bool.

Lemma insert_sorted_perm (x : A) (l : list A) :
  Permutation (insert_sorted before x l) (x :: l).
Proof.
  induction l as [|y l IH]; simpl; [reflexivity|].
  destruct (before x y); [reflexivity|].
  rewrite IH. apply perm_swap.
Qed.

Lemma stable_sort_perm (l : list A) : Permutation (stable_sort before l) l.
Proof.
  induction l as [|x l IH]; simpl; [reflexivity|].
  rewrite insert_sorted_perm. now constructor.
Qed.

Hypothesis before_total : forall x y, before x y = true \/ before y x = true.
Hypothesis before_trans :
  forall x y z, before x y = true -> before y z = true -> before x z = true.

Lemma insert_sorted_sorted (x : A) (l : list A) :
  StronglySorted (fun a b => before a b = true) l ->
  StronglySorted (fun a b => before a b = true) (insert_sorted before x l).
Proof.
  induction 1 as [|y l Hs IH Hy]; simpl; [repeat constructor|].
  destruct (before x y) eqn:E.
  - constructor; [now constructor|].
    constructor; [exact E|].
    rewrite Forall_forall in *. intros z Hz. eapply before_trans; [exact E | now apply Hy].
  - constructor; [exact IH|].
    rewrite Forall_forall in *. intros z Hz.
    apply (Permutation_in _ (insert_sorted_perm x l)) in Hz.
    destruct Hz as [<- | Hz]; [|now apply Hy].
    destruct (before_total x y) as [H | H]; [congruence | exact H].
Qed.

Lemma stable_sort_sorted (l : list A) :
  StronglySorted (fun a b => before a b = true) (stable_sort before l).
Proof.
  induction l as [|x l IH]; simpl; [constructor | now apply insert_sorted_sorted].
Qed.
End SortFacts.

Module DictFacts.
Import external_registry Spec.

Lemma dict_has_lookup (k : string) (d : index) :
  dict_has k d = false <-> dict_lookup k d = None.
Proof. unfold dict_has. destruct (dict_lookup k d); split; congruence. Qed.

Lemma dict_lookup_keys (k : string) (d : index) :
  dict_lookup k d = None <-> ~ In k (map fst d).
Proof.
  induction d as [|[k' v] d IH]; simpl; [tauto|].
  destruct (String.eqb k k') eqn:E.
  - apply String.eqb_eq in E. subst. split; [discriminate | tauto].
  - apply String.eqb_neq in E. rewrite IH. split; [intros H [H1 | H1]; congruence + tauto | tauto].
Qed.

Lemma dict_lookup_In (k : string) (v : RemoteSkill) (d : index) :
  dict_lookup k d = Some v -> In (k, v) d.
Proof.
  induction d as [|[k' v'] d IH]; simpl; [discriminate|].
  destruct (String.eqb k k') eqn:E.
  - apply String.eqb_eq in E. intros H. injection H as ->. subst. now left.
  - intros H. right. now apply IH.
Qed.

Lemma In_dict_lookup (k : string) (v : RemoteSkill) (d : index) :
  NoDup (map fst d) -> In (k, v) d -> dict_lookup k d = Some v.
Proof.
  induction d as [|[k' v'] d IH]; simpl; [tauto|].
  intros Hnd [H | H].
  - injection H as -> ->. now rewrite String.eqb_refl.
  - inversion Hnd as [|? ? Hk Hd]; subst.
    destruct (String.eqb k k') eqn:E; [|now apply IH].
    apply String.eqb_eq in E. subst. exfalso. apply Hk.
    change k' with (fst (k', v)). now apply in_map.
Qed.

(** Setting a key that is not there appends the item. *)
Lemma dict_set_absent (k : string) (v : RemoteSkill) (d : index) :
  dict_lookup k d = None -> dict_set k v d = d ++ [(k, v)].
Proof.
  induction d as [|[k' v'] d IH]; simpl; [reflexivity|].
  destruct (String.eqb k k'); [discriminate|]. intros H. now rewrite IH.
Qed.

Lemma add_absent_cases (skills : index) (kv : string * RemoteSkill) :
  (dict_lookup (fst kv) skills <> None /\ add_absent skills kv = skills)
  \/ (dict_lookup (fst kv) skills = None /\ add_absent skills kv = skills ++ [kv]).
Proof.
  unfold add_absent, dict_has. destruct (dict_lookup (fst kv) skills) eqn:E.
  - left. split; [discriminate | reflexivity].
  - right. split; [reflexivity|]. rewrite dict_set_absent by exact E. now destruct kv.
Qed.

Lemma dict_lookup_app (x : string) (d e : index) :
  dict_lookup x (d ++ e) =
  match dict_lookup x d with Some v => Some v | None => dict_lookup x e end.
Proof.
  induction d as [|[k v] d IH]; simpl; [reflexivity|].
  destruct (String.eqb x k); [reflexivity | exact IH].
Qed.

Lemma lookup_add_all (x : string) (c : list (string * RemoteSkill)) (skills : index) :
  dict_lookup x (fold_left add_absent c skills) =
  match dict_lookup x skills with Some v => Some v | None => first_named x c end.
Proof.
  revert skills; induction c as [|[k v] c IH]; intros skills; simpl.
  - now destruct (dict_lookup x skills).
  - rewrite IH. destruct (add_absent_cases skills (k, v)) as [[Hk ->] | [Hk ->]]; simpl in Hk.
    + destruct (dict_lookup x skills) eqn:E; [reflexivity|].
      destruct (String.eqb x k) eqn:Ex; [|reflexivity].
      apply String.eqb_eq in Ex. subst. congruence.
    + rewrite dict_lookup_app. destruct (dict_lookup x skills) eqn:E; [reflexivity|].
      simpl. now destruct (String.eqb x k).
Qed.

Lemma is_index_add_all (c : list (string * RemoteSkill)) (skills : index) :
  Forall (fun kv => fst kv = name (snd kv)) c ->
  is_index skills -> is_index (fold_left add_absent c skills).
Proof.
  intros Hc. revert skills. induction Hc as [|kv c Hkv _ IH]; intros skills Hs; simpl; [exact Hs|].
  apply IH. destruct (add_absent_cases skills kv) as [[_ ->] | [Hk ->]]; [exact Hs|].
  destruct Hs as [Hnd Hw]. split.
  - rewrite map_app. simpl. apply NoDup_rev in Hnd.
    rewrite <- (rev_involutive (map fst skills ++ [fst kv])). apply NoDup_rev.
    rewrite rev_app_distr. simpl. constructor; [|exact Hnd].
    rewrite <- in_rev. now apply dict_lookup_keys.
  - apply Forall_app. split; [exact Hw | now constructor].
Qed.

Lemma count_name_one (x : string) (v : RemoteSkill) (d : index) :
  NoDup (map fst d) -> dict_lookup x d = Some v -> count_name x d = 1%nat.
Proof.
  unfold count_name. induction d as [|[k v'] d IH]; simpl; [discriminate|].
  intros Hnd. inversion Hnd as [|? ? Hk Hd]; subst.
  destruct (String.eqb x k) eqn:E.
  - intros _. simpl. f_equal. apply String.eqb_eq in E. subst.
    apply dict_lookup_keys in Hk. clear -Hk.
    induction d as [|[k' v''] d IH]; simpl in *; [reflexivity|].
    destruct (String.eqb k k'); [discriminate | now apply IH].
  - intros H. now apply IH.
Qed.

End DictFacts.

(** ** The index built from the registries *)

Module NetworkFacts.
Import external_registry Spec DictFacts.

Lemma index_directories_candidates (w : World) (r : Registry) (branch : string)
      (dirs : list string) (skills : index) (k : nat) :
  fst (index_directories w r branch dirs skills k)
  = fold_left add_absent (candidates w r branch dirs) skills.
Proof.
  revert skills k; induction dirs as [|d dirs IH]; intros skills k; [reflexivity|].
  cbn [index_directories candidates]. unfold candidate.
  destruct (mem d denylist); [apply IH|].
  destruct (_fetch_skill_md w (reg_owner r) (reg_repo r) d branch) as [content|]; [|apply IH].
  destruct (Json.falsy (Some content)); [apply IH|].
  destruct (_parse_skill_frontmatter content) as [[[|a n]|] description]; try apply IH.
  cbn [fold_left]. unfold add_absent at 2. cbn [fst snd].
  destruct (dict_has (String a n) skills); cbn [negb]; apply IH.
Qed.

Lemma index_github_registry_contribution (w : World) (r : Registry) (skills skills' : index)
      (n : nat) :
  _index_github_registry w r skills = Ok (skills', n) ->
  exists c, contribution w r = Ok c /\ skills' = fold_left add_absent c skills.
Proof.
  unfold _index_github_registry, contribution.
  destruct (_parse_github_tree w (reg_owner r) (reg_repo r) (branch_of r)) as [dirs|e];
    cbn [bind]; [|discriminate].
  intros H. injection H as H. exists (candidates w r (branch_of r) dirs).
  split; [reflexivity|].
  rewrite <- (index_directories_candidates w r (branch_of r) dirs skills 0), H. reflexivity.
Qed.

Lemma contribution_index_github_registry (w : World) (r : Registry) (skills : index)
      (c : list (string * RemoteSkill)) :
  contribution w r = Ok c ->
  exists n, _index_github_registry w r skills = Ok (fold_left add_absent c skills, n).
Proof.
  unfold _index_github_registry, contribution.
  destruct (_parse_github_tree w (reg_owner r) (reg_repo r) (branch_of r)) as [dirs|e];
    cbn [bind]; [|discriminate].
  intros H. injection H as <-.
  exists (snd (index_directories w r (branch_of r) dirs skills 0)).
  rewrite <- (index_directories_candidates w r (branch_of r) dirs skills 0).
  now destruct index_directories.
Qed.

Lemma defines_first_named (w : World) (r : Registry) (x : string) (s : RemoteSkill) :
  defines w r x s <-> exists c, contribution w r = Ok c /\ first_named x c = Some s.
Proof.
  unfold defines. split.
  - intros [idx [n [H L]]]. apply index_github_registry_contribution in H as [c [Hc ->]].
    exists c. split; [exact Hc|]. now rewrite lookup_add_all in L.
  - intros [c [Hc L]]. destruct (contribution_index_github_registry w r [] Hc) as [n H].
    exists (fold_left add_absent c []), n. split; [exact H|]. now rewrite lookup_add_all.
Qed.

(** Every candidate is stored under the name of its record, and the
    record satisfies the invariants of section 3. *)
Lemma extract_loop_inv (words keywords seen : list string) :
  NoDup keywords -> (forall k, In k keywords -> In k seen) ->
  (List.length keywords < 15)%nat ->
  NoDup (extract_loop words keywords seen)
  /\ (List.length (extract_loop words keywords seen) <= 15)%nat.
Proof.
  revert keywords seen; induction words as [|word rest IH]; intros keywords seen Hnd Hsub Hlen.
  - simpl. split; [exact Hnd | lia].
  - cbn [extract_loop].
    destruct (negb (mem word stopwords) && negb (mem word seen)) eqn:E; [|now apply IH].
    apply andb_true_iff in E as [_ E]. apply negb_true_iff in E.
    assert (Hnew : ~ In word keywords).
    { intros Hin. apply Hsub, mem_In in Hin. congruence. }
    assert (Hnd' : NoDup (keywords ++ [word])).
    { apply NoDup_rev in Hnd. rewrite <- (rev_involutive (keywords ++ [word])).
      apply NoDup_rev. rewrite rev_app_distr. simpl. constructor; [|exact Hnd].
      now rewrite <- in_rev. }
    assert (Hl : List.length (keywords ++ [word]) = S (List.length keywords))
      by (rewrite length_app; simpl; lia).
    destruct (15 <=? List.length (keywords ++ [word]))%nat eqn:L.
    + split; [exact Hnd' | lia].
    + apply Nat.leb_gt in L. apply IH; [exact Hnd' | | exact L].
      intros k Hk. apply in_app_or in Hk as [Hk | [<- | []]]; [right; now apply Hsub | now left].
Qed.

Lemma extract_keywords_inv (text : string) :
  NoDup (_extract_keywords text) /\ (List.length (_extract_keywords text) <= 15)%nat.
Proof.
  unfold _extract_keywords. apply extract_loop_inv; [constructor | intros k [] | simpl; lia].
Qed.

Lemma make_skill_inv (r : Registry) (branch dir_name : string) (a : ascii) (n : string)
      (description : option string) :
  record_inv (make_skill r branch dir_name (String a n) description).
Proof.
  unfold record_inv, make_skill. cbn [name keywords category].
  split; [discriminate|].
  destruct (extract_keywords_inv (String a n +++ " " +++ or_default description EmptyString))
    as [Hnd Hlen].
  split; [exact Hlen|]. split; [exact Hnd|].
  apply CategorizerClaims.categorize_in_category_set.
Qed.

Lemma candidate_inv (w : World) (r : Registry) (branch d : string) (kv : string * RemoteSkill) :
  candidate w r branch d = Some kv -> fst kv = name (snd kv) /\ record_inv (snd kv).
Proof.
  unfold candidate. destruct (mem d denylist); [discriminate|].
  destruct (_fetch_skill_md w (reg_owner r) (reg_repo r) d branch) as [content|]; [|discriminate].
  destruct (Json.falsy (Some content)); [discriminate|].
  destruct (_parse_skill_frontmatter content) as [[[|a n]|] description]; try discriminate.
  intros H. injection H as <-. cbn [fst snd]. split; [reflexivity | apply make_skill_inv].
Qed.

Lemma candidates_inv (w : World) (r : Registry) (branch : string) (dirs : list string) :
  Forall (fun kv => fst kv = name (snd kv) /\ record_inv (snd kv)) (candidates w r branch dirs).
Proof.
  induction dirs as [|d dirs IH]; cbn [candidates]; [constructor|].
  destruct (candidate w r branch d) as [kv|] eqn:E; [|exact IH].
  constructor; [now apply (candidate_inv w r branch d) | exact IH].
Qed.

Lemma contribution_inv (w : World) (r : Registry) (c : list (string * RemoteSkill)) :
  contribution w r = Ok c ->
  Forall (fun kv => fst kv = name (snd kv) /\ record_inv (snd kv)) c.
Proof.
  unfold contribution.
  destruct (_parse_github_tree w (reg_owner r) (reg_repo r) (branch_of r)); cbn [bind];
    [|discriminate].
  intros H. injection H as <-. apply candidates_inv.
Qed.

Lemma add_all_record_inv (c : list (string * RemoteSkill)) (skills : index) :
  Forall (fun kv => record_inv (snd kv)) c ->
  Forall record_inv (values skills) ->
  Forall record_inv (values (fold_left add_absent c skills)).
Proof.
  intros Hc. revert skills. induction Hc as [|kv c Hkv _ IH]; intros skills Hs; simpl; [exact Hs|].
  apply IH. destruct (add_absent_cases skills kv) as [[_ ->] | [_ ->]]; [exact Hs|].
  unfold values. rewrite map_app. apply Forall_app. split; [exact Hs|].
  simpl. constructor; [exact Hkv | constructor].
Qed.

(** What the loop over the registries leaves in the index. *)
Lemma index_registries_spec (w : World) (regs : list Registry) (skills merged : index) :
  index_registries w regs skills = Ok merged ->
  (forall x, dict_lookup x merged
             = match dict_lookup x skills with
               | Some v => Some v
               | None => first_definition w x regs
               end)
  /\ (is_index skills -> is_index merged)
  /\ (Forall record_inv (values skills) -> Forall record_inv (values merged))
  /\ (forall r, In r regs -> github r -> exists c, contribution w r = Ok c).
Proof.
  revert skills; induction regs as [|r regs IH]; intros skills H; cbn [index_registries] in H.
  - injection H as <-. split; [|split; [|split]]; try tauto.
    + intros x. now destruct (dict_lookup x skills).
    + intros r [].
  - cbn [first_definition]. unfold github in *.
    destruct (String.eqb (reg_type r) "github") eqn:T.
    + destruct (_index_github_registry w r skills) as [[skills' n]|e] eqn:E;
        cbn [bind] in H; [|discriminate].
      apply index_github_registry_contribution in E as [c [Hc ->]].
      pose proof (contribution_inv w r Hc) as Hinv.
      destruct (IH _ H) as [L [I [R C]]]. rewrite Hc. split; [|split; [|split]].
      * intros x. rewrite L, lookup_add_all.
        destruct (dict_lookup x skills); [reflexivity|]. now destruct (first_named x c).
      * intros Hs. apply I, is_index_add_all; [|exact Hs].
        eapply Forall_impl; [|exact Hinv]. now intros kv [].
      * intros Hs. apply R, add_all_record_inv; [|exact Hs].
        eapply Forall_impl; [|exact Hinv]. now intros kv [].
      * intros r' [<- | Hr'] G; [now exists c | now apply C].
    + destruct (IH _ H) as [L [I [R C]]]. split; [|split; [|split]]; try assumption.
      intros r' [<- | Hr'] G; [|now apply C].
      apply String.eqb_neq in T. congruence.
Qed.

(** The registries are read through [fetch] and nothing else. *)
Lemma index_directories_fetch (w1 w2 : World) (r : Registry) (branch : string)
      (dirs : list string) (skills : index) (k : nat) :
  fetch w1 = fetch w2 ->
  index_directories w1 r branch dirs skills k = index_directories w2 r branch dirs skills k.
Proof.
  intros H. revert skills k; induction dirs as [|d dirs IH]; intros skills k; [reflexivity|].
  cbn [index_directories]. unfold _fetch_skill_md. rewrite H.
  destruct (mem d denylist); [apply IH|].
  destruct (fetch w2 _) as [content|]; [|apply IH].
  destruct (Json.falsy (Some content)); [apply IH|].
  destruct (_parse_skill_frontmatter content) as [[[|a n]|] description]; try apply IH.
  destruct (negb (dict_has (String a n) skills)); apply IH.
Qed.

Lemma index_github_registry_fetch (w1 w2 : World) (r : Registry) (skills : index) :
  fetch w1 = fetch w2 ->
  _index_github_registry w1 r skills = _index_github_registry w2 r skills.
Proof.
  intros H. unfold _index_github_registry.
  assert (P : _parse_github_tree w1 (reg_owner r) (reg_repo r) (branch_of r)
              = _parse_github_tree w2 (reg_owner r) (reg_repo r) (branch_of r))
    by (unfold _parse_github_tree; now rewrite H).
  rewrite P. destruct (_parse_github_tree w2 _ _ _) as [dirs|e]; cbn [bind]; [|reflexivity].
  f_equal. now apply index_directories_fetch.
Qed.

Lemma index_registries_fetch (w1 w2 : World) (regs : list Registry) (skills : index) :
  fetch w1 = fetch w2 -> index_registries w1 regs skills = index_registries w2 regs skills.
Proof.
  intros H. revert skills; induction regs as [|r regs IH]; intros skills; [reflexivity|].
  cbn [index_registries]. destruct (String.eqb (reg_type r) "github"); [|apply IH].
  rewrite index_github_registry_fetch with (w2 := w2) by exact H.
  destruct (_index_github_registry w2 r skills) as [[skills' n]|e]; cbn [bind];
    [apply IH | reflexivity].
Qed.

(** *** The cache directory *)

Lemma ensure_cache_dir_reads (w : World) :
  clock (_ensure_cache_dir w) = clock w
  /\ cache_file (_ensure_cache_dir w) = cache_file w
  /\ bundled_files (_ensure_cache_dir w) = bundled_files w
  /\ fetch (_ensure_cache_dir w) = fetch w
  /\ other_formats (_ensure_cache_dir w) = other_formats w.
Proof.
  unfold _ensure_cache_dir, cache_file.
  destruct (cache_dir w) eqn:D; cbn; rewrite ?D; repeat split.
Qed.

(** With the directory there, [mkdir] changes nothing ... *)
Lemma ensure_cache_dir_there (w : World) (file : option Json.text) :
  cache_dir w = Directory file -> _ensure_cache_dir w = w.
Proof. unfold _ensure_cache_dir. now intros ->. Qed.

Lemma ensure_cache_dir_file (w : World) (t : Json.text) :
  cache_file w = Some t -> _ensure_cache_dir w = w.
Proof.
  unfold cache_file. destruct (cache_dir w) as [|file] eqn:D; [discriminate|].
  intros _. exact (ensure_cache_dir_there w D).
Qed.

(** ... and after it the directory is there. *)
Lemma ensure_cache_dir_made (w : World) :
  cache_dir (_ensure_cache_dir w) = Directory (cache_file w).
Proof.
  unfold _ensure_cache_dir, cache_file.
  destruct (cache_dir w) eqn:D; cbn; rewrite ?D; reflexivity.
Qed.

Lemma save_cache_ensured (w : World) (skills : index) :
  _save_cache (_ensure_cache_dir w) skills = _save_cache w skills.
Proof. unfold _save_cache, cache_data, _ensure_cache_dir. now destruct (cache_dir w) eqn:D. Qed.

Lemma read_cache_ensured (w : World) (skills : index) :
  read_cache (_ensure_cache_dir w) skills = read_cache w skills.
Proof.
  unfold read_cache. destruct (ensure_cache_dir_reads w) as [-> [-> [_ [_ ->]]]]. reflexivity.
Qed.

(** [load_index], with the reads of the world before [mkdir]: the cache
    branch, else the bundled index and the registries; [mkdir] shows in the
    world returned. *)
Lemma load_index_steps (w : World) (self : ExternalRegistry) (force_refresh : bool) :
  load_index w self force_refresh
  = (cached <- (if negb force_refresh then read_cache w (skills self) else Ok None) ;;
     match cached with
     | Some skills' => Ok (List.length skills', loaded self skills', _ensure_cache_dir w)
     | None =>
         '(bundled_loaded, skills1) <- _load_bundled_index (bundled_files w) (skills self) ;;
         skills2 <- (if force_refresh || negb bundled_loaded
                     then index_registries w (sorted_registries (registries self)) skills1
                     else Ok skills1) ;;
         Ok (List.length skills2, loaded self skills2, persisted w skills2)
     end).
Proof.
  unfold load_index. cbv zeta. rewrite read_cache_ensured.
  destruct (if negb force_refresh then read_cache w (skills self) else Ok None)
    as [[skills'|]|e]; cbn [bind]; try reflexivity.
  destruct (ensure_cache_dir_reads w) as [_ [_ [-> [F _]]]].
  destruct (_load_bundled_index (bundled_files w) (skills self)) as [[b skills1]|e];
    cbn [bind]; [|reflexivity].
  rewrite (index_registries_fetch (_ensure_cache_dir w) w _ _ F).
  destruct (if force_refresh || negb b
            then index_registries w (sorted_registries (registries self)) skills1
            else Ok skills1) as [skills2|e]; cbn [bind]; [|reflexivity].
  unfold persisted, loaded. now rewrite save_cache_ensured.
Qed.

End NetworkFacts.

Module LoadClaims.
Import external_registry Spec DictFacts NetworkFacts.

Lemma sorted_registries_perm (regs : list Registry) :
  Permutation (sorted_registries regs) regs.
Proof. apply stable_sort_perm. Qed.

Lemma sorted_registries_sorted (regs : list Registry) :
  StronglySorted (fun a b => (priority_of a <= priority_of b)%Z) (sorted_registries regs).
Proof.
  assert (H : StronglySorted (fun a b => by_priority a b = true) (sorted_registries regs)).
  { apply stable_sort_sorted.
    - intros x y. unfold by_priority. rewrite !Z.leb_le. lia.
    - intros x y z. unfold by_priority. rewrite !Z.leb_le. lia. }
  induction H as [|a l _ IH Ha]; constructor; [exact IH|].
  eapply Forall_impl; [|exact Ha]. intros b Hb. now apply Z.leb_le.
Qed.

Lemma defines_functional (w : World) (r : Registry) (x : string) (s s' : RemoteSkill) :
  defines w r x s -> defines w r x s' -> s = s'.
Proof.
  intros [i [n [H L]]] [i' [n' [H' L']]]. rewrite H in H'. injection H' as <- _. congruence.
Qed.

(** In a list sorted by priority the first registry to define a name is
    the one that no other definer precedes. *)
Lemma first_definition_lowest (w : World) (x : string) (r1 : Registry) (s1 : RemoteSkill)
      (l : list Registry) :
  StronglySorted (fun a b => (priority_of a <= priority_of b)%Z) l ->
  In r1 l -> github r1 -> defines w r1 x s1 ->
  (forall r s, In r l -> github r -> defines w r x s ->
               r = r1 \/ (priority_of r1 < priority_of r)%Z) ->
  (forall r, In r l -> github r -> exists c, contribution w r = Ok c) ->
  first_definition w x l = Some s1.
Proof.
  intros Hs. induction Hs as [|r l Hs IH Hr]; intros Hin G1 D1 Hmin Hok; [destruct Hin|].
  cbn [first_definition].
  assert (Hrest : r <> r1 -> first_definition w x l = Some s1).
  { intros Hne. apply IH; try assumption.
    - destruct Hin as [E | Hin]; [congruence | exact Hin].
    - intros r' s' Hr' G' D'. apply (Hmin r' s'); [now right | exact G' | exact D'].
    - intros r' Hr' G'. apply Hok; [now right | exact G']. }
  destruct (String.eqb (reg_type r) "github") eqn:T.
  - apply String.eqb_eq in T.
    destruct (Hok r (or_introl eq_refl) T) as [c Hc]. rewrite Hc.
    destruct (first_named x c) as [s|] eqn:F.
    + assert (D : defines w r x s) by (apply defines_first_named; now exists c).
      destruct (Hmin r s (or_introl eq_refl) T D) as [-> | Hlt].
      * f_equal. exact (defines_functional D D1).
      * exfalso. destruct Hin as [-> | Hin]; [lia|].
        rewrite Forall_forall in Hr. specialize (Hr r1 Hin). lia.
    + apply Hrest. intros ->.
      apply defines_first_named in D1 as [c1 [Hc1 F1]]. congruence.
  - apply Hrest. intros ->. apply String.eqb_neq in T. exact (T G1).
Qed.

Lemma defines_name (w : World) (r : Registry) (x : string) (s : RemoteSkill) :
  defines w r x s -> name s = x.
Proof.
  intros D. apply defines_first_named in D as [c [Hc F]].
  pose proof (contribution_inv w r Hc) as Hinv. clear Hc.
  induction c as [|[k v] c IH]; simpl in F; [discriminate|].
  inversion Hinv as [|? ? [Hk _] Hrest]; subst.
  destruct (String.eqb x k) eqn:E; [|now apply IH].
  apply String.eqb_eq in E. injection F as <-. simpl in Hk. congruence.
Qed.

(** C5, as stated, fails: the loop over the registries starts from the
    records of the bundled index, which [_index_github_registry] does not
    replace.  Both registries define [pdf-tools], and so does the bundled
    index: after a refresh the record under that name is the bundled one,
    and neither the record of the registry with the lower priority number
    nor the other one is in the index. *)
Lemma bundled_record_outlives_both_registries :
  exists n self' w',
    refresh Examples.online_with_bundle __init__ = Ok (n, self', w')
    /\ defines Examples.online_with_bundle Examples.awesome "pdf-tools"
               Examples.pdf_tools_awesome
    /\ defines Examples.online_with_bundle Examples.anthropic "pdf-tools"
               Examples.pdf_tools_anthropic
    /\ (priority_of Examples.awesome < priority_of Examples.anthropic)%Z
    /\ dict_lookup "pdf-tools" (skills self') = Some Examples.pdf_tools_bundled
    /\ count_name "pdf-tools" (skills self') = 1%nat
    /\ ~ In Examples.pdf_tools_awesome (values (skills self'))
    /\ ~ In Examples.pdf_tools_anthropic (values (skills self')).
Proof.
  do 3 eexists. split; [vm_compute; reflexivity|].
  split; [do 2 eexists; split; vm_compute; reflexivity|].
  split; [do 2 eexists; split; vm_compute; reflexivity|].
  split; [reflexivity|]. split; [vm_compute; reflexivity|]. split; [vm_compute; reflexivity|].
  split; cbn; intuition discriminate.
Qed.

(** C5, amended.  Let two GitHub registries both define the skill [x], the
    first with the lower priority number and ahead of every other registry
    that defines [x].  The index merged from the registries in ascending
    priority order, on top of the records [init] already there (none at a
    first load without bundled index, those of the bundled index
    otherwise), has exactly one record under [x]: the one [init] holds
    under [x], and when it holds none, the one of the first registry.  A
    record of the two registries that is not this one is nowhere in the
    index. *)
Theorem lower_priority_number_wins
        (w : World) (regs : list Registry) (init merged : index) (x : string)
        (r1 r2 : Registry) (s1 s2 : RemoteSkill) :
  is_index init ->
  index_registries w (sorted_registries regs) init = Ok merged ->
  In r1 regs -> In r2 regs -> github r1 -> github r2 ->
  (priority_of r1 < priority_of r2)%Z ->
  defines w r1 x s1 -> defines w r2 x s2 ->
  (forall r s, In r regs -> github r -> defines w r x s ->
               r = r1 \/ (priority_of r1 < priority_of r)%Z) ->
  let kept := match dict_lookup x init with Some s0 => s0 | None => s1 end in
  dict_lookup x merged = Some kept
  /\ count_name x merged = 1%nat
  /\ (forall s, In s (values merged) -> name s = x -> s = kept)
  /\ (s1 <> kept -> ~ In s1 (values merged))
  /\ (s2 <> kept -> ~ In s2 (values merged)).
Proof.
  intros Hinit Hm In1 In2 G1 G2 Hlt D1 D2 Hmin kept.
  destruct (index_registries_spec w _ _ Hm) as [L [I [_ C]]].
  specialize (I Hinit). destruct I as [Hnd Hkeys].
  assert (Hl : dict_lookup x merged = Some kept).
  { rewrite L. unfold kept. destruct (dict_lookup x init) as [s0|]; [reflexivity|].
    apply (first_definition_lowest (r1 := r1)); try assumption.
    - apply sorted_registries_sorted.
    - apply (Permutation_in _ (Permutation_sym (sorted_registries_perm regs))), In1.
    - intros r s Hr. apply Hmin. apply (Permutation_in _ (sorted_registries_perm regs)), Hr. }
  assert (Hone : forall s, In s (values merged) -> name s = x -> s = kept).
  { intros s Hs Hn. unfold values in Hs. apply in_map_iff in Hs as [[k v] [E Hkv]].
    simpl in E. subst v. rewrite Forall_forall in Hkeys.
    pose proof (Hkeys _ Hkv) as Hk. simpl in Hk. subst k.
    rewrite Hn in Hkv. apply In_dict_lookup in Hkv; [congruence | exact Hnd]. }
  split; [exact Hl|]. split; [now apply count_name_one with (v := kept)|]. split; [exact Hone|].
  split; intros Hne Hin; apply Hne, Hone; try exact Hin;
    [exact (defines_name D1) | exact (defines_name D2)].
Qed.

Lemma lower_priority_number_wins_witness :
  index_registries Examples.online (sorted_registries KNOWN_REGISTRIES) []
  = Ok Examples.network_index
  /\ defines Examples.online Examples.awesome "pdf-tools" Examples.pdf_tools_awesome
  /\ defines Examples.online Examples.anthropic "pdf-tools" Examples.pdf_tools_anthropic
  /\ dict_lookup "pdf-tools" Examples.network_index = Some Examples.pdf_tools_awesome
  /\ count_name "pdf-tools" Examples.network_index = 1%nat
  /\ ~ In Examples.pdf_tools_anthropic (values Examples.network_index).
Proof.
  assert (Hm : index_registries Examples.online (sorted_registries KNOWN_REGISTRIES) []
               = Ok Examples.network_index) by (vm_compute; reflexivity).
  assert (D1 : defines Examples.online Examples.awesome "pdf-tools" Examples.pdf_tools_awesome).
  { do 2 eexists. split; vm_compute; reflexivity. }
  assert (D2 : defines Examples.online Examples.anthropic "pdf-tools" Examples.pdf_tools_anthropic).
  { do 2 eexists. split; vm_compute; reflexivity. }
  destruct (@lower_priority_number_wins Examples.online KNOWN_REGISTRIES [] Examples.network_index
              "pdf-tools" Examples.awesome Examples.anthropic
              Examples.pdf_tools_awesome Examples.pdf_tools_anthropic) as [L [C [_ [_ N]]]].
  - split; constructor.
  - exact Hm.
  - now left.
  - right. now left.
  - reflexivity.
  - reflexivity.
  - reflexivity.
  - exact D1.
  - exact D2.
  - intros r s [<- | [<- | []]] _ _; [now left | right; reflexivity].
  - repeat split; try assumption. apply N. discriminate.
Defined.

Lemma load_bundled_none (w : World) (skills : index) :
  no_bundled_index w -> _load_bundled_index (bundled_files w) skills = Ok (false, skills).
Proof.
  unfold no_bundled_index. induction 1 as [|f l Hf _ IH]; [reflexivity|].
  cbn [_load_bundled_index]. destruct f as [t|]; [|exact IH]. now rewrite Hf.
Qed.





(** C7, as stated, fails on two of the three load paths: a bundled index
    and a fresh cache are stored as they are read, here with an empty name,
    a category outside the taxonomy and a repeated keyword. *)
Lemma unchecked_records_are_loaded :
  (exists n self' w',
      load_index Examples.offline_with_unchecked_bundle __init__ false = Ok (n, self', w')
      /\ values (skills self') = [Examples.unchecked])
  /\ (exists n self' w' s,
         load_index (Examples.offline Examples.one_o_clock (Some Examples.cache_unchecked))
                    __init__ false = Ok (n, self', w')
         /\ values (skills self') = [s]
         /\ name s = EmptyString /\ category s = "misc" /\ keywords s = ["pdf"; "pdf"])
  /\ ~ record_inv Examples.unchecked.
Proof.
  split; [|split].
  - do 3 eexists. split; vm_compute; reflexivity.
  - do 4 eexists. split; [vm_compute; reflexivity|]. repeat split.
  - intros [H _]. now apply H.
Qed.

(** C7, amended.  On the path that rebuilds from the network -- no cache
    taken, no bundled index read -- every record of the index satisfies the
    invariants of section 3, provided those already in memory did: the name
    is not empty, the keywords are at most 15 and distinct, the category is
    one of the nine. *)
Theorem network_rebuild_satisfies_invariants
        (w : World) (self : ExternalRegistry) (force_refresh : bool)
        (n : nat) (self' : ExternalRegistry) (w' : World) :
  no_bundled_index w ->
  force_refresh = true \/ read_cache w (skills self) = Ok None ->
  Forall record_inv (values (skills self)) ->
  load_index w self force_refresh = Ok (n, self', w') ->
  Forall record_inv (values (skills self')).
Proof.
  intros Hb Hc Hinv. rewrite load_index_steps.
  assert (E : (if negb force_refresh then read_cache w (skills self) else Ok None) = Ok None).
  { destruct Hc as [-> | Hc]; [reflexivity|]. now destruct force_refresh. }
  rewrite E. cbn [bind]. rewrite (load_bundled_none (skills self) Hb). cbn [bind negb].
  rewrite orb_true_r.
  destruct (index_registries w (sorted_registries (registries self)) (skills self))
    as [merged|e] eqn:M; cbn [bind]; [|discriminate].
  intros H. injection H as _ <- _. cbn [skills].
  destruct (index_registries_spec w _ _ M) as [_ [_ [R _]]]. now apply R.
Qed.

Lemma network_rebuild_satisfies_invariants_witness :
  no_bundled_index Examples.online
  /\ load_index Examples.online __init__ false
     = Ok (2%nat, loaded __init__ Examples.network_index,
           persisted Examples.online Examples.network_index)
  /\ Forall record_inv (values Examples.network_index).
Proof.
  assert (Hb : no_bundled_index Examples.online) by (repeat constructor).
  assert (Hl : load_index Examples.online __init__ false
               = Ok (2%nat, loaded __init__ Examples.network_index,
                     persisted Examples.online Examples.network_index))
    by (vm_compute; reflexivity).
  split; [exact Hb|]. split; [exact Hl|].
  exact (@network_rebuild_satisfies_invariants Examples.online __init__ false _ _ _
           Hb (or_intror eq_refl) (Forall_nil _) Hl).
Defined.

End LoadClaims.

(** ** Search and recommendation *)

Module SearchFacts.
Import external_registry Spec FloatFacts.

Lemma take_cut_at (n : nat) (s : string) : cut_at n s (take n s).
Proof.
  unfold cut_at. revert s; induction n as [|n IH]; intros s.
  - destruct s; simpl; (split; [eexists; reflexivity | reflexivity]).
  - destruct s as [|a s]; simpl; [split; [now exists EmptyString | reflexivity]|].
    destruct (IH s) as [[rest E] L]. split; [exists rest; now rewrite <- E | now rewrite L].
Qed.

Lemma round3_thousandth (x : Q) : exists k : Z, round3 x = (k # 1000).
Proof. unfold round3. eexists. reflexivity. Qed.

(** [round3] moves a number by half a thousandth at most. *)
Lemma round3_close (x : Q) : x - (1 # 2000) <= round3 x /\ round3 x <= x + (1 # 2000).
Proof.
  unfold round3.
  pose proof (Qfloor_le (x * 1000)) as Hlo.
  pose proof (Qlt_floor (x * 1000)) as Hhi.
  set (f := Qfloor (x * 1000)) in *.
  assert (E1 : forall k : Z, (k # 1000) == inject_Z k * (1 # 1000)).
  { intros k. unfold Qeq, inject_Z, Qmult. simpl. lia. }
  assert (E2 : inject_Z (f + 1) == inject_Z f + 1).
  { rewrite inject_Z_plus. reflexivity. }
  rewrite E2 in Hhi.
  destruct (x * 1000 - inject_Z f ?= 1 # 2) eqn:C.
  - apply Qeq_alt in C. destruct (Z.odd f); rewrite E1; [rewrite E2|]; lra.
  - apply Qlt_alt in C. rewrite E1. lra.
  - apply Qgt_alt in C. rewrite E1, E2. lra.
Qed.

Lemma slice_to_incl {A : Type} (n : Z) (l : list A) (x : A) : In x (slice_to n l) -> In x l.
Proof.
  unfold slice_to. destruct (0 <=? n)%Z; intros H.
  - rewrite <- (firstn_skipn (Z.to_nat n) l). apply in_or_app. now left.
  - rewrite <- (firstn_skipn (List.length l - Z.to_nat (- n)) l). apply in_or_app. now left.
Qed.

Lemma sort_by_score_perm (l : list result) : Permutation (sort_by_score l) l.
Proof. apply stable_sort_perm. Qed.

Lemma sort_by_score_sorted (l : list result) :
  StronglySorted (fun a b => score_of b <= score_of a) (sort_by_score l).
Proof.
  assert (H : StronglySorted
                (fun a b => Qle_bool (score_of b) (score_of a) = true) (sort_by_score l)).
  { apply stable_sort_sorted.
    - intros x y. rewrite !Qle_bool_iff.
      destruct (Qlt_le_dec (score_of x) (score_of y)) as [H | H];
        [right; now apply Qlt_le_weak | now left].
    - intros x y z. rewrite !Qle_bool_iff. intros H1 H2. eapply Qle_trans; eassumption. }
  induction H as [|a m _ IH Ha]; constructor; [exact IH|].
  eapply Forall_impl; [|exact Ha]. intros b Hb. now apply Qle_bool_iff.
Qed.


(** In exact arithmetic the function is the one of the specification. *)
Lemma calculate_score_in_exact (query_tokens : list string) (skill : RemoteSkill) :
  _calculate_score_in (fun x => x) query_tokens skill = _calculate_score query_tokens skill.
Proof. reflexivity. Qed.

(** On doubles too every division is guarded: the function returns. *)
Lemma calculate_score_double_returns (query_tokens : list string) (skill : RemoteSkill) :
  exists s, _calculate_score_double query_tokens skill = Ok s.
Proof.
  unfold _calculate_score_double, _calculate_score_in. rewrite !py_div_in_max. cbn [bind].
  unfold py_div_in. rewrite double_22_nonzero. cbn [bind]. eexists. reflexivity.
Qed.

Lemma Forall2_in_r {A B : Type} (P : A -> B -> Prop) (l : list A) (m : list B) (b : B) :
  Forall2 P l m -> In b m -> exists a, In a l /\ P a b.
Proof.
  induction 1 as [|x y l m Hxy _ IH]; intros Hb; [destruct Hb|].
  destruct Hb as [<- | Hb]; [exists x; split; [now left | exact Hxy]|].
  destruct (IH Hb) as [a [Ha Pa]]. exists a. split; [now right | exact Pa].
Qed.

Lemma Forall2_in_l {A B : Type} (P : A -> B -> Prop) (l : list A) (m : list B) (a : A) :
  Forall2 P l m -> In a l -> exists b, In b m /\ P a b.
Proof.
  induction 1 as [|x y l m Hxy _ IH]; intros Ha; [destruct Ha|].
  destruct Ha as [<- | Ha]; [exists y; split; [now left | exact Hxy]|].
  destruct (IH Ha) as [b [Hb Pb]]. exists b. split; [now right | exact Pb].
Qed.

Lemma Forall2_same_length {A B : Type} (P : A -> B -> Prop) (l : list A) (m : list B) :
  Forall2 P l m -> List.length l = List.length m.
Proof. induction 1; simpl; congruence. Qed.

(** The loop of [search] returns: one result for each record that passes,
    in the order of the index. *)
Lemma search_loop_spec (query_tokens : list string) (threshold : Q) (l : list RemoteSkill) :
  exists results,
    search_loop query_tokens threshold l = Ok results
    /\ Forall2 (kept_as query_tokens threshold) (filter (passes query_tokens threshold) l) results.
Proof.
  induction l as [|skill l [results [E H]]]; cbn [search_loop filter].
  - exists []. split; [reflexivity | constructor].
  - destruct (calculate_score_double_returns query_tokens skill) as [score Es].
    unfold passes at 1. rewrite Es, E. cbn [bind].
    destruct (Qle_bool threshold score) eqn:T.
    + eexists. split; [reflexivity|]. constructor; [|exact H].
      exists score. split; [exact Es|]. split; [now apply Qle_bool_iff | repeat split].
    + exists results. split; [reflexivity | exact H].
Qed.

Lemma filter_incl {A : Type} (f : A -> bool) (l : list A) (x : A) :
  In x (filter f l) -> In x l.
Proof. intros H. now apply filter_In in H. Qed.

(** Each result is the one of a record of the index that passes. *)
Lemma answer_sound (query_tokens : list string) (top_n : Z) (threshold : Q)
      (l : list RemoteSkill) (results : list result) (r : result) :
  answer_of query_tokens top_n threshold l results -> In r results ->
  exists skill, In skill l /\ kept_as query_tokens threshold skill r.
Proof.
  intros [N K] Hr. destruct query_tokens as [|t ts].
  - rewrite (N eq_refl) in Hr. destruct Hr.
  - destruct K as [rs [F ->]]; [discriminate|].
    apply slice_to_incl in Hr. apply (Permutation_in _ (sort_by_score_perm rs)) in Hr.
    destruct (@Forall2_in_r _ _ _ _ _ r F Hr) as [skill [Hin P]].
    exists skill. split; [now apply filter_incl in Hin | exact P].
Qed.

(** The answer has [min(top_n, kept)] results, and one for every record
    that passes when these are [top_n] at most. *)
Lemma answer_complete (query_tokens : list string) (top_n : Z) (threshold : Q)
      (l : list RemoteSkill) (results : list result) :
  answer_of query_tokens top_n threshold l results ->
  query_tokens <> [] -> (0 <= top_n)%Z ->
  let kept := filter (passes query_tokens threshold) l in
  List.length results = Nat.min (Z.to_nat top_n) (List.length kept)
  /\ ((List.length kept <= Z.to_nat top_n)%nat ->
      Permutation (map r_name results) (map (fun s => Some (name s)) kept)
      /\ forall skill, In skill kept ->
           exists r, In r results /\ kept_as query_tokens threshold skill r).
Proof.
  intros [_ K] Hq Hn kept. destruct (K Hq) as [rs [F ->]]. fold kept in F.
  assert (S : slice_to top_n (sort_by_score rs) = firstn (Z.to_nat top_n) (sort_by_score rs)).
  { unfold slice_to. destruct (0 <=? top_n)%Z eqn:Z; [reflexivity | lia]. }
  pose proof (Permutation_length (sort_by_score_perm rs)) as PL.
  pose proof (@Forall2_same_length _ _ _ _ _ F) as FL.
  rewrite S. split; [rewrite length_firstn; lia|].
  intros Hfit. rewrite firstn_all2 by lia. split.
  - transitivity (map r_name rs); [apply Permutation_map, sort_by_score_perm|].
    assert (E : map r_name rs = map (fun s => Some (name s)) kept); [|now rewrite E].
    clear - F. clearbody kept. induction F as [|skill r l0 m [score [_ [_ [Hname _]]]] _ IH]; simpl;
      [reflexivity | now rewrite Hname, IH].
  - intros skill Hin. destruct (@Forall2_in_l _ _ _ _ _ skill F Hin) as [r [Hr P]].
    exists r. split; [|exact P].
    apply (Permutation_in _ (Permutation_sym (sort_by_score_perm rs))), Hr.
Qed.

Section WithHash.
Variable str_hash : string -> Z.

Lemma tokens_of_none (query : string) :
  findall_lower 2 (lower query) = [] -> tokens_of str_hash query = [].
Proof. unfold tokens_of. now intros ->. Qed.

(** The tokens of a query are a set. *)
Lemma tokens_of_NoDup (query : string) : NoDup (tokens_of str_hash query).
Proof.
  unfold tokens_of, set_iter.
  apply (Permutation_NoDup (Permutation_sym (stable_sort_perm _ _))), py_set_NoDup.
Qed.

Lemma search_after_load (w : World) (self : ExternalRegistry) (query : string)
      (top_n : Z) (threshold : Q) :
  exists results,
    (let query_tokens := set_iter str_hash (py_set (findall_lower 2 (lower query))) in
     match query_tokens with
     | [] => Ok ([], self, w)
     | _ => results <- search_loop query_tokens threshold (values (skills self)) ;;
            Ok (slice_to top_n (sort_by_score results), self, w)
     end) = Ok (results, self, w)
    /\ answer_of (tokens_of str_hash query) top_n threshold (values (skills self)) results.
Proof.
  cbv zeta. fold (tokens_of str_hash query).
  destruct (tokens_of str_hash query) as [|t ts] eqn:T.
  - exists []. split; [reflexivity|]. split; [reflexivity | congruence].
  - destruct (search_loop_spec (t :: ts) threshold (values (skills self))) as [rs [E H]].
    rewrite E. cbn [bind]. eexists. split; [reflexivity|]. split; [discriminate|].
    intros _. now exists rs.
Qed.

(** [search] on an index that is in memory. *)
Lemma search_in_memory (w : World) (self : ExternalRegistry) (query : string)
      (top_n : Z) (threshold : Q) :
  _index_loaded self = true ->
  exists results,
    search str_hash w self query top_n threshold = Ok (results, self, w)
    /\ answer_of (tokens_of str_hash query) top_n threshold (values (skills self)) results.
Proof.
  intros L. unfold search. rewrite L. cbn [negb bind].
  apply search_after_load.
Qed.

(** [search], whatever it had to load first. *)
Lemma search_spec (w : World) (self : ExternalRegistry) (query : string)
      (top_n : Z) (threshold : Q) (results : list result)
      (self' : ExternalRegistry) (w' : World) :
  search str_hash w self query top_n threshold = Ok (results, self', w') ->
  answer_of (tokens_of str_hash query) top_n threshold (values (skills self')) results.
Proof.
  unfold search.
  destruct (if negb (_index_loaded self)
            then ' (_, self'0, w'0) <- load_index w self false;; Ok (self'0, w'0)
            else Ok (self, w)) as [[self1 w1]|e]; cbn [bind]; [|discriminate].
  destruct (search_after_load w1 self1 query top_n threshold) as [rs [E A]].
  cbv zeta in E. rewrite E. intros H. injection H as <- <- <-. exact A.
Qed.
End WithHash.

End SearchFacts.

Module SearchClaims.
Import external_registry Spec SearchFacts.

(** C10.  Each result of [ExternalRegistry.search] is made from a record
    of the index whose score reaches the threshold: it carries the name of
    the record, the first 200 characters of its description and, as its
    score, [round(score, 3)] -- the double nearest to a thousandth that is
    within half a thousandth of the score.  The score is the one the
    machine computes, on doubles, which is within [2^-49] of the score in
    exact arithmetic.  A query without a token -- no run of two
    or more lower-case letters standing as a word, once lower-cased --
    yields the empty list before any record is looked at.  With the index
    in memory the call returns; for a query with a token it returns
    [min(top_n, kept)] results, and one for every record that passes the
    threshold when these are [top_n] at most. *)
Theorem search_truncates_and_rounds
        (str_hash : string -> Z) (w : World) (self : ExternalRegistry) (query : string)
        (top_n : Z) (threshold : Q) :
  (_index_loaded self = true ->
   exists results, search str_hash w self query top_n threshold = Ok (results, self, w))
  /\ forall results self' w',
      search str_hash w self query top_n threshold = Ok (results, self', w') ->
      let query_tokens := tokens_of str_hash query in
      let kept := filter (passes query_tokens threshold) (values (skills self')) in
      (forall r, In r results ->
         exists skill score,
           In skill kept
           /\ _calculate_score_double query_tokens skill = Ok score
           /\ (exists exact,
                 _calculate_score query_tokens skill = Ok exact
                 /\ exact - score_error <= score /\ score <= exact + score_error)
           /\ r_name r = Some (name skill)
           /\ r_description r = Some (take 200 (description skill))
           /\ cut_at 200 (description skill) (take 200 (description skill))
           /\ r_score r = Some (py_round3 score)
           /\ exists k : Z,
                py_round3 score = binary64 (k # 1000)
                /\ score - (1 # 2000) <= k # 1000 /\ k # 1000 <= score + (1 # 2000))
      /\ (findall_lower 2 (lower query) = [] -> results = [])
      /\ (query_tokens <> [] -> (0 <= top_n)%Z ->
          List.length results = Nat.min (Z.to_nat top_n) (List.length kept)
          /\ ((List.length kept <= Z.to_nat top_n)%nat ->
              forall skill, In skill kept ->
                exists r, In r results /\ r_name r = Some (name skill))).
Proof.
  split.
  - intros L. destruct (search_in_memory str_hash w self query top_n threshold L) as [rs [E _]].
    now exists rs.
  - intros results self' w' H query_tokens kept.
    pose proof (search_spec _ _ _ _ _ _ H) as A. fold query_tokens in A.
    split; [|split].
    + intros r Hr. destruct A as [N K]. destruct query_tokens as [|t ts] eqn:Q.
      * rewrite (N eq_refl) in Hr. destruct Hr.
      * destruct K as [rs [F ->]]; [discriminate|]. fold kept in F.
        apply slice_to_incl in Hr. apply (Permutation_in _ (sort_by_score_perm rs)) in Hr.
        destruct (@Forall2_in_r _ _ _ _ _ r F Hr)
          as [skill [Hin [score [Es [_ [Hn [Hsc [Hd _]]]]]]]].
        exists skill, score. split; [exact Hin|]. split; [exact Es|]. split.
        { destruct (@FloatFacts.calculate_score_double_close (t :: ts) skill)
            as [e [s' [Ee [Es' B]]]].
          - rewrite <- Q. apply tokens_of_NoDup.
          - exists e. split; [exact Ee|]. rewrite Es in Es'. injection Es' as <-. exact B. }
        split; [exact Hn|].
        split; [exact Hd|]. split; [apply take_cut_at|]. split; [exact Hsc|].
        destruct (round3_thousandth score) as [k Ek]. exists k. unfold py_round3.
        rewrite <- Ek. split; [reflexivity | apply round3_close].
    + intros T. apply (proj1 A). apply tokens_of_none, T.
    + intros Hq Hn. destruct (answer_complete A Hq Hn) as [Len All]. fold kept in Len, All.
      split; [exact Len|]. intros Hfit skill Hin.
      destruct (proj2 (All Hfit) skill Hin) as [r [Hr [score [_ [_ [Hname _]]]]]].
      exists r. split; [exact Hr | exact Hname].
Qed.

Lemma search_truncates_and_rounds_witness :
  exists r skill score,
    search Examples.flat_hash Examples.online Examples.wordy_registry "PDF reader" 10
           default_threshold
    = Ok ([r], Examples.wordy_registry, Examples.online)
    /\ In skill (values (skills Examples.wordy_registry))
    /\ _calculate_score_double ["pdf"; "reader"] skill = Ok score
    /\ r_description r = Some (take 200 (description skill))
    /\ r_score r = Some (py_round3 score).
Proof.
  assert (E : exists r,
             search Examples.flat_hash Examples.online Examples.wordy_registry "PDF reader" 10
                    default_threshold
             = Ok ([r], Examples.wordy_registry, Examples.online))
    by (eexists; vm_compute; reflexivity).
  destruct E as [r E].
  destruct (proj1 (proj2 (search_truncates_and_rounds Examples.flat_hash Examples.online
                            Examples.wordy_registry "PDF reader" 10 default_threshold) _ _ _ E)
                  r (or_introl eq_refl))
    as [skill [score [Hin [Es [_ [_ [Hd [_ [Hs _]]]]]]]]].
  exists r, skill, score. split; [exact E|].
  split; [exact (SearchFacts.filter_incl _ _ _ Hin)|].
  split; [exact Es|]. split; [exact Hd | exact Hs].
Defined.

(** The description of 208 characters comes back with 200, and the score
    -- 27/44 in exact arithmetic, the double [0.6136363636363636] on the
    machine -- as the double [0.614]. *)
Example search_cuts_and_rounds :
  exists r,
    search Examples.flat_hash Examples.online Examples.wordy_registry "PDF reader" 10
           default_threshold
    = Ok ([r], Examples.wordy_registry, Examples.online)
    /\ (exists s, _calculate_score ["pdf"; "reader"] Examples.wordy = Ok s /\ s == 27 # 44)
    /\ r_score r = Some (binary64 (614 # 1000))
    /\ option_map String.length (r_description r) = Some 200%nat
    /\ String.length (description Examples.wordy) = 208%nat.
Proof.
  eexists. split; [vm_compute; reflexivity|].
  split; [eexists; split; vm_compute; reflexivity|]. split; [vm_compute; reflexivity|].
  split; vm_compute; reflexivity.
Qed.

(** The rounding is the one of the double.  The record scores 0.1875 in
    exact arithmetic, which rounds to the even thousandth 0.188; the
    machine computes the double below it, [0.18749999999999997], and
    [round] gives [0.187]. *)
Example search_rounds_the_double :
  (exists s, _calculate_score (tokens_of Examples.flat_hash Examples.eight_tokens)
                              Examples.halfway = Ok s
             /\ s == 1875 # 10000 /\ round3 s = (188 # 1000))
  /\ (exists s, _calculate_score_double (tokens_of Examples.flat_hash Examples.eight_tokens)
                                        Examples.halfway = Ok s
                /\ s < 1875 # 10000 /\ round3 s = (187 # 1000))
  /\ exists r,
       search Examples.flat_hash Examples.online Examples.halfway_registry
              Examples.eight_tokens 10 default_threshold
       = Ok ([r], Examples.halfway_registry, Examples.online)
       /\ r_score r = Some (binary64 (187 # 1000)).
Proof.
  split; [|split].
  - eexists. split; [vm_compute; reflexivity|]. split; vm_compute; reflexivity.
  - eexists. split; [vm_compute; reflexivity|]. split; vm_compute; reflexivity.
  - eexists. split; vm_compute; reflexivity.
Qed.

(** No token, no scoring: the record without a name would score 5/11 on the
    empty token set, above the threshold, and is not returned. *)
Example search_without_token :
  search Examples.flat_hash Examples.online Examples.blank_registry "a 1 B2 x_y" 10
         default_threshold
  = Ok ([], Examples.blank_registry, Examples.online)
  /\ exists s, _calculate_score [] Examples.blank = Ok s /\ s == 5 # 11.
Proof. split; [vm_compute; reflexivity|]. eexists. split; vm_compute; reflexivity. Qed.

End SearchClaims.

Module RecommendClaims.
Import external_registry unified_search Spec SearchFacts.




Section WithHash.
Variable str_hash : string -> Z.




End WithHash.



(** On an engine without local skills: the best of the two records, the
    other as the one alternative, and the command that installs the
    best. *)
Example recommend_best_of_two :
  exists self' w',
    recommend Examples.flat_hash Examples.online Examples.engine "pdf tools notes"
    = Ok (Recommended "pdf-tools" (binary64 (712 # 1000)) false "awesome-claude-skills"
            "https://github.com/ComposioHQ/awesome-claude-skills/tree/master/pdf-tools"
            "Extract text from PDF documents" ["notes"]
            (Some ("curl -sL https://raw.githubusercontent.com/ComposioHQ/awesome-claude-skills/master/pdf-tools/SKILL.md"
                   +++ " -o ~/.claude/skills/pdf-tools/SKILL.md --create-dirs")),
          self', w').
Proof. do 2 eexists. vm_compute. reflexivity. Qed.

(** The empty query on an engine with the index in memory. *)
Example recommend_empty_query :
  recommend Examples.flat_hash Examples.online Examples.engine EmptyString
  = Ok (NotRecommended 0 "No skills found matching ''", Examples.engine, Examples.online).
Proof. vm_compute. reflexivity. Qed.

End RecommendClaims.

(** * Further properties of the code *)

(** ** The tokenizer and the keyword extractor *)

Module KeywordProps.
Import external_registry Spec DatetimeFacts.

Lemma rev_string_length (acc s : string) :
  String.length (rev_string acc s) = (String.length s + String.length acc)%nat.
Proof.
  revert acc; induction s as [|a s IH]; intros acc; simpl; [reflexivity|].
  rewrite IH. simpl. lia.
Qed.

Lemma rev_string_all (p : ascii -> bool) (acc s : string) :
  all_chars p (rev_string acc s) = all_chars p s && all_chars p acc.
Proof.
  revert acc; induction s as [|a s IH]; intros acc; simpl; [reflexivity|].
  rewrite IH. simpl. now destruct (p a), (all_chars p s), (all_chars p acc).
Qed.

Lemma extend_ok (st : run_state) (c : ascii) : state_ok st -> state_ok (extend st c).
Proof.
  destruct st as [|acc|]; simpl; intros H; destruct (is_lower c) eqn:L; simpl; trivial;
    rewrite L; simpl; trivial.
Qed.

Lemma emit_tokens (n : nat) (st : run_state) (t : string) :
  state_ok st -> In t (emit n st) ->
  (n <= String.length t)%nat /\ all_chars is_lower t = true.
Proof.
  destruct st as [|acc|]; simpl; try tauto. intros H.
  destruct (n <=? String.length acc)%nat eqn:L; [|intros []].
  intros [<- | []]. rewrite rev_string_length, rev_string_all, H. simpl.
  apply Nat.leb_le in L. split; [lia | reflexivity].
Qed.

Lemma scan_tokens (n : nat) (s : string) (st : run_state) (t : string) :
  state_ok st -> In t (scan n st s) ->
  (n <= String.length t)%nat /\ all_chars is_lower t = true.
Proof.
  revert st; induction s as [|c s IH]; intros st H; cbn [scan].
  - now apply emit_tokens.
  - destruct (is_word c).
    + apply IH. now apply extend_ok.
    + intros Hin. apply in_app_or in Hin as [Hin | Hin].
      * now apply (emit_tokens n st).
      * now apply (IH Outside).
Qed.

(** Every match of [\b[a-z]{n,}\b] has at least [n] characters, all of
    them lower-case letters. *)
Lemma findall_lower_tokens (n : nat) (text t : string) :
  In t (findall_lower n text) ->
  (n <= String.length t)%nat /\ all_chars is_lower t = true.
Proof. apply scan_tokens. exact I. Qed.

Lemma step_extends (l acc : list string) : exists extra, fold_left step l acc = acc ++ extra.
Proof.
  revert acc; induction l as [|x l IH]; intros acc; simpl.
  - exists []. now rewrite app_nil_r.
  - unfold step at 2. destruct (mem x acc); [apply IH|].
    destruct (IH (acc ++ [x])) as [extra E]. exists ([x] ++ extra).
    now rewrite E, <- List.app_assoc.
Qed.

Lemma mem_same (x : string) (a b : list string) :
  (forall y, In y a <-> In y b) -> mem x a = mem x b.
Proof.
  intros H. destruct (mem x a) eqn:A, (mem x b) eqn:B; try reflexivity.
  - apply mem_In, H, mem_In in A. congruence.
  - apply mem_In, H, mem_In in B. congruence.
Qed.

(** The loop is the first fifteen of the distinct words that are no
    stopwords. *)
Lemma extract_loop_closed (words keywords seen : list string) :
  (forall y, In y seen <-> In y keywords) ->
  (List.length keywords < 15)%nat ->
  extract_loop words keywords seen
  = firstn 15 (fold_left step (filter not_stopword words) keywords).
Proof.
  revert keywords seen; induction words as [|word rest IH]; intros keywords seen Hs Hl.
  - cbn [extract_loop filter fold_left]. symmetry. apply firstn_all2. lia.
  - cbn [extract_loop filter]. unfold not_stopword at 1.
    destruct (mem word stopwords); cbn [negb andb]; [now apply IH|].
    cbn [fold_left]. unfold step at 2. rewrite mem_same with (b := keywords) by exact Hs.
    destruct (mem word keywords) eqn:M; cbn [negb]; [now apply IH|].
    assert (Hlen : List.length (keywords ++ [word]) = S (List.length keywords))
      by (rewrite List.length_app; simpl; lia).
    destruct (15 <=? List.length (keywords ++ [word]))%nat eqn:L.
    + apply Nat.leb_le in L.
      destruct (step_extends (filter not_stopword rest) (keywords ++ [word])) as [extra ->].
      rewrite firstn_app.
      replace (15 - List.length (keywords ++ [word]))%nat with 0%nat by lia.
      rewrite firstn_all2 by lia. cbn [firstn]. now rewrite app_nil_r.
    + apply Nat.leb_gt in L. apply IH; [|exact L].
      intros y. cbn [In]. rewrite in_app_iff, Hs. cbn [In]. tauto.
Qed.

Lemma NoDup_firstn {A : Type} (n : nat) (l : list A) : NoDup l -> NoDup (firstn n l).
Proof.
  revert n; induction l as [|a l IH]; intros [|n] H; simpl; try constructor.
  - inversion H as [|? ? Ha Hl]; subst. intros Hin. apply Ha.
    rewrite <- (firstn_skipn n l). apply in_or_app. now left.
  - inversion H; subst. now apply IH.
Qed.

(** X1.  [_extract_keywords] returns the first fifteen of the distinct
    tokens of the lower-cased text that are not stopwords, in the order of
    their first occurrence.  So it never returns more than fifteen, never
    one twice, never a stopword, and every keyword is made of three or more
    lower-case letters. *)
Theorem extract_keywords_first_fifteen (text : string) :
  let words := findall_lower 3 (lower text) in
  _extract_keywords text = firstn 15 (py_set (filter not_stopword words))
  /\ (List.length (_extract_keywords text) <= 15)%nat
  /\ NoDup (_extract_keywords text)
  /\ forall k, In k (_extract_keywords text) ->
       In k words /\ mem k stopwords = false
       /\ (3 <= String.length k)%nat /\ all_chars is_lower k = true.
Proof.
  intros words.
  assert (E : _extract_keywords text = firstn 15 (py_set (filter not_stopword words))).
  { unfold _extract_keywords. fold words. apply extract_loop_closed; [tauto | cbn [List.length]; lia]. }
  split; [exact E|]. rewrite E. split; [|split].
  - rewrite List.length_firstn. lia.
  - apply NoDup_firstn, py_set_NoDup.
  - intros k Hk.
    assert (Hin : In k (py_set (filter not_stopword words))).
    { rewrite <- (firstn_skipn 15 (py_set _)). apply in_or_app. now left. }
    apply py_set_In, filter_In in Hin as [Hw Hs].
    split; [exact Hw|]. split; [now apply negb_true_iff in Hs|].
    now apply (findall_lower_tokens 3 (lower text)).
Qed.

(** The boundaries of a word are those of Unicode.  In [caf\u00e9 tools]
    the letters [caf] are followed by a letter that is not in [a-z]: the
    run does not end at a boundary and is no match. *)
Example accented_letter_is_no_boundary :
  _extract_keywords ("caf" +++ String (ascii_of_nat 233) " tools") = ["tools"]
  /\ _extract_keywords "caf+ tools" = ["caf"; "tools"].
Proof. split; vm_compute; reflexivity. Qed.

End KeywordProps.

(** ** The categorizer *)

Module CategorizerProps.
Import external_registry Spec.

Lemma categorize_loop_general (text : string) (cats : list (string * list string)) :
  ~ In "general" (map fst cats) ->
  (categorize_loop text cats = "general"
   <-> forall c kws, In (c, kws) cats -> existsb (fun kw => contains kw text) kws = false).
Proof.
  induction cats as [|[c kws] rest IH]; simpl; intros Hn.
  - split; [intros _ c kws [] | reflexivity].
  - destruct (existsb (fun kw => contains kw text) kws) eqn:E.
    + split.
      * intros ->. tauto.
      * intros H. specialize (H c kws (or_introl eq_refl)). congruence.
    + rewrite IH by tauto. split.
      * intros H c' kws' [Heq | Hin]; [injection Heq as <- <-; exact E | now apply (H c')].
      * intros H c' kws' Hin. apply (H c'). now right.
Qed.

Lemma categorize_loop_member (text : string) (cats : list (string * list string)) :
  In (categorize_loop text cats) ("general" :: map fst cats).
Proof.
  induction cats as [|[c kws] rest IH]; simpl; [now left|].
  destruct (existsb _ kws); [right; now left|].
  destruct IH as [H | H]; [now left | right; now right].
Qed.

(** X2.  [_categorize] never leaves the taxonomy: its result is one of the
    nine categories, and it is [general] exactly when the lower-cased text
    of name and description contains none of the keywords of the table. *)
Theorem categorize_within_taxonomy (name description : string) :
  In (_categorize name description) category_set
  /\ (_categorize name description = "general"
      <-> forall c kws kw, In (c, kws) categories -> In kw kws ->
            ~ substring kw (lower (name +++ " " +++ description))).
Proof.
  split.
  - pose proof (categorize_loop_member (lower (name +++ " " +++ description)) categories) as H.
    unfold _categorize. simpl in H. unfold category_set. simpl. tauto.
  - unfold _categorize. rewrite categorize_loop_general.
    + split.
      * intros H c kws kw Hc Hk Hs. specialize (H c kws Hc).
        apply contains_spec in Hs.
        assert (T : existsb (fun kw => contains kw (lower (name +++ " " +++ description))) kws = true)
          by (apply existsb_exists; now exists kw).
        congruence.
      * intros H c kws Hc.
        destruct (existsb _ kws) eqn:E; [|reflexivity].
        apply existsb_exists in E as [kw [Hk Hs]]. apply contains_spec in Hs.
        exfalso. exact (H c kws kw Hc Hk Hs).
    + simpl. intros H. repeat (destruct H as [H | H]; [discriminate|]). exact H.
Qed.

End CategorizerProps.

(** ** The listing of a registry *)

Module ListingProps.
Import external_registry Spec DictFacts NetworkFacts.

Lemma entry_kept (item : Json.json) (p : string * string) (rest : list Json.json) :
  entry_of item p ->
  tree_dirs (item :: rest)
  = if is_listed p then (r <- tree_dirs rest ;; Ok (fst p :: r)) else tree_dirs rest.
Proof.
  intros [m [-> [Hn Ht]]]. cbn [tree_dirs Json.getitem]. rewrite Ht, Hn. cbn [bind json_is_str].
  unfold is_listed. destruct (String.eqb (snd p) "dir"); cbn [bind andb startswith_method].
  - destruct (startswith (fst p) "."); cbn [negb bind Json.as_str]; reflexivity.
  - reflexivity.
Qed.

Lemma tree_dirs_entries (items : list Json.json) (entries : list (string * string)) :
  Forall2 entry_of items entries ->
  tree_dirs items = Ok (map fst (filter is_listed entries)).
Proof.
  induction 1 as [|item p items entries He _ IH]; [reflexivity|].
  rewrite (entry_kept items He), IH. cbn [filter].
  destruct (is_listed p); reflexivity.
Qed.

Lemma tree_dirs_keyless (items : list Json.json) (entries : list (string * string))
      (bad : Json.json) (rest : list Json.json) :
  Forall2 entry_of items entries -> keyless bad ->
  tree_dirs (items ++ bad :: rest) = Raise KeyError.
Proof.
  intros H [m [-> Hbad]]. induction H as [|item p items entries He _ IH].
  - cbn [app tree_dirs Json.getitem].
    destruct Hbad as [Ht | [Ht Hn]]; rewrite Ht; [reflexivity|].
    cbn [bind json_is_str]. change (String.eqb "dir" "dir") with true. cbn iota.
    cbn [Json.getitem]. rewrite Hn. reflexivity.
  - cbn [app]. rewrite (entry_kept _ He), IH. now destruct (is_listed p).
Qed.

Lemma parse_github_tree_doc (w : World) (owner repo branch : string) (j : Json.json) :
  fetch w (api_url owner repo branch) = Some (Json.Doc j) ->
  _parse_github_tree w owner repo branch
  = try_except (l <- Json.iterate j ;; tree_dirs l) [JSONDecodeError; KeyError] (Ok []).
Proof.
  intros H. unfold _parse_github_tree. fold (api_url owner repo branch). rewrite H. reflexivity.
Qed.

(** X3.  For a listing whose entries are objects with a [name] and a
    [type], [_parse_github_tree] returns the names of the entries of type
    [dir] that do not start with a dot, in the order of the listing. *)
Theorem parse_github_tree_lists_directories
        (w : World) (owner repo branch : string)
        (items : list Json.json) (entries : list (string * string)) :
  fetch w (api_url owner repo branch) = Some (Json.Doc (Json.JArr items)) ->
  Forall2 entry_of items entries ->
  _parse_github_tree w owner repo branch = Ok (map fst (filter is_listed entries)).
Proof.
  intros Hf He. rewrite (parse_github_tree_doc _ _ _ _ Hf). cbn [Json.iterate bind].
  now rewrite (tree_dirs_entries He).
Qed.

Lemma parse_github_tree_lists_directories_witness :
  _parse_github_tree Examples.online "ComposioHQ" "awesome-claude-skills" "master"
  = Ok ["docs"; "pdf-tools"].
Proof.
  apply (@parse_github_tree_lists_directories
           Examples.online "ComposioHQ" "awesome-claude-skills" "master"
           [ Examples.dir_entry "docs" "dir"; Examples.dir_entry "pdf-tools" "dir";
             Examples.dir_entry "README.md" "file"; Examples.dir_entry ".github" "dir" ]
           [ ("docs", "dir"); ("pdf-tools", "dir"); ("README.md", "file"); (".github", "dir") ]).
  - vm_compute; reflexivity.
  - repeat constructor; eexists; (split; [reflexivity|]); split; reflexivity.
Defined.

(** X4.  One entry without a [type], or a [dir] entry without a [name],
    empties the listing: the [KeyError] is caught around the whole
    comprehension, and the directories before and after it are lost with
    it. *)
Theorem parse_github_tree_drops_all_on_missing_key
        (w : World) (owner repo branch : string)
        (items : list Json.json) (entries : list (string * string))
        (bad : Json.json) (rest : list Json.json) :
  fetch w (api_url owner repo branch) = Some (Json.Doc (Json.JArr (items ++ bad :: rest))) ->
  Forall2 entry_of items entries -> keyless bad ->
  _parse_github_tree w owner repo branch = Ok [].
Proof.
  intros Hf He Hb. rewrite (parse_github_tree_doc _ _ _ _ Hf). cbn [Json.iterate bind].
  now rewrite (tree_dirs_keyless rest He Hb).
Qed.

Lemma parse_github_tree_drops_all_on_missing_key_witness :
  _parse_github_tree (Examples.answering Examples.listing_with_gap) "anthropics" "skills" "main"
  = Ok [].
Proof.
  apply (@parse_github_tree_drops_all_on_missing_key
           (Examples.answering Examples.listing_with_gap) "anthropics" "skills" "main"
           [ Examples.dir_entry "docs" "dir" ] [ ("docs", "dir") ]
           Examples.entry_without_type [ Examples.dir_entry "notes" "dir" ]).
  - reflexivity.
  - repeat constructor; eexists; (split; [reflexivity|]); split; reflexivity.
  - eexists; split; [reflexivity|]. left; reflexivity.
Defined.

(** X5.  When the body of the listing request is a JSON object with at
    least one member -- not an array -- the loop runs over its keys,
    subscripts a string with ["type"] and raises a [TypeError] that nothing
    catches: [_parse_github_tree] raises, and so does
    [_index_github_registry]. *)
Theorem listing_object_raises_type_error
        (w : World) (r : Registry) (skills : index)
        (k : string) (v : Json.json) (m : list (string * Json.json)) :
  fetch w (registry_api_url r) = Some (Json.Doc (Json.JObj ((k, v) :: m))) ->
  _parse_github_tree w (reg_owner r) (reg_repo r) (branch_of r) = Raise TypeError
  /\ _index_github_registry w r skills = Raise TypeError.
Proof.
  intros Hf.
  assert (E : _parse_github_tree w (reg_owner r) (reg_repo r) (branch_of r) = Raise TypeError).
  { rewrite (parse_github_tree_doc _ _ _ _ Hf). reflexivity. }
  split; [exact E|]. unfold _index_github_registry. now rewrite E.
Qed.

Lemma listing_object_raises_type_error_witness :
  _parse_github_tree (Examples.answering Examples.rate_limited)
                     (reg_owner Examples.awesome) (reg_repo Examples.awesome)
                     (branch_of Examples.awesome) = Raise TypeError
  /\ _index_github_registry (Examples.answering Examples.rate_limited) Examples.awesome []
     = Raise TypeError.
Proof.
  apply (@listing_object_raises_type_error
           (Examples.answering Examples.rate_limited) Examples.awesome []
           "message" (Json.JStr "API rate limit exceeded") []).
  reflexivity.
Defined.

(** The loop over the directories appends. *)
Lemma index_directories_appends (w : World) (r : Registry) (branch : string)
      (dirs : list string) (skills : index) (k : nat) :
  exists added,
    index_directories w r branch dirs skills k = (skills ++ added, (k + List.length added)%nat)
    /\ NoDup (map fst added)
    /\ Forall (fun kv => dict_lookup (fst kv) skills = None
                         /\ fst kv = name (snd kv)
                         /\ source (snd kv) = reg_name r) added.
Proof.
  revert skills k; induction dirs as [|d dirs IH]; intros skills k.
  - exists []. cbn [index_directories]. rewrite app_nil_r, Nat.add_0_r.
    split; [reflexivity|]. split; constructor.
  - cbn [index_directories].
    destruct (mem d denylist); [apply IH|].
    destruct (_fetch_skill_md w (reg_owner r) (reg_repo r) d branch) as [content|]; [|apply IH].
    destruct (Json.falsy (Some content)); [apply IH|].
    destruct (_parse_skill_frontmatter content) as [[[|a n]|] description]; try apply IH.
    destruct (dict_has (String a n) skills) eqn:Hh; cbn [negb]; [apply IH|].
    apply dict_has_lookup in Hh. rewrite dict_set_absent by exact Hh.
    destruct (IH (skills ++ [(String a n, make_skill r branch d (String a n) description)]) (S k))
      as [added [E [Hnd Hall]]].
    exists ((String a n, make_skill r branch d (String a n) description) :: added).
    rewrite E, <- List.app_assoc. cbn [app List.length]. split; [f_equal; lia|].
    rewrite Forall_forall in Hall. split.
    + cbn [map fst]. constructor; [|exact Hnd].
      intros Hin. apply in_map_iff in Hin as [[k' v'] [Hk Hkv]]. cbn [fst] in Hk. subst k'.
      destruct (Hall _ Hkv) as [Hl _]. cbn [fst] in Hl.
      rewrite dict_lookup_app, Hh in Hl. cbn [dict_lookup] in Hl.
      rewrite String.eqb_refl in Hl. discriminate Hl.
    + constructor; [cbn [fst snd]; repeat split; exact Hh|].
      rewrite Forall_forall. intros kv Hkv. destruct (Hall _ Hkv) as [Hl [Hn Hs]].
      split; [|split; assumption].
      rewrite dict_lookup_app in Hl. now destruct (dict_lookup (fst kv) skills).
Qed.

(** X6.  [_index_github_registry] only adds: the index it returns is the
    one it was given followed by the new records, which come under names
    that were free, each once, each under the name of its record and with
    the registry as its source; the number it returns is the number of
    records added. *)
Theorem index_github_registry_only_adds
        (w : World) (r : Registry) (skills skills' : index) (n : nat) :
  _index_github_registry w r skills = Ok (skills', n) ->
  exists added,
    skills' = skills ++ added
    /\ List.length added = n
    /\ NoDup (map fst added)
    /\ Forall (fun kv => dict_lookup (fst kv) skills = None
                         /\ fst kv = name (snd kv)
                         /\ source (snd kv) = reg_name r) added.
Proof.
  unfold _index_github_registry.
  destruct (_parse_github_tree w (reg_owner r) (reg_repo r) (branch_of r)) as [dirs|e];
    cbn [bind]; [|discriminate].
  destruct (index_directories_appends w r (branch_of r) dirs skills 0) as [added [E [Hnd Hall]]].
  rewrite E. intros H. injection H as <- <-. exists added. repeat split; assumption.
Qed.

Lemma index_github_registry_only_adds_witness :
  exists added,
    Examples.network_index = [("pdf-tools", Examples.pdf_tools_awesome)] ++ added
    /\ List.length added = 1%nat
    /\ NoDup (map fst added)
    /\ Forall (fun kv => dict_lookup (fst kv) [("pdf-tools", Examples.pdf_tools_awesome)] = None
                         /\ fst kv = name (snd kv)
                         /\ source (snd kv) = reg_name Examples.anthropic) added.
Proof.
  apply (@index_github_registry_only_adds
           Examples.online Examples.anthropic
           [("pdf-tools", Examples.pdf_tools_awesome)] Examples.network_index 1%nat).
  vm_compute; reflexivity.
Defined.

End ListingProps.

(** ** The front matter of a manifest *)

Module FrontmatterProps.
Import external_registry Spec DatetimeFacts.

Lemma split_first_none (sep s : string) :
  contains sep s = false -> split_first sep s = None.
Proof.
  induction s as [|a s IH]; cbn [contains split_first]; intros H;
    apply orb_false_iff in H as [Hs Hc]; rewrite Hs; [reflexivity|].
  now rewrite (IH Hc).
Qed.

Lemma split_first_step (a : ascii) (s : string) :
  startswith (String a s) "---" = false ->
  split_first "---" (String a s)
  = match split_first "---" s with
    | Some (l, r) => Some (String a l, r)
    | None => None
    end.
Proof.
  intros H. change (split_first "---" (String a s))
    with (if startswith (String a s) "---"
          then Some (EmptyString, drop (String.length "---") (String a s))
          else match split_first "---" s with
               | Some (l, r) => Some (String a l, r)
               | None => None
               end).
  now rewrite H.
Qed.

Lemma split_first_here (s : string) : split_first "---" ("---" +++ s) = Some (EmptyString, s).
Proof. reflexivity. Qed.

(** A stretch without the delimiter, followed by a character that is not a
    hyphen, is passed over. *)
Lemma split_first_skip (pre : string) (c : ascii) (s : string) :
  contains "---" pre = false -> Ascii.eqb c "-" = false ->
  split_first "---" (pre +++ String c s)
  = match split_first "---" s with
    | Some (l, r) => Some (pre +++ String c l, r)
    | None => None
    end.
Proof.
  intros Hp Hc. induction pre as [|a pre IH].
  - cbn [append]. apply split_first_step. cbn [startswith]. now rewrite Hc.
  - cbn [contains] in Hp. apply orb_false_iff in Hp as [Hs Hp].
    cbn [append]. rewrite split_first_step.
    + rewrite (IH Hp). now destruct (split_first "---" s) as [[l r]|].
    + clear IH Hp. cbn [startswith] in Hs |- *.
      destruct (Ascii.eqb a "-"); [cbn [andb] in Hs |- *|reflexivity].
      destruct pre as [|b pre]; cbn [append]; [now rewrite Hc|].
      destruct (Ascii.eqb b "-"); [cbn [andb] in Hs |- *|reflexivity].
      destruct pre as [|d pre]; cbn [append]; [now rewrite Hc|].
      exact Hs.
Qed.

Lemma rstrip_cons (p : ascii -> bool) (a : ascii) (s : string) :
  rstrip p (String a s)
  = match rstrip p s with
    | EmptyString => if p a then EmptyString else String a EmptyString
    | r => String a r
    end.
Proof. reflexivity. Qed.

Lemma rstrip_app_keep (p : ascii -> bool) (s t : string) :
  rstrip p t <> EmptyString -> rstrip p (s +++ t) = s +++ rstrip p t.
Proof.
  intros H. induction s as [|a s IH]; [reflexivity|].
  cbn [append]. rewrite rstrip_cons, IH.
  destruct (s +++ rstrip p t) eqn:E; [|reflexivity].
  destruct s; [cbn [append] in E; contradiction | discriminate].
Qed.

Lemma rstrip_snoc (p : ascii -> bool) (s : string) (c : ascii) :
  p c = true -> rstrip p (s +++ String c EmptyString) = rstrip p s.
Proof.
  intros H. induction s as [|a s IH]; cbn [append].
  - cbn [rstrip]. now rewrite H.
  - now rewrite !rstrip_cons, IH.
Qed.

Section Strip.
Variable p : ascii -> bool.
Hypothesis p_edge : forall c, edge_ok c = true -> p c = false.

Lemma lstrip_first_ok (v : string) : first_ok v = true -> lstrip p v = v.
Proof.
  destruct v as [|a v]; [discriminate|]. cbn [first_ok lstrip]. intros H.
  now rewrite (@p_edge a H).
Qed.

Lemma rstrip_last_ok (v : string) : last_ok v = true -> rstrip p v = v.
Proof.
  induction v as [|a v IH]; [discriminate|]. destruct v as [|b v].
  - cbn [last_ok rstrip]. intros H. now rewrite (@p_edge a H).
  - intros H. change (last_ok (String a (String b v))) with (last_ok (String b v)) in H.
    rewrite rstrip_cons, (IH H). reflexivity.
Qed.

Lemma strip_with_plain (v : string) :
  first_ok v = true -> last_ok v = true -> strip_with p v = v.
Proof.
  intros Hf Hl. unfold strip_with. rewrite (@lstrip_first_ok v Hf). exact (@rstrip_last_ok v Hl).
Qed.

End Strip.

Lemma edge_space (c : ascii) : edge_ok c = true -> is_space c = false.
Proof.
  unfold edge_ok. intros H. apply andb_true_iff in H as [H _].
  apply andb_true_iff in H as [H _]. now apply negb_true_iff.
Qed.

Lemma edge_double (c : ascii) : edge_ok c = true -> is_double_quote c = false.
Proof.
  unfold edge_ok. intros H. apply andb_true_iff in H as [H _].
  apply andb_true_iff in H as [_ H]. now apply negb_true_iff.
Qed.

Lemma edge_single (c : ascii) : edge_ok c = true -> is_single_quote c = false.
Proof.
  unfold edge_ok. intros H. apply andb_true_iff in H as [_ H]. now apply negb_true_iff.
Qed.

(** The value of a line, as the loop cleans it. *)
Lemma cleaned_value (v : string) :
  first_ok v = true -> last_ok v = true ->
  strip_with is_single_quote (strip_with is_double_quote (strip (String " " v))) = v.
Proof.
  intros Hf Hl. change (strip (String " " v)) with (strip_with is_space v).
  rewrite (@strip_with_plain is_space edge_space v Hf Hl).
  rewrite (@strip_with_plain is_double_quote edge_double v Hf Hl).
  exact (@strip_with_plain is_single_quote edge_single v Hf Hl).
Qed.

Lemma name_line (v : string) (rest : list string) (nm ds : option string) :
  first_ok v = true -> last_ok v = true ->
  frontmatter_lines (("name: " +++ v) :: rest) nm ds = frontmatter_lines rest (Some v) ds.
Proof.
  intros Hf Hl.
  assert (E1 : contains ":" ("name: " +++ v) = true) by reflexivity.
  assert (E2 : split_n ":" 1 ("name: " +++ v) = ["name"; String " " v]) by reflexivity.
  cbn [frontmatter_lines]. rewrite E1, E2.
  change (lower (strip "name")) with "name".
  change (String.eqb "name" "name") with true. cbn iota.
  now rewrite (@cleaned_value v Hf Hl).
Qed.

Lemma description_line (v : string) (rest : list string) (nm ds : option string) :
  first_ok v = true -> last_ok v = true ->
  frontmatter_lines (("description: " +++ v) :: rest) nm ds = frontmatter_lines rest nm (Some v).
Proof.
  intros Hf Hl.
  assert (E1 : contains ":" ("description: " +++ v) = true) by reflexivity.
  assert (E2 : split_n ":" 1 ("description: " +++ v) = ["description"; String " " v])
    by reflexivity.
  cbn [frontmatter_lines]. rewrite E1, E2.
  change (lower (strip "description")) with "description".
  change (String.eqb "description" "name") with false.
  change (String.eqb "description" "description") with true. cbn iota.
  now rewrite (@cleaned_value v Hf Hl).
Qed.

Lemma split_first_line (l1 l2 : string) :
  all_chars not_newline l1 = true ->
  split_first newline (l1 +++ String (ascii_of_nat 10) l2) = Some (l1, l2).
Proof.
  unfold newline. intros H. induction l1 as [|a l1 IH]; cbn [append].
  - cbn [split_first startswith String.length drop]. now rewrite Ascii.eqb_refl.
  - cbn [all_chars] in H. apply andb_true_iff in H as [Ha H].
    unfold not_newline in Ha. apply negb_true_iff in Ha.
    cbn [split_first startswith]. rewrite Ha. cbn [andb]. now rewrite (IH H).
Qed.

Lemma split_first_no_line (l : string) :
  all_chars not_newline l = true -> split_first newline l = None.
Proof.
  unfold newline. intros H. induction l as [|a l IH]; [reflexivity|].
  cbn [all_chars] in H. apply andb_true_iff in H as [Ha H].
  unfold not_newline in Ha. apply negb_true_iff in Ha.
  cbn [split_first startswith]. rewrite Ha. cbn [andb]. now rewrite (IH H).
Qed.

Lemma split_two_lines (l1 l2 : string) :
  all_chars not_newline l1 = true -> all_chars not_newline l2 = true ->
  split newline (l1 +++ String (ascii_of_nat 10) l2) = [l1; l2].
Proof.
  intros H1 H2. unfold split. rewrite length_app. cbn [String.length].
  rewrite Nat.add_succ_r. cbn [split_n]. rewrite (@split_first_line l1 l2 H1).
  destruct (String.length l1 + String.length l2)%nat; cbn [split_n]; [reflexivity|].
  now rewrite (@split_first_no_line l2 H2).
Qed.

Lemma plain_value_parts (v : string) :
  plain_value v = true ->
  first_ok v = true /\ last_ok v = true /\ all_chars not_newline v = true
  /\ contains "---" v = false.
Proof.
  unfold plain_value. rewrite !andb_true_iff, negb_true_iff. tauto.
Qed.

(** The three parts of a manifest. *)
Lemma manifest_parts (n d body : string) :
  contains "---" n = false -> contains "---" d = false ->
  split_n "---" 2 (manifest_text n d body)
  = [EmptyString;
     newline +++ "name: " +++ n +++ newline +++ "description: " +++ d +++ newline;
     body].
Proof.
  intros Hn Hd.
  change (manifest_text n d body)
    with ("---" +++ (EmptyString +++ String (ascii_of_nat 10)
            ("name:" +++ String " "
              (n +++ String (ascii_of_nat 10)
                ("description:" +++ String " "
                  (d +++ String (ascii_of_nat 10) ("---" +++ body))))))).
  cbn [split_n]. rewrite split_first_here.
  rewrite split_first_skip by reflexivity.
  rewrite split_first_skip by reflexivity.
  rewrite split_first_skip by (exact Hn || reflexivity).
  rewrite split_first_skip by reflexivity.
  rewrite split_first_skip by (exact Hd || reflexivity).
  rewrite split_first_here. reflexivity.
Qed.

(** The middle part, stripped. *)
Lemma manifest_frontmatter (n d : string) :
  first_ok d = true -> last_ok d = true ->
  strip (newline +++ "name: " +++ n +++ newline +++ "description: " +++ d +++ newline)
  = ("name: " +++ n) +++ String (ascii_of_nat 10) ("description: " +++ d).
Proof.
  intros Hf Hl. unfold strip, strip_with.
  change (lstrip is_space
            (newline +++ "name: " +++ n +++ newline +++ "description: " +++ d +++ newline))
    with ("name: " +++ n +++ newline +++ "description: " +++ d +++ newline).
  assert (E : "name: " +++ n +++ newline +++ "description: " +++ d +++ newline
              = (("name: " +++ n) +++ String (ascii_of_nat 10) "description: ")
                +++ (d +++ String (ascii_of_nat 10) EmptyString)).
  { rewrite !app_assoc. reflexivity. }
  rewrite E.
  assert (R : rstrip is_space (d +++ String (ascii_of_nat 10) EmptyString) = d).
  { rewrite rstrip_snoc by reflexivity. exact (@rstrip_last_ok is_space edge_space d Hl). }
  rewrite rstrip_app_keep; rewrite R.
  - rewrite !app_assoc. reflexivity.
  - destruct d; [discriminate Hf | discriminate].
Qed.

(** X7.  A manifest that opens with the delimiter, then gives [name: n] and
    [description: d] on a line each, and closes with the delimiter, is
    parsed back to [n] and [d], whatever follows the closing delimiter --
    provided each value is one non-empty line without the delimiter and
    has no white space or quote at either end. *)
Theorem parse_frontmatter_round_trip (n d body : string) :
  plain_value n = true -> plain_value d = true ->
  _parse_skill_frontmatter (Json.Plain (manifest_text n d body)) = (Some n, Some d).
Proof.
  intros Hn Hd.
  apply plain_value_parts in Hn as [Hn1 [Hn2 [Hn3 Hn4]]].
  apply plain_value_parts in Hd as [Hd1 [Hd2 [Hd3 Hd4]]].
  unfold _parse_skill_frontmatter.
  change (startswith (manifest_text n d body) "---") with true. cbn [negb].
  rewrite (@manifest_parts n d body Hn4 Hd4). cbn [List.length nth].
  change (3 <? 3)%nat with false. cbn iota.
  rewrite (@manifest_frontmatter n d Hd1 Hd2).
  rewrite split_two_lines.
  - rewrite (@name_line n _ _ _ Hn1 Hn2), (@description_line d _ _ _ Hd1 Hd2). reflexivity.
  - rewrite all_chars_app, Hn3. reflexivity.
  - rewrite all_chars_app, Hd3. reflexivity.
Qed.

Lemma parse_frontmatter_round_trip_witness :
  _parse_skill_frontmatter
    (Json.Plain (manifest_text "pdf-tools" "Extract text from PDF documents"
                               (newline +++ "# PDF tools" +++ newline)))
  = (Some "pdf-tools", Some "Extract text from PDF documents").
Proof.
  apply (@parse_frontmatter_round_trip "pdf-tools" "Extract text from PDF documents"
           (newline +++ "# PDF tools" +++ newline)); vm_compute; reflexivity.
Defined.

(** X8.  A text that does not open with the delimiter, or has no second
    delimiter after the opening one, has no front matter: the parser
    returns neither a name nor a description. *)
Theorem parse_frontmatter_needs_delimiters (content : string) :
  startswith content "---" = false \/ contains "---" (drop 3 content) = false ->
  _parse_skill_frontmatter (Json.Plain content) = (None, None).
Proof.
  intros H. unfold _parse_skill_frontmatter.
  destruct (startswith content "---") eqn:E; cbn [negb]; [|reflexivity].
  destruct H as [H | H]; [discriminate|].
  apply startswith_spec in E as [post ->].
  change (drop 3 ("---" +++ post)) with post in H.
  cbn [split_n]. rewrite split_first_here, (@split_first_none "---" post H). reflexivity.
Qed.

Lemma parse_frontmatter_needs_delimiters_witness :
  _parse_skill_frontmatter (Json.Plain ("---" +++ newline +++ "name: pdf-tools" +++ newline))
  = (None, None).
Proof.
  apply parse_frontmatter_needs_delimiters. right. vm_compute; reflexivity.
Defined.

(** [strip] removes the white space of Unicode: a value that starts with a
    no-break space is not read back as it was written. *)
Example no_break_space_is_stripped :
  plain_value (String (ascii_of_nat 160) "pdf") = false
  /\ _parse_skill_frontmatter
       (Json.Plain (manifest_text (String (ascii_of_nat 160) "pdf") "tools" EmptyString))
     = (Some "pdf", Some "tools").
Proof. split; vm_compute; reflexivity. Qed.

End FrontmatterProps.

(** ** The scorer and the search *)

Module SearchProps.
Import external_registry Spec ScorerFacts SearchFacts.

Lemma lower_char_idem (c : ascii) : lower_char (lower_char c) = lower_char c.
Proof. destruct c as [[] [] [] [] [] [] [] []]; reflexivity. Qed.

Lemma lower_idem (s : string) : lower (lower s) = lower s.
Proof.
  induction s as [|c s IH]; cbn [lower]; [reflexivity|]. now rewrite lower_char_idem, IH.
Qed.

Lemma mem_py_set (x : string) (l : list string) : mem x (py_set l) = mem x l.
Proof.
  destruct (mem x l) eqn:E.
  - apply mem_In. apply py_set_In. now apply mem_In.
  - destruct (mem x (py_set l)) eqn:F; [|reflexivity].
    apply (proj1 (mem_In x (py_set l))) in F. apply (proj1 (py_set_In l x)) in F.
    apply (proj2 (mem_In x l)) in F. congruence.
Qed.

Lemma ratio_pos (a b : nat) : (0 < a)%nat -> 0 < ratio a b.
Proof.
  intros H. unfold ratio. apply Qlt_shift_div_l; [apply (of_int_max_pos b)|].
  rewrite Qmult_0_l. unfold Qlt. simpl. lia.
Qed.

Lemma ratio_none (b : nat) : ratio 0 b == 0.
Proof. unfold ratio, Qdiv. simpl Z.of_nat. apply Qmult_0_l. Qed.

Lemma shares_cards (q : list string) (skill : RemoteSkill) :
  shares q skill = false
  <-> (card_inter q (py_set (findall_lower 2 (normalized_name skill))) = 0
       /\ card_inter q (py_set (findall_lower 2 (lower (description skill)))) = 0
       /\ card_inter q (py_set (keywords skill)) = 0)%nat.
Proof.
  unfold shares, card_inter. induction q as [|t q IH]; cbn [existsb filter].
  - cbn [List.length]. tauto.
  - destruct (mem t (py_set (findall_lower 2 (normalized_name skill))));
      destruct (mem t (py_set (findall_lower 2 (lower (description skill)))));
      destruct (mem t (py_set (keywords skill)));
      cbn [orb List.length]; try exact IH;
      (split; [discriminate | intros (H1 & H2 & H3); discriminate]).
Qed.

(** X9.  A record scores 0 exactly when it shares no token with the query
    -- neither in its name, nor in its description, nor among its
    keywords -- and the exact-match bonus does not apply. *)
Theorem score_zero_iff_nothing_shared (query_tokens : list string) (skill : RemoteSkill) :
  exists s, _calculate_score query_tokens skill = Ok s
            /\ (s == 0 <-> shares query_tokens skill = false
                           /\ override_code query_tokens skill = false).
Proof.
  destruct (calculate_score_value query_tokens skill) as [s [E V]].
  exists s. split; [exact E|]. rewrite V, shares_cards. unfold score_formula.
  set (cn := card_inter query_tokens (py_set (findall_lower 2 (normalized_name skill)))).
  set (cd := card_inter query_tokens (py_set (findall_lower 2 (lower (description skill))))).
  set (ck := card_inter query_tokens (py_set (keywords skill))).
  pose proof (ratio_nonneg cn (List.length (py_set (findall_lower 2 (normalized_name skill)))))
    as Nn.
  pose proof (ratio_nonneg cd (List.length query_tokens)) as Nd.
  pose proof (ratio_nonneg ck (List.length query_tokens)) as Nk.
  pose proof (@ratio_pos cn (List.length (py_set (findall_lower 2 (normalized_name skill)))))
    as Pn.
  pose proof (@ratio_pos cd (List.length query_tokens)) as Pd.
  pose proof (@ratio_pos ck (List.length query_tokens)) as Pk.
  pose proof (ratio_none (List.length (py_set (findall_lower 2 (normalized_name skill))))) as Zn.
  pose proof (ratio_none (List.length query_tokens)) as Zq.
  destruct cn as [|cn]; destruct cd as [|cd]; destruct ck as [|ck];
    try specialize (Pn (Nat.lt_0_succ _));
    try specialize (Pd (Nat.lt_0_succ _));
    try specialize (Pk (Nat.lt_0_succ _));
    set (n := ratio _ (List.length (py_set _))) in *;
    set (d := ratio _ (List.length query_tokens)) in *;
    try set (k := ratio _ (List.length query_tokens)) in *;
    clearbody n d; try clearbody k;
    destruct (override_code query_tokens skill);
    (split;
     [ intros H; try (split; [repeat split|]; reflexivity);
       exfalso; revert H; destruct Qlt_le_dec; by_22; lra
     | intros [(H1 & H2 & H3) H4]; try discriminate;
       destruct Qlt_le_dec; by_22; lra ]).
Qed.

(** X10.  A record without a name gets the exact-match bonus for every
    query, the empty one included: the empty string is a substring of
    every joined query.  Its score is at least 5/11, so it passes every
    threshold up to that. *)
Theorem empty_name_matches_every_query (skill : RemoteSkill) :
  name skill = EmptyString ->
  forall query_tokens,
    exists s, _calculate_score query_tokens skill = Ok s
              /\ 5 # 11 <= s
              /\ forall threshold, threshold <= 5 # 11 ->
                   qualifies query_tokens threshold skill = true.
Proof.
  intros Hn q. destruct (calculate_score_value q skill) as [s [E V]].
  assert (O : override_code q skill = true).
  { unfold override_code. rewrite Hn. cbn [lower].
    destruct (join " " q); cbn [contains startswith]; apply orb_true_r. }
  assert (B : 5 # 11 <= s).
  { rewrite V, O. unfold score_formula.
    pose proof (ratio_nonneg
                  (card_inter q (py_set (findall_lower 2 (lower (description skill)))))
                  (List.length q)) as Nd.
    pose proof (ratio_nonneg (card_inter q (py_set (keywords skill))) (List.length q)) as Nk.
    set (d := ratio _ _) in *. set (k := ratio _ _) in *. clearbody d k.
    destruct Qlt_le_dec; by_22; lra. }
  exists s. split; [exact E|]. split; [exact B|].
  intros t Ht. unfold qualifies. rewrite E. apply Qle_bool_iff. now apply Qle_trans with (5 # 11).
Qed.

Lemma empty_name_matches_every_query_witness :
  exists s, _calculate_score ["pdf"] Examples.blank = Ok s
            /\ 5 # 11 <= s
            /\ forall threshold, threshold <= 5 # 11 ->
                 qualifies ["pdf"] threshold Examples.blank = true.
Proof. apply (@empty_name_matches_every_query Examples.blank eq_refl ["pdf"]). Defined.

(** X11.  The score reads three things of a record: its name and its
    description, both without regard to case, and its keywords as a set.
    Two records that agree on these score alike for every query, whatever
    their source, address and category. *)
Theorem score_reads_name_description_keywords
        (query_tokens : list string) (skill skill' : RemoteSkill) :
  lower (name skill') = lower (name skill) ->
  lower (description skill') = lower (description skill) ->
  (forall k, mem k (keywords skill') = mem k (keywords skill)) ->
  _calculate_score query_tokens skill' = _calculate_score query_tokens skill.
Proof.
  intros Hn Hd Hk. unfold _calculate_score, normalized_name. rewrite Hn, Hd.
  assert (K : set_inter query_tokens (py_set (keywords skill'))
              = set_inter query_tokens (py_set (keywords skill))).
  { unfold set_inter. apply filter_ext. intros x. now rewrite !mem_py_set. }
  now rewrite K.
Qed.

Lemma score_reads_name_description_keywords_witness :
  _calculate_score ["pdf"] Examples.pdf_shouting = _calculate_score ["pdf"] Examples.pdf_described.
Proof.
  apply (@score_reads_name_description_keywords ["pdf"]
           Examples.pdf_described Examples.pdf_shouting);
    [reflexivity | reflexivity | intros k; reflexivity].
Defined.

Lemma sorted_firstn {A : Type} (R : A -> A -> Prop) (n : nat) (l : list A) :
  StronglySorted R l -> StronglySorted R (firstn n l).
Proof.
  intros H. revert n; induction H as [|a l _ IH Ha]; intros [|n]; cbn [firstn];
    try constructor; [apply IH|].
  rewrite Forall_forall in *. intros x Hx. apply Ha.
  rewrite <- (firstn_skipn n l). apply in_or_app. now left.
Qed.

Section WithHash.
Variable str_hash : string -> Z.

(** X12.  With the index in memory and a query that has a token,
    [search] returns the records that pass the threshold -- those whose
    score, as the machine computes it on doubles, is not below it --
    ranked by their rounded score, highest first, and cut to the first
    [top_n]: it returns [min(top_n, kept)] results, each under the name of
    a record that passes, and all of them when [top_n] is large enough. *)
Theorem search_ranks_and_cuts
        (w : World) (self : ExternalRegistry) (query : string) (top_n : Z) (threshold : Q) :
  _index_loaded self = true ->
  tokens_of str_hash query <> [] ->
  (0 <= top_n)%Z ->
  let kept := filter (passes (tokens_of str_hash query) threshold) (values (skills self)) in
  exists results,
    search str_hash w self query top_n threshold = Ok (results, self, w)
    /\ List.length results = Nat.min (Z.to_nat top_n) (List.length kept)
    /\ StronglySorted (fun a b => score_of b <= score_of a) results
    /\ (forall r, In r results -> exists s, In s kept /\ r_name r = Some (name s))
    /\ ((List.length kept <= Z.to_nat top_n)%nat ->
        Permutation (map r_name results) (map (fun s => Some (name s)) kept)).
Proof.
  intros L T N kept.
  destruct (search_in_memory str_hash w self query top_n threshold L) as [results [E A]].
  exists results. split; [exact E|].
  destruct (answer_complete A T N) as [Len All]. fold kept in Len, All.
  split; [exact Len|]. split; [|split].
  - destruct A as [_ K]. destruct (K T) as [rs [_ ->]].
    unfold slice_to. destruct (0 <=? top_n)%Z eqn:Z; [|lia].
    apply sorted_firstn, sort_by_score_sorted.
  - intros r Hr. destruct A as [_ K]. destruct (K T) as [rs [F ->]]. fold kept in F.
    apply slice_to_incl in Hr. apply (Permutation_in _ (sort_by_score_perm rs)) in Hr.
    destruct (@Forall2_in_r _ _ _ _ _ r F Hr) as [s [Hin [score [_ [_ [Hn _]]]]]].
    exists s. split; [exact Hin | exact Hn].
  - intros Hfit. apply (proj1 (All Hfit)).
Qed.

(** X13.  [search] lower-cases the query before it reads it: a query and
    its lower-cased form give the same answer. *)
Theorem search_ignores_case
        (w : World) (self : ExternalRegistry) (query : string) (top_n : Z) (threshold : Q) :
  search str_hash w self (lower query) top_n threshold
  = search str_hash w self query top_n threshold.
Proof. unfold search. now rewrite lower_idem. Qed.

End WithHash.

Lemma search_ranks_and_cuts_witness :
  exists results,
    search Examples.flat_hash Examples.online
           {| skills := Examples.network_index; registries := KNOWN_REGISTRIES;
              _index_loaded := true |}
           "PDF notes" 1 default_threshold
    = Ok (results,
          {| skills := Examples.network_index; registries := KNOWN_REGISTRIES;
             _index_loaded := true |},
          Examples.online)
    /\ List.length results = 1%nat.
Proof.
  destruct (@search_ranks_and_cuts Examples.flat_hash Examples.online
              {| skills := Examples.network_index; registries := KNOWN_REGISTRIES;
                 _index_loaded := true |}
              "PDF notes" 1 default_threshold)
    as [results [E [Len _]]].
  - reflexivity.
  - vm_compute. discriminate.
  - lia.
  - exists results. split; [exact E|]. rewrite Len. vm_compute. reflexivity.
Defined.

(** The threshold is met by the double, not by the fraction: one of ten
    query tokens in the description and three among the keywords score
    [0.22 / 2.2], a tenth in exact arithmetic and the double
    [0.09999999999999998] on the machine, below the threshold [0.1]; the
    record is not returned. *)
Example search_misses_the_threshold :
  qualifies (tokens_of Examples.flat_hash Examples.ten_tokens) (1 # 10) Examples.tenth = true
  /\ passes (tokens_of Examples.flat_hash Examples.ten_tokens) default_threshold Examples.tenth
     = false
  /\ search Examples.flat_hash Examples.online Examples.tenth_registry Examples.ten_tokens 10
            default_threshold
     = Ok ([], Examples.tenth_registry, Examples.online).
Proof. split; [|split]; vm_compute; reflexivity. Qed.

End SearchProps.

(** ** Loading, [get] and [list_skills] *)

Module RegistryProps.
Import external_registry Spec DictFacts.

Lemma leb_trans (x y z : string) :
  String.leb x y = true -> String.leb y z = true -> String.leb x z = true.
Proof.
  unfold String.leb. revert y z; induction x as [|a x IH]; intros [|b y] [|c z];
    cbn [String.compare]; try (intros; reflexivity); try discriminate.
  unfold Ascii.compare.
  destruct (N.compare_spec (N_of_ascii a) (N_of_ascii b)) as [E1|E1|E1];
    destruct (N.compare_spec (N_of_ascii b) (N_of_ascii c)) as [E2|E2|E2];
    destruct (N.compare_spec (N_of_ascii a) (N_of_ascii c)) as [E3|E3|E3];
    try discriminate; try (intros; reflexivity); try (exfalso; lia).
  apply IH.
Qed.

Lemma sort_by_name_sorted (l : list RemoteSkill) :
  StronglySorted (fun a b => String.leb (name a) (name b) = true) (sort_by_name l).
Proof.
  apply stable_sort_sorted.
  - intros x y. apply String.leb_total.
  - intros x y z. apply leb_trans.
Qed.

Lemma keep_by_In (field : RemoteSkill -> string) (f : option string)
      (l : list RemoteSkill) (s : RemoteSkill) :
  In s (keep_by field f l) <-> In s l /\ wanted f (field s).
Proof.
  destruct f as [[|a v]|]; cbn [keep_by wanted]; try tauto.
  rewrite filter_In, String.eqb_eq. tauto.
Qed.

(** What a load leaves behind. *)
Lemma load_index_effects (w : World) (self : ExternalRegistry) (force : bool)
      (n : nat) (self' : ExternalRegistry) (w' : World) :
  load_index w self force = Ok (n, self', w') ->
  n = List.length (skills self')
  /\ _index_loaded self' = true
  /\ registries self' = registries self
  /\ clock w' = clock w /\ bundled_files w' = bundled_files w /\ fetch w' = fetch w
  /\ other_formats w' = other_formats w
  /\ (exists file, cache_dir w' = Directory file)
  /\ (w' = _ensure_cache_dir w \/ (skills self' <> [] /\ w' = _save_cache w (skills self')))
  /\ (cache_file w' = cache_file w
      \/ (skills self' <> []
          /\ cache_file w' = Some (Json.json_dumps (cache_data w (skills self')))))
  /\ (force = true -> w' = persisted w (skills self')).
Proof.
  rewrite NetworkFacts.load_index_steps.
  destruct (NetworkFacts.ensure_cache_dir_reads w) as [Ec [Ef [Eb [En Eo]]]].
  destruct (if negb force then read_cache w (skills self) else Ok None) as [[cached|]|e] eqn:C;
    cbn [bind]; [| |discriminate].
  - intros H. injection H as <- <- <-. cbn [loaded skills registries _index_loaded].
    repeat (split; [reflexivity|]). repeat (split; [assumption|]).
    split; [eexists; apply NetworkFacts.ensure_cache_dir_made|].
    split; [now left|]. split; [now left|].
    intros ->. discriminate C.
  - destruct (_load_bundled_index (bundled_files w) (skills self)) as [[b skills1]|e];
      cbn [bind]; [|discriminate].
    destruct (if force || negb b
              then index_registries w (sorted_registries (registries self)) skills1
              else Ok skills1) as [skills2|e]; cbn [bind]; [|discriminate].
    intros H. injection H as <- <- <-. cbn [loaded skills registries _index_loaded].
    split; [reflexivity|]. split; [reflexivity|]. split; [reflexivity|].
    unfold persisted.
    destruct skills2 as [|kv skills2]; cbn [nonempty].
    + repeat (split; [assumption|]).
      split; [eexists; apply NetworkFacts.ensure_cache_dir_made|].
      split; [now left|]. split; [now left | reflexivity].
    + cbn [_save_cache clock bundled_files fetch other_formats cache_dir].
      repeat (split; [reflexivity|]). split; [eexists; reflexivity|].
      split; [right; split; [discriminate | reflexivity]|].
      split; [right; split; [discriminate | reflexivity] | reflexivity].
Qed.

Lemma ensure_loaded_effects (w : World) (self self' : ExternalRegistry) (w' : World) :
  ensure_loaded w self = Ok (self', w') ->
  _index_loaded self' = true /\ ensure_loaded w' self' = Ok (self', w').
Proof.
  unfold ensure_loaded at 1. destruct (_index_loaded self) eqn:L; cbn [negb].
  - intros H. injection H as <- <-. split; [exact L|]. unfold ensure_loaded. now rewrite L.
  - destruct (load_index w self false) as [[[n s1] w1]|e] eqn:E; cbn [bind]; [|discriminate].
    intros H. injection H as <- <-.
    destruct (load_index_effects _ _ _ E) as (_ & F & _).
    split; [exact F|]. unfold ensure_loaded. now rewrite F.
Qed.

(** X14.  Whatever [load_index] does, it returns the number of records
    then in memory, sets the loaded flag, keeps the list of registries,
    and leaves the clock, the bundled files, the network and the library as
    they are.  It makes the cache directory, whatever the index.  The one
    file it may write is the cache, and only with a non-empty index; a
    forced load writes every non-empty index it ends with. *)
Theorem load_index_touches_only_the_cache
        (w : World) (self : ExternalRegistry) (force : bool)
        (n : nat) (self' : ExternalRegistry) (w' : World) :
  load_index w self force = Ok (n, self', w') ->
  n = List.length (skills self')
  /\ _index_loaded self' = true
  /\ registries self' = registries self
  /\ clock w' = clock w /\ bundled_files w' = bundled_files w /\ fetch w' = fetch w
  /\ other_formats w' = other_formats w
  /\ (exists file, cache_dir w' = Directory file)
  /\ (w' = _ensure_cache_dir w \/ (skills self' <> [] /\ w' = _save_cache w (skills self')))
  /\ (cache_file w' = cache_file w
      \/ (skills self' <> []
          /\ cache_file w' = Some (Json.json_dumps (cache_data w (skills self')))))
  /\ (force = true -> w' = persisted w (skills self')).
Proof. apply load_index_effects. Qed.

Lemma load_index_touches_only_the_cache_witness :
  exists w',
    load_index Examples.offline_with_bundle __init__ false
    = Ok (1%nat, loaded __init__ [("pdf-tools", Examples.pdf_tools_bundled)], w')
    /\ cache_dir Examples.offline_with_bundle = NoDirectory
    /\ (exists file, cache_dir w' = Directory file)
    /\ cache_file w'
       = Some (Json.json_dumps (cache_data Examples.offline_with_bundle [("pdf-tools", Examples.pdf_tools_bundled)])).
Proof.
  destruct (load_index Examples.offline_with_bundle __init__ false)
    as [[[n self'] w']|] eqn:E; [|vm_compute in E; discriminate E].
  destruct (@load_index_touches_only_the_cache Examples.offline_with_bundle __init__ false
              n self' w' E) as (_ & _ & _ & _ & _ & _ & _ & D & _ & [F | [_ F]] & _).
  - exfalso. vm_compute in E. injection E as _ _ <-. vm_compute in F. discriminate F.
  - exists w'. assert (S : n = 1%nat /\ self' = loaded __init__ [("pdf-tools", Examples.pdf_tools_bundled)]).
    { vm_compute in E. injection E as <- <- _. split; reflexivity. }
    destruct S as [-> ->]. split; [reflexivity|]. split; [reflexivity|].
    split; [exact D | exact F].
Defined.

(** A load that ends with no record makes the directory and writes no
    file. *)
Example empty_load_makes_the_directory :
  load_index (Examples.offline Examples.midnight None) __init__ false
  = Ok (0%nat, loaded __init__ [],
        _ensure_cache_dir (Examples.offline Examples.midnight None))
  /\ cache_dir (Examples.offline Examples.midnight None) = NoDirectory
  /\ cache_dir (_ensure_cache_dir (Examples.offline Examples.midnight None)) = Directory None.
Proof. split; [vm_compute; reflexivity|]. split; reflexivity. Qed.

(** X15.  [get] loads the index on first use only: after a call the
    loaded flag is set, the answer is the record stored under the name,
    and every later [get] answers from memory, with the registry and the
    world left as they are. *)
Theorem get_loads_once
        (w : World) (self : ExternalRegistry) (x : string)
        (r : option RemoteSkill) (self' : ExternalRegistry) (w' : World) :
  get w self x = Ok (r, self', w') ->
  _index_loaded self' = true
  /\ r = dict_lookup x (skills self')
  /\ forall y, get w' self' y = Ok (dict_lookup y (skills self'), self', w').
Proof.
  unfold get at 1. destruct (ensure_loaded w self) as [[s1 w1]|e] eqn:E; cbn [bind]; [|discriminate].
  intros H. injection H as <- <- <-.
  destruct (ensure_loaded_effects _ _ E) as [F I].
  split; [exact F|]. split; [reflexivity|].
  intros y. unfold get. rewrite I. reflexivity.
Qed.

Lemma get_loads_once_witness :
  _index_loaded (loaded __init__ Examples.network_index) = true
  /\ Some Examples.notes_anthropic
     = dict_lookup "notes" (skills (loaded __init__ Examples.network_index))
  /\ forall y,
       get (persisted Examples.online Examples.network_index)
           (loaded __init__ Examples.network_index) y
       = Ok (dict_lookup y (skills (loaded __init__ Examples.network_index)),
             loaded __init__ Examples.network_index,
             persisted Examples.online Examples.network_index).
Proof.
  apply (@get_loads_once Examples.online __init__ "notes").
  vm_compute. reflexivity.
Defined.

(** X16.  With the index in memory, [list_skills] returns the records
    that pass both filters, each as often as the index holds it, in the
    order of their names; a filter that is absent or the empty string lets
    every record through. *)
Theorem list_skills_filters_and_sorts
        (w : World) (self : ExternalRegistry) (source category : option string) :
  _index_loaded self = true ->
  exists l,
    list_skills w self source category = Ok (l, self, w)
    /\ StronglySorted (fun a b => String.leb (name a) (name b) = true) l
    /\ Permutation l (keep_by external_registry.category category
                        (keep_by external_registry.source source (values (skills self))))
    /\ forall s, In s l <-> In s (values (skills self))
                            /\ wanted source (external_registry.source s)
                            /\ wanted category (external_registry.category s).
Proof.
  intros L. unfold list_skills, ensure_loaded. rewrite L. cbn [negb bind].
  eexists. split; [reflexivity|]. split; [apply sort_by_name_sorted|].
  assert (P : Permutation
                (sort_by_name (keep_by external_registry.category category
                   (keep_by external_registry.source source (values (skills self)))))
                (keep_by external_registry.category category
                   (keep_by external_registry.source source (values (skills self)))))
    by apply stable_sort_perm.
  split; [exact P|]. intros s. split.
  - intros H. apply (Permutation_in _ P) in H.
    apply keep_by_In in H as [H Hc]. apply keep_by_In in H as [H Hs]. tauto.
  - intros (H & Hs & Hc). apply (Permutation_in _ (Permutation_sym P)).
    apply keep_by_In. split; [|exact Hc]. apply keep_by_In. tauto.
Qed.

Lemma list_skills_filters_and_sorts_witness :
  exists l,
    list_skills Examples.online (loaded __init__ Examples.network_index)
                (Some "anthropic-skills") (Some EmptyString)
    = Ok (l, loaded __init__ Examples.network_index, Examples.online)
    /\ forall s, In s l <-> In s (values Examples.network_index)
                            /\ source s = "anthropic-skills" /\ True.
Proof.
  destruct (@list_skills_filters_and_sorts Examples.online
              (loaded __init__ Examples.network_index)
              (Some "anthropic-skills") (Some EmptyString) eq_refl)
    as [l [E [_ [_ H]]]].
  exists l. split; [exact E | exact H].
Defined.

End RegistryProps.

(** ** The cache *)

Module CacheProps.
Import external_registry Spec DictFacts.

Lemma read_cache_stamped (w : World) (skills : index)
      (m : list (string * Json.json)) (stamp : string) :
  cache_file w = Some (Json.Doc (Json.JObj m)) -> stamped m stamp ->
  read_cache w skills
  = try_except
      (cache_time <- Datetime.fromisoformat (other_formats w) (replace "Z" "+00:00" stamp) ;;
       age <- Datetime.sub_us (Datetime.now_utc (clock w)) cache_time ;;
       if (age <? 86400 * Datetime.second_us)%Z then
         v <- Json.dict_get (Json.JObj m) "skills" (Json.JArr []) ;;
         items <- Json.iterate v ;;
         skills' <- cache_items items skills ;;
         Ok (Some skills')
       else Ok None)
      [JSONDecodeError; KeyError; ValueError]
      (Ok None).
Proof.
  intros Hc Hs. unfold read_cache. rewrite Hc.
  cbn [Json.json_loads bind Json.dict_get].
  destruct Hs as [Hs | [Hs ->]]; rewrite Hs; reflexivity.
Qed.

Lemma bind_raise {A B : Type} (m : exn A) (k : A -> exn B) (e : pyerr) :
  bind m k = Raise e -> m = Raise e \/ exists a, m = Ok a /\ k a = Raise e.
Proof.
  destruct m as [a|e']; cbn [bind]; intros H; [right; now exists a|].
  left. injection H as ->. reflexivity.
Qed.

Lemma field_raises (m : list (string * Json.json)) (k : string) (d : option Json.json)
      (e : pyerr) :
  (v <- kwarg m k d ;; Json.as_str v) = Raise e -> e = TypeError \/ e = Untyped.
Proof.
  unfold kwarg. intros H. apply bind_raise in H as [H | [v [_ H]]].
  - destruct (Json.assoc k m); [discriminate|]. destruct d; [discriminate|].
    injection H as <-. now left.
  - destruct v; try discriminate; injection H as <-; now right.
Qed.

Lemma as_strs_raises (l : list Json.json) (e : pyerr) :
  Json.as_strs l = Raise e -> e = Untyped.
Proof.
  induction l as [|v l IH]; cbn [Json.as_strs]; [discriminate|].
  intros H. apply bind_raise in H as [H | [s [_ H]]].
  - destruct v; try discriminate; now injection H as <-.
  - apply bind_raise in H as [H | [r [_ H]]]; [now apply IH | discriminate].
Qed.

Lemma keywords_raise (m : list (string * Json.json)) (k : string) (d : option Json.json)
      (e : pyerr) :
  (v <- kwarg m k d ;; Json.as_keywords v) = Raise e -> e = TypeError \/ e = Untyped.
Proof.
  unfold kwarg. intros H. apply bind_raise in H as [H | [v [_ H]]].
  - destruct (Json.assoc k m); [discriminate|]. destruct d; [discriminate|].
    injection H as <-. now left.
  - right. destruct v; try discriminate; try (now injection H as <-).
    now apply as_strs_raises in H.
Qed.

(** The constructor raises nothing the cache branch catches. *)
Lemma kwargs_raises (x : Json.json) (e : pyerr) :
  RemoteSkill_kwargs x = Raise e -> e = TypeError \/ e = Untyped.
Proof.
  unfold RemoteSkill_kwargs.
  destruct x as [| | | | |m]; try (intros H; injection H as <-; now left).
  destruct (negb _); [intros H; injection H as <-; now left|].
  intros H.
  apply bind_raise in H as [H | [? [_ H]]]; [now apply field_raises in H|].
  apply bind_raise in H as [H | [? [_ H]]]; [now apply field_raises in H|].
  apply bind_raise in H as [H | [? [_ H]]]; [now apply field_raises in H|].
  apply bind_raise in H as [H | [? [_ H]]]; [now apply field_raises in H|].
  apply bind_raise in H as [H | [? [_ H]]]; [now apply field_raises in H|].
  apply bind_raise in H as [H | [? [_ H]]]; [now apply keywords_raise in H|].
  apply bind_raise in H as [H | [? [_ H]]]; [now apply field_raises in H|].
  apply bind_raise in H as [H | [? [_ H]]]; [now apply field_raises in H|].
  discriminate H.
Qed.

Lemma cache_items_raises (l : list Json.json) (skills : index) (e : pyerr) :
  cache_items l skills = Raise e -> e = TypeError \/ e = Untyped.
Proof.
  revert skills; induction l as [|x l IH]; intros skills; cbn [cache_items]; [discriminate|].
  intros H. apply bind_raise in H as [H | [r [_ H]]]; [now apply kwargs_raises in H|].
  now apply IH in H.
Qed.

Lemma read_cache_fresh (w : World) (skills : index)
      (m : list (string * Json.json)) (stamp : string) (items : list Json.json) :
  cache_file w = Some (Json.Doc (Json.JObj m)) -> stamped m stamp -> fresh w stamp ->
  Json.assoc "skills" m = Some (Json.JArr items) ->
  read_cache w skills = (skills' <- cache_items items skills ;; Ok (Some skills')).
Proof.
  intros Hc Hs [t [age [Ht [Ha Hlt]]]] Hk.
  rewrite (@read_cache_stamped w skills m stamp Hc Hs), Ht. cbn [bind]. rewrite Ha. cbn [bind].
  apply Z.ltb_lt in Hlt. rewrite Hlt. cbn [Json.dict_get bind]. rewrite Hk.
  cbn [Json.iterate bind].
  destruct (cache_items items skills) as [s|e] eqn:E; [reflexivity|].
  cbn [bind try_except].
  destruct (cache_items_raises _ _ E) as [-> | ->]; reflexivity.
Qed.

Lemma cache_items_saved (recs : list RemoteSkill) (skills : index) :
  cache_items (map to_dict recs) skills
  = Ok (fold_left (fun d s => dict_set (name s) s d) recs skills).
Proof.
  revert skills; induction recs as [|r recs IH]; intros skills; cbn [map cache_items fold_left];
    [reflexivity|].
  rewrite CacheClaims.kwargs_of_to_dict. cbn [bind]. apply IH.
Qed.

Lemma fold_values_index (idx pre : index) :
  NoDup (map fst (pre ++ idx)) -> Forall (fun kv => fst kv = name (snd kv)) idx ->
  fold_left (fun d s => dict_set (name s) s d) (values idx) pre = pre ++ idx.
Proof.
  revert pre; induction idx as [|[k v] idx IH]; intros pre Hnd Hf;
    cbn [values map fold_left snd].
  - now rewrite app_nil_r.
  - inversion Hf as [|? ? Hk Hrest]; subst. cbn [fst snd] in Hk. subst k.
    assert (Ha : dict_lookup (name v) pre = None).
    { apply dict_lookup_keys. rewrite map_app in Hnd. cbn [map fst] in Hnd.
      apply NoDup_remove_2 in Hnd. intros Hin. apply Hnd. apply in_or_app. now left. }
    rewrite dict_set_absent by exact Ha.
    change (map snd idx) with (values idx). rewrite IH.
    + now rewrite <- List.app_assoc.
    + now rewrite <- List.app_assoc.
    + exact Hrest.
Qed.

(** X17.  A cache whose stamp parses and is less than a day old is read
    back record for record: for an index saved as [_save_cache] writes its
    records, a first [load_index] takes the cache, returns the records in
    their order, and touches nothing -- no bundled file, no network, no
    write. *)
Theorem fresh_cache_is_read_back
        (w : World) (self : ExternalRegistry)
        (m : list (string * Json.json)) (stamp : string) (idx : index) :
  cache_file w = Some (Json.Doc (Json.JObj m)) ->
  stamped m stamp -> fresh w stamp ->
  Json.assoc "skills" m = Some (Json.JArr (map to_dict (values idx))) ->
  is_index idx ->
  skills self = [] ->
  load_index w self false = Ok (List.length idx, loaded self idx, w).
Proof.
  intros Hc Hs Hf Hk [Hnd Hn] He. rewrite NetworkFacts.load_index_steps. cbn [negb].
  rewrite (@read_cache_fresh w (skills self) m stamp _ Hc Hs Hf Hk), He.
  rewrite cache_items_saved, (@fold_values_index idx [] Hnd Hn). cbn [bind app].
  now rewrite (NetworkFacts.ensure_cache_dir_file w Hc).
Qed.

Lemma fresh_cache_is_read_back_witness :
  load_index (Examples.offline Examples.one_o_clock (Some Examples.envelope_with_plain_stamp))
             __init__ false
  = Ok (1%nat, loaded __init__ Examples.pdf_index,
        Examples.offline Examples.one_o_clock (Some Examples.envelope_with_plain_stamp)).
Proof.
  apply (@fresh_cache_is_read_back
           (Examples.offline Examples.one_o_clock (Some Examples.envelope_with_plain_stamp))
           __init__ Examples.cache_plain_members "2026-01-01T00:00:00Z" Examples.pdf_index).
  - reflexivity.
  - left. reflexivity.
  - do 2 eexists. split; [vm_compute; reflexivity|]. split; [vm_compute; reflexivity|].
    vm_compute. reflexivity.
  - reflexivity.
  - split; [repeat constructor; intros []|repeat constructor].
  - reflexivity.
Defined.

Lemma read_cache_unusable (w : World) (skills : index) :
  unusable_cache w -> read_cache w skills = Ok None.
Proof.
  intros Hu. unfold unusable_cache in Hu. destruct (cache_file w) as [[s|j]|] eqn:C.
  - unfold read_cache. now rewrite C.
  - destruct j as [| | | | |m]; try contradiction.
    destruct Hu as [stamp [Hs Hst]].
    rewrite (@read_cache_stamped w skills m stamp C Hs).
    destruct Hst as [Hv | [t [age [Ht [Ha Hge]]]]].
    + now rewrite Hv.
    + rewrite Ht. cbn [bind]. rewrite Ha. cbn [bind].
      assert (F : (age <? 86400 * Datetime.second_us)%Z = false) by (apply Z.ltb_ge; exact Hge).
      now rewrite F.
  - unfold read_cache. now rewrite C.
Qed.

(** X18.  A cache that is missing, is not JSON, or carries a stale or
    unreadable stamp is passed over; when no bundled index can be read
    either, a plain [load_index] does what a forced one does. *)
Theorem unusable_cache_means_rebuild (w : World) (self : ExternalRegistry) :
  unusable_cache w -> no_bundled_index w ->
  load_index w self false = load_index w self true.
Proof.
  intros Hu Hb.
  rewrite !NetworkFacts.load_index_steps. cbn [negb].
  rewrite (@read_cache_unusable w (skills self) Hu). cbn [bind].
  rewrite (@LoadClaims.load_bundled_none w (skills self) Hb). reflexivity.
Qed.

Lemma unusable_cache_means_rebuild_witness :
  load_index (Examples.offline Examples.midnight (Some (Json.Plain "not json"))) __init__ false
  = load_index (Examples.offline Examples.midnight (Some (Json.Plain "not json"))) __init__ true.
Proof.
  apply unusable_cache_means_rebuild; [exact I | repeat constructor].
Defined.

(** X19.  A cache that holds JSON of the wrong shape stops the load: when
    the document is not an object, or its [updated] is not a string, the
    call on it raises an [AttributeError], which the cache branch does not
    catch. *)
Theorem cache_of_wrong_shape_raises (w : World) (self : ExternalRegistry) :
  (exists j, cache_file w = Some (Json.Doc j) /\ is_object j = false)
  \/ (exists m v, cache_file w = Some (Json.Doc (Json.JObj m))
                  /\ Json.assoc "updated" m = Some v /\ is_string v = false) ->
  load_index w self false = Raise AttributeError.
Proof.
  intros [[j [C H]] | [m [v [C [U H]]]]]; rewrite NetworkFacts.load_index_steps;
    unfold read_cache; cbn [negb]; rewrite C; cbn [Json.json_loads bind Json.dict_get].
  - destruct j; try discriminate H; reflexivity.
  - rewrite U. destruct v; try discriminate H; reflexivity.
Qed.

Lemma cache_of_wrong_shape_raises_witness :
  load_index (Examples.offline Examples.midnight (Some Examples.cache_array)) __init__ false
  = Raise AttributeError.
Proof.
  apply cache_of_wrong_shape_raises. left. exists (Json.JArr []). split; reflexivity.
Defined.

(** X20.  A stamp that the library reads as a time without an offset --
    a date alone, or a date and a time with neither [Z] nor [+hh:mm] --
    gives a naive time; subtracting it from the aware reading of the clock
    raises a [TypeError], and so does the load. *)
Theorem naive_stamp_raises_type_error
        (w : World) (self : ExternalRegistry)
        (m : list (string * Json.json)) (stamp : string) (t : Datetime.datetime) :
  cache_file w = Some (Json.Doc (Json.JObj m)) ->
  stamped m stamp ->
  Datetime.fromisoformat (other_formats w) (replace "Z" "+00:00" stamp) = Ok t ->
  Datetime.utcoffset t = None ->
  load_index w self false = Raise TypeError.
Proof.
  intros Hc Hs Ht Hn. rewrite NetworkFacts.load_index_steps. cbn [negb].
  rewrite (@read_cache_stamped w (skills self) m stamp Hc Hs), Ht. cbn [bind].
  unfold Datetime.sub_us. cbn [Datetime.now_utc Datetime.utcoffset]. rewrite Hn. reflexivity.
Qed.

Lemma naive_stamp_raises_type_error_witness :
  load_index (Examples.offline Examples.one_o_clock
                (Some (Json.Doc (Json.JObj Examples.cache_naive_members))))
             __init__ false
  = Raise TypeError.
Proof.
  eapply (@naive_stamp_raises_type_error
            (Examples.offline Examples.one_o_clock
               (Some (Json.Doc (Json.JObj Examples.cache_naive_members))))
            __init__ Examples.cache_naive_members "2026-01-01T00:00:00").
  - reflexivity.
  - left. reflexivity.
  - vm_compute. reflexivity.
  - reflexivity.
Defined.

Lemma kwargs_rejected (item : Json.json) :
  rejected item -> RemoteSkill_kwargs item = Raise TypeError.
Proof.
  unfold RemoteSkill_kwargs. destruct item as [| | | | |m]; try reflexivity.
  cbn [rejected]. intros H.
  destruct (forallb (fun kv => mem (fst kv) field_names) m) eqn:F; [|reflexivity].
  cbn [negb]. destruct H as [H | [kv [Hin Hm]]].
  - unfold kwarg. rewrite H. reflexivity.
  - rewrite forallb_forall in F. rewrite (F kv Hin) in Hm. discriminate Hm.
Qed.

(** X21.  One entry of a fresh cache that the constructor refuses -- an
    entry that is not an object, has no [name], or has a member that is no
    field of [RemoteSkill] -- stops the load with a [TypeError], whatever
    the entries before and after it. *)
Theorem rejected_cache_entry_raises
        (w : World) (self : ExternalRegistry)
        (m : list (string * Json.json)) (stamp : string)
        (good : list RemoteSkill) (bad : Json.json) (rest : list Json.json) :
  cache_file w = Some (Json.Doc (Json.JObj m)) ->
  stamped m stamp -> fresh w stamp ->
  Json.assoc "skills" m = Some (Json.JArr (map to_dict good ++ bad :: rest)) ->
  rejected bad ->
  load_index w self false = Raise TypeError.
Proof.
  intros Hc Hs Hf Hk Hb. rewrite NetworkFacts.load_index_steps. cbn [negb].
  rewrite (@read_cache_fresh w (skills self) m stamp _ Hc Hs Hf Hk).
  assert (E : forall sk, cache_items (map to_dict good ++ bad :: rest) sk = Raise TypeError).
  { clear - Hb. induction good as [|g good IH]; intros sk; cbn [map app cache_items].
    - now rewrite (@kwargs_rejected bad Hb).
    - rewrite CacheClaims.kwargs_of_to_dict. cbn [bind]. apply IH. }
  now rewrite E.
Qed.

Lemma rejected_cache_entry_raises_witness :
  load_index (Examples.offline Examples.one_o_clock
                (Some (Json.Doc (Json.JObj Examples.cache_starred_members))))
             __init__ false
  = Raise TypeError.
Proof.
  apply (@rejected_cache_entry_raises
           (Examples.offline Examples.one_o_clock
              (Some (Json.Doc (Json.JObj Examples.cache_starred_members))))
           __init__ Examples.cache_starred_members "2026-01-01T00:00:00Z"
           [Examples.pdf_plain] Examples.starred []).
  - reflexivity.
  - left. reflexivity.
  - do 2 eexists. split; [vm_compute; reflexivity|]. split; [vm_compute; reflexivity|].
    vm_compute. reflexivity.
  - reflexivity.
  - right. exists ("stars", Json.JNum 5). split; [cbn; tauto | reflexivity].
Defined.

End CacheProps.

(** ** The bundled index *)

Module BundledProps.
Import external_registry Spec DictFacts.

Lemma bundled_field_raises (m : list (string * Json.json)) (k : string) (d : Json.json)
      (e : pyerr) :
  (v <- Json.dict_get (Json.JObj m) k d ;; Json.as_str v) = Raise e -> e = Untyped.
Proof.
  cbn [Json.dict_get bind]. destruct (match Json.assoc k m with Some v => v | None => d end);
    cbn [Json.as_str]; try discriminate; intros H; now injection H as <-.
Qed.

Lemma bundled_keywords_raise (m : list (string * Json.json)) (k : string) (d : Json.json)
      (e : pyerr) :
  (v <- Json.dict_get (Json.JObj m) k d ;; Json.as_keywords v) = Raise e -> e = Untyped.
Proof.
  cbn [Json.dict_get bind]. destruct (match Json.assoc k m with Some v => v | None => d end);
    cbn [Json.as_keywords]; try discriminate; try (intros H; now injection H as <-).
  apply CacheProps.as_strs_raises.
Qed.

Lemma bundled_items_raises (items : list Json.json) (skills : index) (e : pyerr) :
  bundled_items items skills = Raise e -> e = Untyped.
Proof.
  revert skills; induction items as [|x items IH]; intros skills; cbn [bundled_items];
    [discriminate|].
  destruct x as [| | | | |m]; try apply IH.
  intros H.
  apply CacheProps.bind_raise in H as [H | [? [_ H]]]; [now apply bundled_field_raises in H|].
  apply CacheProps.bind_raise in H as [H | [? [_ H]]]; [now apply bundled_field_raises in H|].
  apply CacheProps.bind_raise in H as [H | [? [_ H]]]; [now apply bundled_field_raises in H|].
  apply CacheProps.bind_raise in H as [H | [? [_ H]]]; [now apply bundled_field_raises in H|].
  apply CacheProps.bind_raise in H as [H | [? [_ H]]]; [now apply bundled_field_raises in H|].
  apply CacheProps.bind_raise in H as [H | [? [_ H]]]; [now apply bundled_keywords_raise in H|].
  apply CacheProps.bind_raise in H as [H | [? [_ H]]]; [now apply bundled_field_raises in H|].
  now apply IH in H.
Qed.

(** The loop over a document raises nothing that [_load_bundled_index]
    catches. *)
Lemma bundled_document_raises (j : Json.json) (skills : index) (e : pyerr) :
  bundled_document j skills = Raise e ->
  existsb (pyerr_eqb e) [JSONDecodeError; KeyError] = false.
Proof.
  unfold bundled_document. intros H.
  apply CacheProps.bind_raise in H as [H | [v [_ H]]].
  - destruct j; try discriminate; now injection H as <-.
  - apply CacheProps.bind_raise in H as [H | [items [_ H]]].
    + destruct v; try discriminate; now injection H as <-.
    + apply CacheProps.bind_raise in H as [H | [s [_ H]]]; [|discriminate].
      apply bundled_items_raises in H. now subst.
Qed.

Lemma load_bundled_first_readable (files : list (option Json.text)) (j : Json.json)
      (skills : index) :
  first_readable files j -> _load_bundled_index files skills = bundled_document j skills.
Proof.
  intros [pre [rest [-> Hpre]]]. induction Hpre as [|f pre Hf _ IH]; cbn [app _load_bundled_index].
  - cbn [Json.json_loads]. fold (bundled_document j skills).
    destruct (bundled_document j skills) as [r|e] eqn:E; cbn [try_except]; [reflexivity|].
    now rewrite (@bundled_document_raises j skills e E).
  - destruct f as [t|]; [|exact IH]. cbn [unreadable] in Hf. now rewrite Hf.
Qed.

(** X22.  [_load_bundled_index] reads one file, the first of its candidate
    paths that holds a JSON document: what it returns does not depend on
    the paths after it, and whenever it returns with that document it
    reports the index as loaded, even when the document lists no skill. *)
Theorem bundled_index_first_readable_wins
        (files : list (option Json.text)) (j : Json.json) (skills : index) :
  first_readable files j ->
  _load_bundled_index files skills = _load_bundled_index [Some (Json.Doc j)] skills
  /\ forall b idx, _load_bundled_index files skills = Ok (b, idx) -> b = true.
Proof.
  intros H.
  assert (One : first_readable [Some (Json.Doc j)] j).
  { exists [], []. split; [reflexivity | constructor]. }
  rewrite (@load_bundled_first_readable files j skills H).
  rewrite (@load_bundled_first_readable _ j skills One).
  split; [reflexivity|]. unfold bundled_document. intros b idx E.
  destruct (Json.dict_get j "skills" (Json.JArr [])) as [v|]; cbn [bind] in E; [|discriminate].
  destruct (Json.iterate v) as [items|]; cbn [bind] in E; [|discriminate].
  destruct (bundled_items items skills); cbn [bind] in E; [|discriminate].
  now injection E as <- _.
Qed.

Lemma bundled_index_first_readable_wins_witness :
  _load_bundled_index (bundled_files Examples.online_with_bundle) []
  = _load_bundled_index [Some Examples.bundled_pdf_tools] []
  /\ forall b idx,
       _load_bundled_index (bundled_files Examples.online_with_bundle) [] = Ok (b, idx) ->
       b = true.
Proof.
  apply bundled_index_first_readable_wins.
  exists [None], [None]. split; [reflexivity | repeat constructor].
Defined.

Lemma bundled_items_saved (recs : list RemoteSkill) (skills : index) :
  bundled_items (map to_dict recs) skills
  = Ok (fold_left (fun d s => dict_set (name s) (without_readme s) d) recs skills).
Proof.
  revert skills; induction recs as [|r recs IH]; intros skills; [reflexivity|].
  cbn [map fold_left]. unfold to_dict at 1. cbn [bundled_items].
  cbn [Json.dict_get Json.assoc String.eqb Ascii.eqb Bool.eqb bind Json.as_str Json.as_keywords].
  rewrite CacheClaims.as_strs_of_strings. cbn [bind]. apply IH.
Qed.

(** X23.  The bundled index accepts the records in the form the cache
    stores them, each with its name, description, source, address,
    category, keywords and manifest address -- but not its [readme_url],
    which the loader does not read: it comes back empty.  A record stored
    later replaces one of the same name. *)
Theorem bundled_index_drops_readme_url
        (files : list (option Json.text)) (m : list (string * Json.json))
        (recs : list RemoteSkill) (skills : index) :
  first_readable files (Json.JObj m) ->
  Json.assoc "skills" m = Some (Json.JArr (map to_dict recs)) ->
  _load_bundled_index files skills
  = Ok (true, fold_left (fun d s => dict_set (name s) (without_readme s) d) recs skills).
Proof.
  intros H Hs. rewrite (@load_bundled_first_readable files _ skills H).
  unfold bundled_document. cbn [Json.dict_get bind]. rewrite Hs. cbn [Json.iterate bind].
  now rewrite bundled_items_saved.
Qed.

Lemma bundled_index_drops_readme_url_witness :
  _load_bundled_index
    [None; Some (Json.Doc (Json.JObj Examples.cache_plain_members))] []
  = Ok (true, [("pdf", without_readme Examples.pdf_plain)]).
Proof.
  apply (@bundled_index_drops_readme_url
           [None; Some (Json.Doc (Json.JObj Examples.cache_plain_members))]
           Examples.cache_plain_members [Examples.pdf_plain] []).
  - exists [None], []. split; [reflexivity | repeat constructor].
  - reflexivity.
Defined.

(** X24.  With a cache that is passed over and a bundled index that can be
    read, a plain [load_index] stays off line: the records it leaves in
    memory are the same whatever the network would answer. *)
Theorem plain_load_with_bundle_stays_offline
        (w w2 : World) (self : ExternalRegistry) (j : Json.json) :
  unusable_cache w -> unusable_cache w2 ->
  bundled_files w2 = bundled_files w ->
  first_readable (bundled_files w) j ->
  records_of (load_index w2 self false) = records_of (load_index w self false).
Proof.
  intros Hu Hu2 Hb Hj. rewrite !NetworkFacts.load_index_steps. cbn [negb].
  rewrite (@CacheProps.read_cache_unusable w (skills self) Hu).
  rewrite (@CacheProps.read_cache_unusable w2 (skills self) Hu2). cbn [bind]. rewrite Hb.
  rewrite (@load_bundled_first_readable _ j (skills self) Hj).
  destruct (bundled_document j (skills self)) as [[b idx]|e] eqn:E; cbn [bind]; [|reflexivity].
  assert (B : b = true).
  { revert E. unfold bundled_document.
    destruct (Json.dict_get j "skills" (Json.JArr [])) as [v|]; cbn [bind]; [|discriminate].
    destruct (Json.iterate v) as [items|]; cbn [bind]; [|discriminate].
    destruct (bundled_items items (skills self)); cbn [bind]; [|discriminate].
    intros E. now injection E as <- _. }
  subst b. reflexivity.
Qed.

Lemma plain_load_with_bundle_stays_offline_witness :
  records_of (load_index Examples.online_with_bundle __init__ false)
  = records_of (load_index Examples.offline_with_bundle __init__ false).
Proof.
  apply (@plain_load_with_bundle_stays_offline
           Examples.offline_with_bundle Examples.online_with_bundle __init__
           (Json.JObj
              [ ("skills", Json.JArr
                  [ Json.JObj [ ("name", Json.JStr "pdf-tools");
                                ("description", Json.JStr "Bundled copy") ] ]) ])).
  - exact I.
  - exact I.
  - reflexivity.
  - exists [None], [None]. split; [reflexivity | repeat constructor].
Defined.

End BundledProps.

(** ** The unified engine *)

Section SortHead.
Variable A : Type.
Variable before : A -> A -> bool.

(** The first of a sorted list is the first of the input that no earlier
    element may stay in front of. *)
Lemma stable_sort_head (l : list A) (best : A) (others : list A) :
  stable_sort before l = best :: others ->
  exists pre post, l = pre ++ best :: post /\ Forall (fun x => before x best = false) pre.
Proof.
  revert best others; induction l as [|x l IH]; intros best others; cbn [stable_sort fold_right].
  - discriminate.
  - fold (stable_sort before l). destruct (stable_sort before l) as [|y m] eqn:S;
      cbn [insert_sorted].
    + intros H. injection H as <- <-. exists [], l. split; [reflexivity | constructor].
    + destruct (before x y) eqn:B; intros H; injection H as <- <-.
      * exists [], l. split; [reflexivity | constructor].
      * destruct (IH y m eq_refl) as [pre [post [-> Hpre]]].
        exists (x :: pre), post. split; [reflexivity | now constructor].
Qed.

Lemma insert_app_accept (y : A) (l r : list A) :
  match r with [] => True | b :: _ => before y b = true end ->
  insert_sorted before y (l ++ r) = insert_sorted before y l ++ r.
Proof.
  intros H. induction l as [|a l IH]; cbn [app insert_sorted].
  - destruct r as [|b r]; cbn [insert_sorted]; [reflexivity | now rewrite H].
  - destruct (before y a); [reflexivity|]. cbn [app]. now rewrite IH.
Qed.

Lemma insert_app_reject (y : A) (l r : list A) :
  Forall (fun a => before y a = false) l ->
  insert_sorted before y (l ++ r) = l ++ insert_sorted before y r.
Proof.
  induction 1 as [|a l Ha _ IH]; cbn [app insert_sorted]; [reflexivity|].
  now rewrite Ha, IH.
Qed.

End SortHead.

Module UnifiedProps.
Import external_registry unified_search Spec SearchFacts.

Lemma prefix_of_split {A : Type} (l1 l2 pre post : list A) (x : A) :
  l1 ++ l2 = pre ++ x :: post -> ~ In x l1 -> exists pre', pre = l1 ++ pre'.
Proof.
  revert pre; induction l1 as [|a l1 IH]; intros pre E Hx; cbn [app] in *.
  - now exists pre.
  - destruct pre as [|b pre]; cbn [app] in E; injection E as -> E.
    + exfalso. apply Hx. now left.
    + destruct (IH pre E) as [pre' ->]; [intros H; apply Hx; now right|].
      now exists pre'.
Qed.

Lemma names_length (l : list result) (ns : list string) :
  names l = Ok ns -> List.length ns = List.length l.
Proof.
  revert ns; induction l as [|r l IH]; intros ns; cbn [names].
  - intros H. now injection H as <-.
  - destruct (item (r_name r)); cbn [bind]; [|discriminate].
    destruct (names l) as [ns'|]; cbn [bind]; [|discriminate].
    intros H. injection H as <-. cbn [List.length]. now rewrite (IH ns' eq_refl).
Qed.

(** The part of [recommend] after the search. *)
Lemma recommend_from_prefers_installed
      (query : string) (local external : list result)
      (skill : string) (confidence : Q) (installed : bool) (source url description : string)
      (alternatives : list string) (install_command : option string) :
  recommend_from query local external
  = Ok (Recommended skill confidence installed source url description
          alternatives install_command) ->
  (installed = true <-> install_command = None)
  /\ (List.length alternatives <= 3)%nat
  /\ (installed = false -> forall l, In l local -> score_of l < confidence).
Proof.
  unfold recommend_from. fold (union local external).
  destruct (sort_by_score (union local external)) as [|best others] eqn:S; [discriminate|].
  destruct (item (r_name best)) as [sk|]; cbn [bind]; [|discriminate].
  destruct (names (firstn 3 others)) as [alts|] eqn:N; cbn [bind]; [|discriminate].
  destruct (get (r_installed best) false) eqn:I; cbn [negb bind].
  - intros H. injection H as <- <- <- <- <- <- <- <-.
    split; [tauto|]. split; [|discriminate].
    rewrite (@names_length _ _ N), length_firstn. lia.
  - destruct (_get_install_command_from_result best) as [c|]; cbn [bind]; [|discriminate].
    intros H. injection H as <- <- <- <- <- <- <- <-.
    split; [split; discriminate|]. split.
    { rewrite (@names_length _ _ N), length_firstn. lia. }
    intros _ l Hl.
    destruct (@stable_sort_head result (fun x y => Qle_bool (score_of y) (score_of x))
                _ best others S) as [pre [post [E Hpre]]].
    unfold union in E.
    destruct (@prefix_of_split _ (map mark_local local) (map mark_external external)
                pre post best E) as [pre' ->].
    { intros Hin. apply in_map_iff in Hin as [l0 [<- _]].
      cbn [mark_local r_installed get] in I. discriminate I. }
    rewrite Forall_forall in Hpre.
    assert (B : Qle_bool (score_of best) (score_of (mark_local l)) = false).
    { apply Hpre. apply in_or_app. left. now apply in_map. }
    change (score_of (mark_local l)) with (score_of l) in B.
    change (get (r_score best) 0) with (score_of best).
    apply Qnot_le_lt. intros Hle. apply Qle_bool_iff in Hle. congruence.
Qed.

Section WithHash.
Variable str_hash : string -> Z.

Lemma search_local (w : World) (self : UnifiedSkillSearch) (query : string) (top_n : Z)
      (local external : list result) (self' : UnifiedSkillSearch) (w' : World) :
  search str_hash w self query top_n false false = Ok (local, external, self', w') ->
  local = local_search self query top_n.
Proof.
  unfold search. cbn [negb andb]. destruct (include_external self).
  - destruct (_ensure_external_loaded w self) as [[s1 w1]|]; cbn [bind]; [|discriminate].
    destruct (the_external_registry s1) as [reg|]; [|discriminate].
    destruct (external_registry.search str_hash w1 reg query top_n default_threshold)
      as [[[ext reg'] w2]|]; cbn [bind]; [|discriminate].
    intros H. now injection H as <- _ _ _.
  - intros H. now injection H as <- _ _ _.
Qed.

(** X25.  [recommend] proposes a skill that is not installed only when it
    scores strictly higher than every local match: on equal scores the
    local one is first.  The install command is given exactly when the
    recommended skill is not installed, and there are at most three
    alternatives. *)
Theorem recommend_prefers_installed
        (w : World) (self : UnifiedSkillSearch) (query : string)
        (skill : string) (confidence : Q) (installed : bool) (source url description : string)
        (alternatives : list string) (install_command : option string)
        (self' : UnifiedSkillSearch) (w' : World) :
  recommend str_hash w self query
  = Ok (Recommended skill confidence installed source url description
          alternatives install_command, self', w') ->
  (installed = true <-> install_command = None)
  /\ (List.length alternatives <= 3)%nat
  /\ (installed = false ->
      forall l, In l (local_search self query 5) -> score_of l < confidence).
Proof.
  unfold recommend.
  destruct (search str_hash w self query 5 false false) as [[[[local external] s1] w1]|] eqn:E;
    cbn [bind]; [|discriminate].
  destruct (recommend_from query local external) as [r|] eqn:R; cbn [bind]; [|discriminate].
  intros H. injection H as -> _ _.
  rewrite <- (@search_local w self query 5 local external s1 w1 E).
  exact (@recommend_from_prefers_installed query local external _ _ _ _ _ _ _ _ R).
Qed.

Lemma search_leaves_loaded (w : World) (reg : ExternalRegistry) (query : string)
      (top_n : Z) (threshold : Q)
      (results : list result) (reg' : ExternalRegistry) (w' : World) :
  external_registry.search str_hash w reg query top_n threshold = Ok (results, reg', w') ->
  _index_loaded reg' = true.
Proof.
  unfold external_registry.search. fold (ensure_loaded w reg).
  destruct (ensure_loaded w reg) as [[r1 w1]|] eqn:E; cbn [bind]; [|discriminate].
  destruct (@RegistryProps.ensure_loaded_effects w reg r1 w1 E) as [F _].
  destruct (set_iter str_hash (py_set (findall_lower 2 (lower query)))).
  - intros H. now injection H as _ <- _.
  - destruct (search_loop _ _ _); cbn [bind]; [|discriminate].
    intros H. now injection H as _ <- _.
Qed.

(** X26.  One successful search that asks the external registries leaves
    the engine with nothing to load: its registry has the index in memory
    and its own flag is set, so that later searches and recommendations
    answer from memory. *)
Theorem search_makes_the_engine_ready
        (w : World) (self : UnifiedSkillSearch) (query : string) (top_n : Z)
        (external_only : bool)
        (local external : list result) (self' : UnifiedSkillSearch) (w' : World) :
  include_external self = true ->
  search str_hash w self query top_n false external_only = Ok (local, external, self', w') ->
  ready self'
  /\ include_external self' = true
  /\ local_search self' = local_search self.
Proof.
  intros Hi. unfold search. rewrite Hi. cbn [negb andb]. unfold _ensure_external_loaded.
  destruct (the_external_registry self) as [reg|] eqn:R; cbn [bind].
  - destruct (negb (_external_loaded self)) eqn:L.
    + destruct (load_index w reg false) as [[[n r1] w1]|]; cbn [bind]; [|discriminate].
      cbn [with_registry the_external_registry _external_loaded].
      destruct (external_registry.search str_hash w1 r1 query top_n default_threshold)
        as [[[ext r2] w2]|] eqn:E; cbn [bind]; [|discriminate].
      intros H. injection H as _ _ <- _.
      split; [|split; [exact Hi | reflexivity]].
      right. exists r2. cbn [with_registry the_external_registry _external_loaded].
      split; [reflexivity|]. split; [exact (@search_leaves_loaded _ _ _ _ _ _ _ _ E) | reflexivity].
    + cbn [bind]. rewrite R.
      destruct (external_registry.search str_hash w reg query top_n default_threshold)
        as [[[ext r2] w2]|] eqn:E; cbn [bind]; [|discriminate].
      intros H. injection H as _ _ <- _.
      split; [|split; [exact Hi | reflexivity]].
      right. exists r2. cbn [with_registry the_external_registry _external_loaded].
      split; [reflexivity|]. split; [exact (@search_leaves_loaded _ _ _ _ _ _ _ _ E)|].
      now apply negb_false_iff in L.
  - rewrite R. discriminate.
Qed.

End WithHash.

Lemma recommend_prefers_installed_witness :
  (false = true <->
   Some ("curl -sL https://raw.githubusercontent.com/ComposioHQ/awesome-claude-skills/master/pdf-tools/SKILL.md"
         +++ " -o ~/.claude/skills/pdf-tools/SKILL.md --create-dirs") = None)
  /\ (List.length ["notes"; "notes"] <= 3)%nat
  /\ (false = false ->
      forall l, In l (local_search Examples.engine_with_local "pdf tools notes" 5) ->
                score_of l < binary64 (712 # 1000)).
Proof.
  apply (@recommend_prefers_installed Examples.flat_hash Examples.online
           Examples.engine_with_local "pdf tools notes" "pdf-tools" (binary64 (712 # 1000)) false
           "awesome-claude-skills"
           "https://github.com/ComposioHQ/awesome-claude-skills/tree/master/pdf-tools"
           "Extract text from PDF documents" ["notes"; "notes"]
           (Some ("curl -sL https://raw.githubusercontent.com/ComposioHQ/awesome-claude-skills/master/pdf-tools/SKILL.md"
                  +++ " -o ~/.claude/skills/pdf-tools/SKILL.md --create-dirs"))
           Examples.engine_with_local Examples.online).
  vm_compute. reflexivity.
Defined.

Lemma search_makes_the_engine_ready_witness :
  exists self',
    ready self'
    /\ include_external self' = true
    /\ local_search self' = local_search Examples.new_engine.
Proof.
  destruct (search Examples.flat_hash Examples.online Examples.new_engine "pdf" 10 false false)
    as [[[[local external] self'] w']|] eqn:E; [|vm_compute in E; discriminate E].
  exists self'.
  exact (@search_makes_the_engine_ready Examples.flat_hash Examples.online Examples.new_engine
           "pdf" 10 false local external self' w' eq_refl E).
Defined.

(** X27.  The two install commands agree.  For a result of
    [ExternalRegistry.search], the command [recommend] gives is the [curl]
    line that fetches the manifest of the record into the skill's own
    directory, or [# Visit: <url>] when the record has no manifest
    address; [get] gives the same for the record, with a comment line in
    front of the [curl] line. *)
Theorem install_commands_agree (skill : RemoteSkill) (score : Q) (r : result) :
  result_of skill score r ->
  exists c,
    _get_install_command_from_result r = Ok c
    /\ c = match skill_md_url skill with
           | EmptyString => "# Visit: " +++ url skill
           | u => "curl -sL " +++ u +++ " -o ~/.claude/skills/" +++ name skill
                  +++ "/SKILL.md --create-dirs"
           end
    /\ _get_install_command skill
       = match skill_md_url skill with
         | EmptyString => c
         | _ => "# Download to ~/.claude/skills/" +++ name skill +++ "/" +++ newline +++ c
         end.
Proof.
  intros (Hn & _ & _ & _ & _ & Hu & Hm).
  unfold _get_install_command_from_result, _get_install_command. rewrite Hm, Hu, Hn.
  cbn [get item bind]. destruct (skill_md_url skill); eexists; repeat split; reflexivity.
Qed.

Lemma install_commands_agree_witness :
  exists c,
    _get_install_command_from_result
      {| r_name := Some "notes"; r_score := Some (py_round3 (1 # 2));
         r_description := Some (take 200 (description Examples.notes_anthropic));
         r_category := Some "general"; r_source := Some "anthropic-skills";
         r_url := Some (url Examples.notes_anthropic);
         r_skill_md_url := Some (skill_md_url Examples.notes_anthropic);
         r_path := None; r_installed := None |} = Ok c
    /\ _get_install_command Examples.notes_anthropic
       = "# Download to ~/.claude/skills/notes/" +++ newline +++ c.
Proof.
  destruct (@install_commands_agree Examples.notes_anthropic (1 # 2)
              {| r_name := Some "notes"; r_score := Some (py_round3 (1 # 2));
                 r_description := Some (take 200 (description Examples.notes_anthropic));
                 r_category := Some "general"; r_source := Some "anthropic-skills";
                 r_url := Some (url Examples.notes_anthropic);
                 r_skill_md_url := Some (skill_md_url Examples.notes_anthropic);
                 r_path := None; r_installed := None |})
    as [c [E [_ G]]].
  - repeat split; reflexivity.
  - exists c. split; [exact E | exact G].
Defined.

(** X28.  [add_registry] puts the new registry, in the order [load_index]
    consults them, behind every registry whose priority number is at most
    its own and in front of every registry with a greater one; the others
    keep their order.  It changes neither the index nor the loaded
    flag. *)
Theorem add_registry_takes_its_rank
        (self : ExternalRegistry) (name owner repo branch : string) (priority : Z) :
  let self' := add_registry self name owner repo branch priority in
  skills self' = skills self
  /\ _index_loaded self' = _index_loaded self
  /\ exists new ahead behind,
      registries self' = registries self ++ [new]
      /\ reg_name new = name /\ priority_of new = priority
      /\ sorted_registries (registries self) = ahead ++ behind
      /\ sorted_registries (registries self') = ahead ++ new :: behind
      /\ Forall (fun r => (priority_of r <= priority)%Z) ahead
      /\ Forall (fun r => (priority < priority_of r)%Z) behind.
Proof.
  cbv zeta. split; [reflexivity|]. split; [reflexivity|].
  cbn [add_registry registries].
  assert (G : forall new, priority_of new = priority ->
             exists ahead behind,
               sorted_registries (registries self) = ahead ++ behind
               /\ sorted_registries (registries self ++ [new]) = ahead ++ new :: behind
               /\ Forall (fun r => (priority_of r <= priority)%Z) ahead
               /\ Forall (fun r => (priority < priority_of r)%Z) behind).
  { intros new P.
    unfold sorted_registries. induction (registries self) as [|y l IH].
    - exists [], []. repeat split; constructor.
    - destruct IH as [ahead [behind [S [F [Ha Hb]]]]].
      cbn [app stable_sort fold_right] in *.
      fold (stable_sort (fun a b => (priority_of a <=? priority_of b)%Z) l) in *.
      fold (stable_sort (fun a b => (priority_of a <=? priority_of b)%Z) (l ++ [new])) in *.
      rewrite S, F.
      destruct (Z_le_gt_dec (priority_of y) priority) as [Hy | Hy].
      + exists (insert_sorted (fun a b => (priority_of a <=? priority_of b)%Z) y ahead), behind.
        split; [|split; [|split]].
        * apply insert_app_accept. destruct behind as [|b behind]; [exact I|].
          inversion Hb; subst. apply Z.leb_le. lia.
        * apply (@insert_app_accept _ _ y ahead (new :: behind)). apply Z.leb_le. lia.
        * rewrite Forall_forall in *. intros r Hr.
          apply (Permutation_in _ (@insert_sorted_perm _ _ y ahead)) in Hr.
          destruct Hr as [<- | Hr]; [exact Hy | now apply Ha].
        * exact Hb.
      + exists ahead, (insert_sorted (fun a b => (priority_of a <=? priority_of b)%Z) y behind).
        assert (R : Forall (fun a => (priority_of y <=? priority_of a)%Z = false) ahead).
        { rewrite Forall_forall in *. intros r Hr. apply Z.leb_gt. specialize (Ha r Hr). lia. }
        split; [|split; [|split]].
        * now apply insert_app_reject.
        * rewrite (@insert_app_reject _ _ y ahead (new :: behind) R). cbn [insert_sorted].
          assert (N : (priority_of y <=? priority_of new)%Z = false) by (apply Z.leb_gt; lia).
          now rewrite N.
        * exact Ha.
        * rewrite Forall_forall in *. intros r Hr.
          apply (Permutation_in _ (@insert_sorted_perm _ _ y behind)) in Hr.
          destruct Hr as [<- | Hr]; [lia | now apply Hb]. }
  destruct (G {| reg_name := name; reg_type := "github"; reg_owner := owner; reg_repo := repo;
                 reg_branch := Some branch;
                 reg_url := "https://github.com/" +++ owner +++ "/" +++ repo;
                 reg_priority := Some priority |} eq_refl) as [ahead [behind H]].
  eexists. exists ahead, behind.
  split; [reflexivity|]. split; [reflexivity|]. split; [reflexivity | exact H].
Qed.

End UnifiedProps.

(** ** The shape of the index *)

Module InvariantProps.
Import external_registry unified_search Spec DictFacts NetworkFacts SearchFacts.

Lemma bind_ok {A B : Type} (m : exn A) (k : A -> exn B) (b : B) :
  bind m k = Ok b -> exists a, m = Ok a /\ k a = Ok b.
Proof. destruct m as [a|e]; cbn [bind]; [now exists a | discriminate]. Qed.

Lemma dict_set_keys_present (k : string) (v : RemoteSkill) (d : index) :
  dict_lookup k d <> None -> map fst (dict_set k v d) = map fst d.
Proof.
  induction d as [|[k' v'] d IH]; cbn [dict_lookup dict_set map fst]; [congruence|].
  destruct (String.eqb k k') eqn:E; cbn [map fst].
  - intros _. apply String.eqb_eq in E. now subst.
  - intros H. now rewrite IH.
Qed.

Lemma dict_set_forall (P : string * RemoteSkill -> Prop) (k : string) (v : RemoteSkill)
      (d : index) :
  Forall P d -> P (k, v) -> Forall P (dict_set k v d).
Proof.
  intros Hd Hkv. induction Hd as [|[k' v'] d Hx Hd IH]; cbn [dict_set].
  - now constructor.
  - destruct (String.eqb k k'); constructor; assumption.
Qed.

Lemma is_index_set (v : RemoteSkill) (d : index) :
  is_index d -> is_index (dict_set (name v) v d).
Proof.
  intros [Hnd Hk]. destruct (dict_lookup (name v) d) eqn:E.
  - split.
    + rewrite dict_set_keys_present; [exact Hnd | congruence].
    + now apply dict_set_forall.
  - pose proof (@is_index_add_all [(name v, v)] d) as H.
    cbn [fold_left] in H. unfold add_absent, dict_has in H. cbn [fst snd] in H.
    rewrite E in H. apply H; [repeat constructor | now split].
Qed.

Lemma cache_items_index (items : list Json.json) (d d' : index) :
  cache_items items d = Ok d' -> is_index d -> is_index d'.
Proof.
  revert d; induction items as [|x items IH]; intros d; cbn [cache_items].
  - intros H. now injection H as <-.
  - intros H Hd. apply bind_ok in H as [skill [_ H]].
    apply (IH _ H). now apply is_index_set.
Qed.

Lemma bundled_items_index (items : list Json.json) (d d' : index) :
  bundled_items items d = Ok d' -> is_index d -> is_index d'.
Proof.
  revert d; induction items as [|x items IH]; intros d; cbn [bundled_items].
  - intros H. now injection H as <-.
  - destruct x as [| | | | |m]; try apply IH.
    intros H Hd.
    apply bind_ok in H as [n [_ H]]. apply bind_ok in H as [ds [_ H]].
    apply bind_ok in H as [s [_ H]]. apply bind_ok in H as [u [_ H]].
    apply bind_ok in H as [c [_ H]]. apply bind_ok in H as [k [_ H]].
    apply bind_ok in H as [md [_ H]].
    apply (IH _ H).
    exact (@is_index_set {| name := n; description := ds; source := s; url := u; category := c;
                            keywords := k; readme_url := EmptyString; skill_md_url := md |}
             d Hd).
Qed.

Lemma load_bundled_index_shape (files : list (option Json.text)) (d d' : index) (b : bool) :
  _load_bundled_index files d = Ok (b, d') -> is_index d -> is_index d'.
Proof.
  induction files as [|f files IH]; cbn [_load_bundled_index].
  - intros H. now injection H as _ <-.
  - destruct f as [t|]; [|exact IH].
    destruct (Json.json_loads t) as [j|]; [|exact IH].
    destruct (Json.dict_get j "skills" (Json.JArr [])) as [v|e]; cbn [bind try_except].
    + destruct (Json.iterate v) as [items|e]; cbn [bind try_except].
      * destruct (bundled_items items d) as [s|e] eqn:E; cbn [bind try_except].
        -- intros H Hd. injection H as _ <-. exact (@bundled_items_index items d _ E Hd).
        -- destruct (existsb (pyerr_eqb e) [JSONDecodeError; KeyError]); [exact IH|discriminate].
      * destruct (existsb (pyerr_eqb e) [JSONDecodeError; KeyError]); [exact IH|discriminate].
    + destruct (existsb (pyerr_eqb e) [JSONDecodeError; KeyError]); [exact IH|discriminate].
Qed.

Lemma read_cache_shape (w : World) (d d' : index) :
  read_cache w d = Ok (Some d') -> is_index d -> is_index d'.
Proof.
  unfold read_cache. destruct (cache_file w) as [t|]; [|discriminate].
  set (caught := [JSONDecodeError; KeyError; ValueError]).
  assert (Out : forall e : pyerr,
             (if existsb (pyerr_eqb e) caught then Ok None else Raise e)
             <> (Ok (Some d') : exn (option index))).
  { intros e. destruct (existsb (pyerr_eqb e) caught); discriminate. }
  destruct (Json.json_loads t) as [j|e]; cbn [bind try_except]; [|intros H; now apply Out in H].
  destruct (Json.dict_get j "updated" (Json.JStr "2000-01-01T00:00:00Z")) as [u|e];
    cbn [bind try_except]; [|intros H; now apply Out in H].
  destruct (replace_method u) as [s|e]; cbn [bind try_except]; [|intros H; now apply Out in H].
  destruct (Datetime.fromisoformat (other_formats w) s) as [ct|e]; cbn [bind try_except];
    [|intros H; now apply Out in H].
  destruct (Datetime.sub_us (Datetime.now_utc (clock w)) ct) as [age|e]; cbn [bind try_except];
    [|intros H; now apply Out in H].
  destruct (age <? 86400 * Datetime.second_us)%Z; cbn [try_except]; [|discriminate].
  destruct (Json.dict_get j "skills" (Json.JArr [])) as [v|e]; cbn [bind try_except];
    [|intros H; now apply Out in H].
  destruct (Json.iterate v) as [items|e]; cbn [bind try_except]; [|intros H; now apply Out in H].
  destruct (cache_items items d) as [s1|e] eqn:E; cbn [bind try_except];
    [|intros H; now apply Out in H].
  intros H Hd. injection H as <-. exact (@cache_items_index items d _ E Hd).
Qed.

(** Every path of [load_index] keeps the index a dict of records under
    their own names. *)
Lemma load_index_shape (w : World) (self : ExternalRegistry) (force : bool)
      (n : nat) (self' : ExternalRegistry) (w' : World) :
  load_index w self force = Ok (n, self', w') ->
  is_index (skills self) -> is_index (skills self').
Proof.
  rewrite load_index_steps. unfold loaded.
  destruct (if negb force then read_cache w (skills self) else Ok None) as [[cached|]|e] eqn:C;
    cbn [bind]; [| |discriminate].
  - intros H Hd. injection H as _ <- _. cbn [skills].
    destruct force; cbn [negb] in C; [discriminate|]. exact (@read_cache_shape w _ _ C Hd).
  - destruct (_load_bundled_index (bundled_files w) (skills self)) as [[b s1]|e] eqn:B;
      cbn [bind]; [|discriminate].
    destruct (force || negb b).
    + destruct (index_registries w (sorted_registries (registries self)) s1) as [s2|e] eqn:R;
        cbn [bind]; [|discriminate].
      intros H Hd. injection H as _ <- _. cbn [skills].
      destruct (@index_registries_spec _ _ _ _ R) as (_ & I & _).
      apply I. exact (@load_bundled_index_shape _ _ _ _ B Hd).
    + cbn [bind]. intros H Hd. injection H as _ <- _. cbn [skills].
      exact (@load_bundled_index_shape _ _ _ _ B Hd).
Qed.

(** X29.  Whatever was in memory, the cache, the bundled files and the
    network, a [refresh_external] that returns leaves the registry with an
    index of records stored each under its own name, one per name, and
    returns their number; the registry is flagged as loaded and keeps its
    list of registries, and the engine's own flag stays as it was.  An
    engine without external registries returns 0 and changes nothing. *)
Theorem refresh_external_leaves_a_sound_index
        (w : World) (self : UnifiedSkillSearch)
        (n : nat) (self' : UnifiedSkillSearch) (w' : World) :
  refresh_external w self = Ok (n, self', w') ->
  _external_loaded self' = _external_loaded self
  /\ match the_external_registry self with
     | None => n = O /\ self' = self /\ w' = w
     | Some reg =>
         exists reg',
           the_external_registry self' = Some reg'
           /\ is_index (skills reg')
           /\ n = List.length (skills reg')
           /\ _index_loaded reg' = true
           /\ registries reg' = registries reg
           /\ w' = persisted w (skills reg')
     end.
Proof.
  unfold refresh_external. destruct (the_external_registry self) as [reg|].
  - destruct (refresh w reg) as [[[k r1] w1]|] eqn:E; cbn [bind]; [|discriminate].
    intros H. injection H as <- <- <-. split; [reflexivity|]. exists r1.
    unfold refresh in E.
    pose proof (@load_index_shape _ _ _ _ _ _ E) as Hs.
    destruct (RegistryProps.load_index_effects _ _ _ E)
      as (Hn & Hl & Hr & _ & _ & _ & _ & _ & _ & _ & Hp).
    split; [reflexivity|]. split; [apply Hs; split; constructor|].
    split; [exact Hn|]. split; [exact Hl|]. split; [exact Hr | now apply Hp].
  - intros H. injection H as <- <- <-. repeat split; reflexivity.
Qed.

Lemma refresh_external_leaves_a_sound_index_witness :
  exists n self' w',
    refresh_external Examples.online_with_bundle Examples.new_engine = Ok (n, self', w')
    /\ _external_loaded self' = false
    /\ exists reg', the_external_registry self' = Some reg' /\ is_index (skills reg').
Proof.
  destruct (refresh_external Examples.online_with_bundle Examples.new_engine)
    as [[[n self'] w']|] eqn:E; [|vm_compute in E; discriminate E].
  exists n, self', w'. split; [reflexivity|].
  destruct (@refresh_external_leaves_a_sound_index
              Examples.online_with_bundle Examples.new_engine n self' w' E)
    as [F [reg' [R [I _]]]].
  split; [exact F|]. exists reg'. split; [exact R | exact I].
Defined.

Section WithHash.
Variable str_hash : string -> Z.

(** X30.  Every external hit can be fetched by its name.  For an engine
    whose registry holds a well-formed index in memory, each external
    result of [search] carries the name of a record under which [get]
    -- for a name that is not installed locally -- returns that very
    record, marked as available, with its install command, and leaves the
    world as it is. *)
Theorem external_hits_are_fetched_by_name
        (local_get : string -> option result)
        (w : World) (self : UnifiedSkillSearch) (reg : ExternalRegistry)
        (query : string) (top_n : Z) :
  include_external self = true ->
  the_external_registry self = Some reg ->
  _external_loaded self = true ->
  _index_loaded reg = true ->
  is_index (skills reg) ->
  exists external self',
    search str_hash w self query top_n false false
    = Ok (local_search self query top_n, external, self', w)
    /\ forall r, In r external ->
         exists s score,
           r_name r = Some (name s)
           /\ result_of s score r
           /\ (local_get (name s) = None ->
               get_skill local_get w self (name s)
               = Ok (Some (Available s (_get_install_command s)), self', w)).
Proof.
  intros Hi Hr He Hl [Hnd Hk].
  destruct (search_in_memory str_hash w reg query top_n default_threshold Hl) as [rs [E A]].
  exists rs, (with_registry self reg true). split.
  - unfold search. rewrite Hi. cbn [negb andb]. unfold _ensure_external_loaded.
    rewrite Hr, He. cbn [negb bind]. rewrite Hr, E. cbn [bind]. now rewrite He.
  - intros r Hin. destruct (@answer_sound _ _ _ _ _ r A Hin) as [s [Hs [score [_ [_ Hres]]]]].
    exists s, score. split; [apply Hres|]. split; [exact Hres|].
    intros Hloc. unfold get_skill. rewrite Hloc, Hi. unfold _ensure_external_loaded.
    rewrite Hr, He. cbn [negb bind]. rewrite Hr.
    unfold external_registry.get, ensure_loaded. rewrite Hl. cbn [negb bind].
    assert (L : dict_lookup (name s) (skills reg) = Some s).
    { unfold values in Hs. apply in_map_iff in Hs as [[k v] [Hv Hkv]]. cbn [snd] in Hv. subst v.
      rewrite Forall_forall in Hk. pose proof (Hk _ Hkv) as Hname. cbn [fst snd] in Hname.
      subst k. now apply In_dict_lookup. }
    rewrite L. now rewrite He.
Qed.

End WithHash.

Lemma external_hits_are_fetched_by_name_witness :
  exists external self',
    search Examples.flat_hash Examples.online Examples.engine "pdf" 10 false false
    = Ok (local_search Examples.engine "pdf" 10, external, self', Examples.online)
    /\ forall r, In r external ->
         exists s score,
           r_name r = Some (name s)
           /\ result_of s score r
           /\ ((fun _ : string => @None result) (name s) = None ->
               get_skill (fun _ => None) Examples.online Examples.engine (name s)
               = Ok (Some (Available s (_get_install_command s)), self', Examples.online)).
Proof.
  apply (@external_hits_are_fetched_by_name Examples.flat_hash (fun _ => None)
           Examples.online Examples.engine
           {| skills := Examples.network_index; registries := KNOWN_REGISTRIES;
              _index_loaded := true |} "pdf" 10);
    try reflexivity.
  split; [repeat constructor; cbn; intuition discriminate | repeat constructor].
Defined.

End InvariantProps.
